(** * YarpRobotLoggerDevice: a shallow embedding of the logging core

    The development follows [devices/YarpRobotLoggerDevice/src/YarpRobotLoggerDevice.cpp]:
    the string helper [findAndReplaceAll], the wake-up schedule of the worker
    loops, the periodic [run] tick, the video worker [recordVideo], the
    rotation hook [saveCallback] and the configuration entry point [open].

    External collaborators (sensor bridge, camera bridge, text-logging port,
    buffer manager, file system, OpenCV matrices) are represented by the
    values they hand back and by the trace of calls the device makes on them. *)

From Stdlib Require Import ZArith QArith Lia Ascii String DecimalString DecimalN Sorted.
From stdpp Require Import gmap strings list fin_maps.

Open Scope string_scope.
Open Scope list_scope.

(* ===================================================================== *)
(** * Part I: definitions                                                 *)
(* ===================================================================== *)

(** ** std::string operations

    A [std::string] is a sequence of characters.  Positions are [size_t]
    values; every position computed below is bounded by the length of a
    string held in memory, far below 2^64, so they are kept in [nat] and
    [std::string::npos] is [None]. *)
Module StdString.

Definition t := list ascii.

(** [s] is found at the very beginning of [l]. *)
Fixpoint starts_with (s l : t) : bool :=
  match s, l with
  | [], _ => true
  | _ :: _, [] => false
  | a :: s', b :: l' => bool_decide (a = b) && starts_with s' l'
  end.

(** Offset of the first occurrence of [s] in [l], scanning left to right. *)
Fixpoint first_match (s l : t) : option nat :=
  match l with
  | [] => if starts_with s [] then Some 0 else None
  | _ :: tl => if starts_with s l then Some 0 else S <$> first_match s tl
  end.

(** [data.find(str, pos)]: the lowest index [i >= pos] at which [str] occurs
    in [data]; [npos] when there is none or when [pos > data.size()]. *)
Definition find (data str : t) (pos : nat) : option nat :=
  if decide (pos <= length data)
  then (fun i => pos + i) <$> first_match str (drop pos data)
  else None.

(** [data.replace(pos, len, str)] for [pos <= data.size()]: the characters
    [pos, pos+len) (cut at the end of [data]) give way to [str]. *)
Definition replace (data : t) (pos len : nat) (str : t) : t :=
  take pos data ++ str ++ drop (pos + len) data.

(** The [while (pos != npos)] loop of [findAndReplaceAll].  [fuel] bounds the
    number of iterations; [None] reports that the bound was reached with the
    loop still running. *)
Fixpoint findAndReplaceAll_loop (fuel : nat) (toSearch replaceStr data : t)
    (pos : option nat) : option t :=
  match pos with
  | None => Some data
  | Some p =>
      match fuel with
      | 0 => None
      | S fuel' =>
          let data' := replace data p (length toSearch) replaceStr in
          findAndReplaceAll_loop fuel' toSearch replaceStr data'
            (find data' toSearch (p + length replaceStr))
      end
  end.

(** [findAndReplaceAll(data, toSearch, replaceStr)]; the result is the final
    content of the in/out argument [data]. *)
Definition findAndReplaceAll_fuel (fuel : nat) (data toSearch replaceStr : t)
    : option t :=
  findAndReplaceAll_loop fuel toSearch replaceStr data (find data toSearch 0).

(** One iteration per character of [data] always suffices when [toSearch] is
    not empty, as Part II shows. *)
Definition findAndReplaceAll (data toSearch replaceStr : t) : option t :=
  findAndReplaceAll_fuel (S (length data)) data toSearch replaceStr.

(** [str] occurs somewhere in [data]. *)
Definition occurs (str data : t) : Prop :=
  exists pre post, data = pre ++ str ++ post.

Definition occursb (str data : t) : bool :=
  bool_decide (is_Some (find data str 0)).

(** Reference behaviour the loop is compared with: the occurrences are
    replaced from left to right and replaced text is never looked at again.
    While [skip] characters of a matched occurrence remain they are dropped,
    otherwise an occurrence starting here is replaced and a character that
    starts no occurrence is copied. *)
Fixpoint substitute (toSearch replaceStr : t) (skip : nat) (l : t) : t :=
  match l with
  | [] => []
  | c :: tl =>
      match skip with
      | S k => substitute toSearch replaceStr k tl
      | 0 =>
          if starts_with toSearch l
          then replaceStr ++ substitute toSearch replaceStr (length toSearch - 1) tl
          else c :: substitute toSearch replaceStr 0 tl
      end
  end.

(** Character-wise replacement. *)
Definition replace_char (c : ascii) (by_ : ascii) (l : t) : t :=
  (fun x => if decide (x = c) then by_ else x) <$> l.

End StdString.


(** ** Wake-up schedule of the worker loops

    [lookForExogenousSignals], [lookForNewLogs] and [recordVideo] keep three
    [std::chrono::nanoseconds] values, [time], [oldTime] and [wakeUpTime],
    and update them at the top of every iteration from one reading of the
    clock.  Nanosecond counts are 64-bit integers; a run of the logger stays
    far from their range, so they are kept in [Z]. *)
Module Schedule.

Record clocks := { time : Z; oldTime : Z; wakeUpTime : Z }.

(** [auto time = clock().now(); auto oldTime = time; auto wakeUpTime = time;] *)
Definition start (now : Z) : clocks :=
  {| time := now; oldTime := now; wakeUpTime := now |}.

(** The test [(time - oldTime).count() < 1e-12]: an integer count of
    nanoseconds compared with the real number 10^-12. *)
Definition clock_reset (time oldTime : Z) : bool :=
  negb (Qle_bool (1 # 1000000000000) (inject_Z (time - oldTime))).

(** Top of one loop iteration: [now] is what [clock().now()] returns. *)
Definition tick (period : Z) (c : clocks) (now : Z) : clocks :=
  let oldTime' := time c in
  let time' := now in
  let wakeUpTime' := if clock_reset time' oldTime' then time' else wakeUpTime c in
  {| time := time'; oldTime := oldTime'; wakeUpTime := wakeUpTime' + period |}.

(** [const std::chrono::nanoseconds lookForExogenousSignalPeriod = 1s;] *)
Definition lookForExogenousSignalPeriod : Z := 1000000000.
(** [const auto lookForNewLogsPeriod = 2s;] *)
Definition lookForNewLogsPeriod : Z := 2000000000.

Definition lookForExogenousSignals_tick := tick lookForExogenousSignalPeriod.
Definition lookForNewLogs_tick := tick lookForNewLogsPeriod.
(** [recordVideoPeriod] is [1.0 / fps] seconds cast to nanoseconds; the
    floating-point division is left to the caller. *)
Definition recordVideo_tick (recordVideoPeriod : Z) := tick recordVideoPeriod.

(** The clock values after each iteration of a loop that starts at reading
    [now0] and then sees the readings [nows], one per iteration. *)
Fixpoint iterate (period : Z) (c : clocks) (nows : list Z) : list clocks :=
  match nows with
  | [] => []
  | now :: rest => let c' := tick period c now in c' :: iterate period c' rest
  end.

Definition wakeups (period now0 : Z) (nows : list Z) : list Z :=
  wakeUpTime <$> iterate period (start now0) nows.

End Schedule.

(** ** Shared vocabulary of the device *)

(** A string literal as a [std::string]. *)
Definition std_string (s : string) : StdString.t := list_ascii_of_string s.

Definition name := StdString.t.

(** The mutexes of the device: [m_bufferManagerMutex], the [mutex] member of
    an exogenous signal (keyed by its remote port), and the [mutex] member of
    a camera's image saver (camera name and stream, "rgb" or "depth"). *)
Inductive mutex_id :=
| BufferManagerMutex
| SignalMutex (remote : name)
| ImageSaverMutex (camera imageType : name).

(** [BipedalLocomotion::TextLoggingEntry] as [deserializeMessage] builds it
    from a bottle read on the text-logging port; the fields kept are the ones
    [run] looks at, and [text] stands for the remaining payload. *)
Record TextLoggingEntry := {
  isValid : bool;
  portSystem : name;
  portPrefix : name;
  processName : name;
  processPID : name;
  text : name
}.

Section Device.

(** Sensor readings are [double]s the device only moves around. *)
Context {scalar : Type}.

Definition vector := list scalar.

(** What is handed to [BufferManager::push_back]. *)
Inductive payload :=
| Vector (v : vector)
| Text (msg : TextLoggingEntry).

(** Calls made by [run] on its collaborators, in program order. *)
Inductive event :=
| EvLogError (where_ : name)
| EvNow (t : Z)
| EvLock (m : mutex_id)
| EvUnlock (m : mutex_id)
| EvAddChannel (channel : name) (rows cols : nat)
| EvPushBack (channel : name) (t : Z) (value : payload)
| EvTextRead (got : option TextLoggingEntry).

(** [YarpSensorBridge] during one tick: a getter that returns [false] is
    [None], otherwise the content it leaves in the output buffer. *)
Record SensorBridge := {
  advance : bool;
  getJointPositions : option vector;
  getJointVelocities : option vector;
  getJointAccelerations : option vector;
  getJointTorques : option vector;
  getMotorPositions : option vector;
  getMotorVelocities : option vector;
  getMotorAccelerations : option vector;
  getMotorCurrents : option vector;
  getMotorPWMs : option vector;
  getPidPositions : option vector;
  getSixAxisForceTorqueSensorsList : list name;
  getSixAxisForceTorqueMeasurement : name -> option vector;
  getTemperatureSensorsList : list name;
  getTemperature : name -> option scalar;
  getGyroscopesList : list name;
  getGyroscopeMeasure : name -> option vector;
  getLinearAccelerometersList : list name;
  getLinearAccelerometerMeasurement : name -> option vector;
  getOrientationSensorsList : list name;
  getOrientationSensorMeasurement : name -> option vector;
  getMagnetometersList : list name;
  getMagnetometerMeasurement : name -> option vector;
  getIMUsList : list name;
  getIMUMeasurement : name -> option vector;
  getCartesianWrenchesList : list name;
  getCartesianWrench : name -> option vector
}.

(** The [m_stream*] members read by [run]. *)
Record StreamFlags := {
  m_streamJointStates : bool;
  m_streamMotorStates : bool;
  m_streamMotorPWM : bool;
  m_streamPIDs : bool
}.

(** An entry of [m_vectorsCollectionSignals] or [m_vectorSignals]. *)
Record ExogenousSignal := {
  signalName : name;
  dataArrived : bool
}.

(** What [signal.port.read(false)] returns during the tick, per remote port:
    [None] is [nullptr]. *)
Record ExogenousPorts := {
  readCollection : name -> option (list (name * vector));
  readVector : name -> option vector
}.

(** The members [run] changes.  The two signal maps are listed in the order
    the range-for visits them; [m_textLoggingPort] is the queue of entries
    waiting to be read. *)
Record LoggerState := {
  m_vectorsCollectionSignals : list (name * ExogenousSignal);
  m_vectorSignals : list (name * ExogenousSignal);
  m_textLogsStoredInManager : gset name;
  m_textLoggingPort : list TextLoggingEntry
}.

(** [if (getter(buffer)) m_bufferManager.push_back(buffer, time, channel);] *)
Definition push_if (got : option vector) (time : Z) (channel : name) : list event :=
  match got with
  | Some v => [EvPushBack channel time (Vector v)]
  | None => []
  end.

(** [for (sensorName : list) if (getter(sensorName, buffer)) push_back(...)] *)
Definition push_each (sensors : list name) (getter : name -> option vector)
    (time : Z) (prefix : name) : list event :=
  flat_map (fun sensorName => push_if (getter sensorName) time (prefix ++ sensorName)) sensors.

(** [unpackIMU]: orientation, accelerometer and gyro are the segments of
    length 3 starting at 0, 3 and 6. *)
Definition unpackIMU (signal : vector) : vector * vector * vector :=
  (take 3 (drop 3 signal), take 3 (drop 6 signal), take 3 signal).

Definition push_imu (sb : SensorBridge) (time : Z) (sensorName : name) : list event :=
  match getIMUMeasurement sb sensorName with
  | Some signal =>
      let '(accelerometer, gyro, orientation) := unpackIMU signal in
      [EvPushBack (std_string "accelerometers::" ++ sensorName) time (Vector accelerometer);
       EvPushBack (std_string "gyros::" ++ sensorName) time (Vector gyro);
       EvPushBack (std_string "orientations::" ++ sensorName) time (Vector orientation)]
  | None => []
  end.

(** Lines 1209-1337 of [run]: the measurements of the sensor bridge. *)
Definition collect_sensors (fl : StreamFlags) (sb : SensorBridge) (time : Z) : list event :=
  (if m_streamJointStates fl then
     push_if (getJointPositions sb) time (std_string "joints_state::positions")
     ++ push_if (getJointVelocities sb) time (std_string "joints_state::velocities")
     ++ push_if (getJointAccelerations sb) time (std_string "joints_state::accelerations")
     ++ push_if (getJointTorques sb) time (std_string "joints_state::torques")
   else [])
  ++ (if m_streamMotorStates fl then
     push_if (getMotorPositions sb) time (std_string "motors_state::positions")
     ++ push_if (getMotorVelocities sb) time (std_string "motors_state::velocities")
     ++ push_if (getMotorAccelerations sb) time (std_string "motors_state::accelerations")
     ++ push_if (getMotorCurrents sb) time (std_string "motors_state::currents")
   else [])
  ++ (if m_streamMotorPWM fl then
     push_if (getMotorPWMs sb) time (std_string "motors_state::PWM") else [])
  ++ (if m_streamPIDs fl then
     push_if (getPidPositions sb) time (std_string "PIDs") else [])
  ++ push_each (getSixAxisForceTorqueSensorsList sb) (getSixAxisForceTorqueMeasurement sb)
       time (std_string "FTs::")
  ++ push_each (getTemperatureSensorsList sb)
       (fun n => (fun x => [x]) <$> getTemperature sb n) time (std_string "temperatures::")
  ++ push_each (getGyroscopesList sb) (getGyroscopeMeasure sb) time (std_string "gyros::")
  ++ push_each (getLinearAccelerometersList sb) (getLinearAccelerometerMeasurement sb)
       time (std_string "accelerometers::")
  ++ push_each (getOrientationSensorsList sb) (getOrientationSensorMeasurement sb)
       time (std_string "orientations::")
  ++ push_each (getMagnetometersList sb) (getMagnetometerMeasurement sb)
       time (std_string "magnetometers::")
  ++ flat_map (push_imu sb time) (getIMUsList sb)
  ++ push_each (getCartesianWrenchesList sb) (getCartesianWrench sb)
       time (std_string "cartesian_wrenches::").

(** Body of the loop over [m_vectorsCollectionSignals] for one entry. *)
Definition collect_collection (ports : ExogenousPorts) (time : Z)
    (entry : name * ExogenousSignal) : (name * ExogenousSignal) * list event :=
  let '(remote, signal) := entry in
  match readCollection ports remote with
  | Some vectors =>
      let full key := signalName signal ++ std_string "::" ++ key in
      let added :=
        if dataArrived signal then []
        else (fun kv => EvAddChannel (full kv.1) (length kv.2) 1) <$> vectors in
      let pushed := (fun kv => EvPushBack (full kv.1) time (Vector kv.2)) <$> vectors in
      ((remote, {| signalName := signalName signal; dataArrived := true |}),
       [EvLock (SignalMutex remote)] ++ added ++ pushed ++ [EvUnlock (SignalMutex remote)])
  | None =>
      ((remote, signal), [EvLock (SignalMutex remote); EvUnlock (SignalMutex remote)])
  end.

(** Body of the loop over [m_vectorSignals] for one entry. *)
Definition collect_vector (ports : ExogenousPorts) (time : Z)
    (entry : name * ExogenousSignal) : (name * ExogenousSignal) * list event :=
  let '(remote, signal) := entry in
  match readVector ports remote with
  | Some v =>
      let added :=
        if dataArrived signal then []
        else [EvAddChannel (signalName signal) (length v) 1] in
      ((remote, {| signalName := signalName signal; dataArrived := true |}),
       [EvLock (SignalMutex remote)] ++ added
         ++ [EvPushBack (signalName signal) time (Vector v)]
         ++ [EvUnlock (SignalMutex remote)])
  | None =>
      ((remote, signal), [EvLock (SignalMutex remote); EvUnlock (SignalMutex remote)])
  end.

(** A range-for that updates every entry and makes calls on the way. *)
Fixpoint for_each {A : Type} (body : A -> A * list event) (l : list A)
    : list A * list event :=
  match l with
  | [] => ([], [])
  | x :: rest =>
      let '(x', evs) := body x in
      let '(rest', evs') := for_each body rest in
      (x' :: rest', evs ++ evs')
  end.

(** [signalFullName] before sanitisation (lines 1390-1391). *)
Definition composite_key (msg : TextLoggingEntry) : name :=
  portSystem msg ++ std_string "::" ++ portPrefix msg ++ std_string "::"
    ++ processName msg ++ std_string "::p" ++ processPID msg.

(** Lines 1388-1405: what is done with a deserialised message.  [None] only
    if [findAndReplaceAll] does not return. *)
Definition store_text (stored : gset name) (time : Z) (msg : TextLoggingEntry)
    : option (gset name * list event) :=
  if isValid msg then
    signalFullName ← StdString.findAndReplaceAll (composite_key msg)
                       (std_string "-") (std_string "_");
    if decide (signalFullName ∈ stored)
    then Some (stored, [EvPushBack signalFullName time (Text msg)])
    else Some ({[signalFullName]} ∪ stored,
               [EvAddChannel signalFullName 1 1;
                EvPushBack signalFullName time (Text msg)])
  else Some (stored, []).

(** The [while (bufferportSize > 0)] loop (lines 1382-1411).  [arrivals k] are
    the messages the network delivers to the port while iteration [k] runs,
    between its [read] and its [getPendingReads].  The result carries the
    calls made so far and whether the loop has been left: after [fuel]
    iterations an unfinished loop is cut with the flag [false]. *)
Fixpoint drain_text (fuel : nat) (arrivals : nat -> list TextLoggingEntry) (k : nat)
    (time : Z) (stored : gset name) (port : list TextLoggingEntry)
    (bufferportSize : nat)
    : gset name * list TextLoggingEntry * list event * bool :=
  if decide (0 < bufferportSize)%nat then
    match fuel with
    | 0 => (stored, port, [], false)
    | S fuel' =>
        match port with
        | msg :: port' =>
            match store_text stored time msg with
            | Some (stored', evs) =>
                let port'' := port' ++ arrivals k in
                let '(stored'', port''', evs', finished) :=
                  drain_text fuel' arrivals (S k) time stored' port'' (length port'') in
                (stored'', port''', EvTextRead (Some msg) :: evs ++ evs', finished)
            | None => (stored, port', [EvTextRead (Some msg)], false)
            end
        | [] => (stored, port, [EvTextRead None], true)
        end
    end
  else (stored, port, [], true).

(** [YarpRobotLoggerDevice::run]: one tick of the periodic thread.  [now] is
    the reading of the clock at line 1205; the tick timestamp derived from it
    is represented by the reading itself.  The [lock_guard] on
    [m_bufferManagerMutex] is released when the function returns, that is
    when the last loop has been left. *)
Definition run (fuel : nat) (fl : StreamFlags) (sb : SensorBridge) (ports : ExogenousPorts)
    (arrivals : nat -> list TextLoggingEntry) (now : Z) (st : LoggerState)
    : LoggerState * list event * bool :=
  let time := now in
  let '(collections, evs_collections) :=
    for_each (collect_collection ports time) (m_vectorsCollectionSignals st) in
  let '(vectors, evs_vectors) :=
    for_each (collect_vector ports time) (m_vectorSignals st) in
  let '(stored, port, evs_text, finished) :=
    drain_text fuel arrivals 0 time (m_textLogsStoredInManager st)
      (m_textLoggingPort st) (length (m_textLoggingPort st)) in
  ({| m_vectorsCollectionSignals := collections;
      m_vectorSignals := vectors;
      m_textLogsStoredInManager := stored;
      m_textLoggingPort := port |},
   (if advance sb then [] else [EvLogError (std_string "run")])
   ++ [EvNow now; EvLock BufferManagerMutex]
   ++ collect_sensors fl sb time
   ++ evs_collections ++ evs_vectors ++ evs_text
   ++ (if finished then [EvUnlock BufferManagerMutex] else []),
   finished).

(** Number of messages taken from the text-logging port in a trace. *)
Definition messages_read (evs : list event) : nat :=
  length (List.filter (fun e => match e with EvTextRead (Some _) => true | _ => false end) evs).

(** Messages delivered to the port during the iterations [k, k+n). *)
Fixpoint arrived (arrivals : nat -> list TextLoggingEntry) (k n : nat) : nat :=
  match n with
  | 0 => 0
  | S n' => length (arrivals k) + arrived arrivals (S k) n'
  end.

(** The calls that append a sample or create a channel. *)
Definition is_append (e : event) : Prop :=
  match e with
  | EvPushBack _ _ _ | EvAddChannel _ _ _ => True
  | _ => False
  end.

(** The calls on the store-wide lock. *)
Definition on_store_lock (e : event) : Prop :=
  match e with
  | EvLock BufferManagerMutex | EvUnlock BufferManagerMutex => True
  | _ => False
  end.

(** The stretches of a trace during which [m_bufferManagerMutex] is held:
    from each [EvLock] to the [EvUnlock] that follows it (or to the end). *)
Fixpoint holds (held : option (list event)) (evs : list event) : list (list event) :=
  match evs, held with
  | [], Some h => [h]
  | [], None => []
  | EvLock BufferManagerMutex :: rest, None => holds (Some []) rest
  | EvUnlock BufferManagerMutex :: rest, Some h => h :: holds None rest
  | e :: rest, Some h => holds (Some (h ++ [e])) rest
  | _ :: rest, None => holds None rest
  end.

(** Samples appended in a stretch of a trace. *)
Definition appended (evs : list event) : nat :=
  length (List.filter (fun e => match e with EvPushBack _ _ _ => true | _ => false end) evs).

(** The readings of the clock taken in a trace. *)
Definition clock_reads (evs : list event) : list Z :=
  omap (fun e => match e with EvNow t => Some t | _ => None end) evs.

(** The sanitised channel key: ['-'] is not a legal character in the name of
    a field of a Matlab struct. *)
Definition sanitized_key (msg : TextLoggingEntry) : name :=
  StdString.replace_char "-" "_" (composite_key msg).

(** What the part of the tick before the text logs may call: appends stamped
    with [time], channel creations, and the mutex of an exogenous signal. *)
Definition sample_event (time : Z) (e : event) : Prop :=
  match e with
  | EvPushBack _ t _ => t = time
  | EvAddChannel _ _ _ => True
  | EvLock (SignalMutex _) | EvUnlock (SignalMutex _) => True
  | _ => False
  end.

(** The text-log loop also reads the port. *)
Definition drain_event (time : Z) (e : event) : Prop :=
  match e with
  | EvTextRead _ => True
  | _ => sample_event time e
  end.

End Device.

Arguments payload : clear implicits.
Arguments event : clear implicits.
Arguments SensorBridge : clear implicits.
Arguments ExogenousPorts : clear implicits.

(** *** Sample inputs for the tick

    A robot with six joints and no other sensor, readings taken as integers;
    and a text-log producer whose names contain ['-']. *)
Module Samples.

Definition joints : list Z := [10; 20; 30; 40; 50; 60]%Z.

Definition bridge : SensorBridge Z :=
  {| advance := true;
     getJointPositions := Some joints;
     getJointVelocities := Some joints;
     getJointAccelerations := Some joints;
     getJointTorques := Some joints;
     getMotorPositions := None;
     getMotorVelocities := None;
     getMotorAccelerations := None;
     getMotorCurrents := None;
     getMotorPWMs := None;
     getPidPositions := None;
     getSixAxisForceTorqueSensorsList := [];
     getSixAxisForceTorqueMeasurement := fun _ => None;
     getTemperatureSensorsList := [];
     getTemperature := fun _ => None;
     getGyroscopesList := [];
     getGyroscopeMeasure := fun _ => None;
     getLinearAccelerometersList := [];
     getLinearAccelerometerMeasurement := fun _ => None;
     getOrientationSensorsList := [];
     getOrientationSensorMeasurement := fun _ => None;
     getMagnetometersList := [];
     getMagnetometerMeasurement := fun _ => None;
     getIMUsList := [];
     getIMUMeasurement := fun _ => None;
     getCartesianWrenchesList := [];
     getCartesianWrench := fun _ => None |}.

Definition flags : StreamFlags :=
  {| m_streamJointStates := true;
     m_streamMotorStates := false;
     m_streamMotorPWM := false;
     m_streamPIDs := false |}.

Definition no_ports : ExogenousPorts Z :=
  {| readCollection := fun _ => None; readVector := fun _ => None |}.

Definition entry (message : string) : TextLoggingEntry :=
  {| isValid := true;
     portSystem := std_string "log";
     portPrefix := std_string "icub-head";
     processName := std_string "wb-controller";
     processPID := std_string "4242";
     text := std_string message |}.

(** One message is waiting when the tick starts. *)
Definition one_pending : LoggerState :=
  {| m_vectorsCollectionSignals := [];
     m_vectorSignals := [];
     m_textLogsStoredInManager := ∅;
     m_textLoggingPort := [entry "first"] |}.

Definition nothing_pending : LoggerState :=
  {| m_vectorsCollectionSignals := [];
     m_vectorSignals := [];
     m_textLogsStoredInManager := ∅;
     m_textLoggingPort := [] |}.

(** The producer sends one more message during each of the first three
    iterations of the drain loop. *)
Definition three_more (k : nat) : list TextLoggingEntry :=
  if decide (k < 3)%nat then [entry "more"] else [].

Definition quiet (k : nat) : list TextLoggingEntry := [].

End Samples.

(** ** Cameras, encoders and the files they produce *)

(** [VideoWriter::SaveMode]. *)
Inductive SaveMode := Frame | Video.

(** [robometry::SaveCallbackSaveMethod]. *)
Inductive SaveCallbackSaveMethod := periodic | last_call.

(** The operations of [cv::Mat] the device uses: the default constructor,
    [frame * depthScale] and
    [convertTo] with the types [CV_8UC1] and [CV_16UC1]. *)
Class MatOps (Mat : Type) := {
  mat_empty : Mat;
  mat_scale : Mat -> Z -> Mat;
  convertTo_8UC1 : Mat -> Mat;
  convertTo_16UC1 : Mat -> Mat
}.

(** What a function that may throw hands back. *)
Inductive outcome (A : Type) :=
| Returned (a : A)
| Thrown.
Arguments Returned {A} a.
Arguments Thrown {A}.

Section Cameras.

Context {Mat : Type} `{MatOps Mat}.

(** What lives under a path of the working directory: a video container with
    the frames written so far, a folder of image files, or the status file
    written at the end of [saveCallback]. *)
Inductive node :=
| VideoFile (frames : list Mat)
| Folder (images : list (name * Mat))
| StatusFile.

(** A [cv::VideoWriter]: the file it was constructed on, and whether
    [release] has closed it. *)
Record cvVideoWriter := {
  filename : name;
  isOpened : bool
}.

(** [VideoWriter::ImageSaver]; [writer] is a [shared_ptr], [None] when null. *)
Record ImageSaver := {
  saveMode : SaveMode;
  frame : Mat;
  writer : option cvVideoWriter;
  framesPath : name
}.

(** [VideoWriter]; [rgb] and [depth] are [shared_ptr]s, [None] when null. *)
Record VideoWriter := {
  rgb : option ImageSaver;
  depth : option ImageSaver;
  fps : Z;
  depthScale : Z
}.

(** A default-constructed [VideoWriter], as [operator[]] inserts it. *)
Definition VideoWriter_default : VideoWriter :=
  {| rgb := None; depth := None; fps := (-1)%Z; depthScale := 1%Z |}.

(** The two streams of a camera. *)
Inductive stream := RGB | Depth.

Definition stream_name (s : stream) : name :=
  match s with RGB => std_string "rgb" | Depth => std_string "depth" end.

Definition saver_of (s : stream) (w : VideoWriter) : option ImageSaver :=
  match s with RGB => rgb w | Depth => depth w end.

Definition set_saver (s : stream) (i : ImageSaver) (w : VideoWriter) : VideoWriter :=
  match s with
  | RGB => {| rgb := Some i; depth := depth w; fps := fps w; depthScale := depthScale w |}
  | Depth => {| rgb := rgb w; depth := Some i; fps := fps w; depthScale := depthScale w |}
  end.

(** The part of the device the camera code works on.  [files] is the working
    directory, [errors] the messages sent to [log()->error]. *)
Record CameraState := {
  m_videoWriters : gmap name VideoWriter;
  m_rgbCamerasList : list name;
  m_rgbdCamerasList : list name;
  rgbImgDimensions : gmap name (nat * nat);
  rgbdImgDimensions : gmap name (nat * nat);
  files : gmap name node;
  errors : list name
}.

Definition with_writers (m : gmap name VideoWriter) (st : CameraState) : CameraState :=
  {| m_videoWriters := m;
     m_rgbCamerasList := m_rgbCamerasList st;
     m_rgbdCamerasList := m_rgbdCamerasList st;
     rgbImgDimensions := rgbImgDimensions st;
     rgbdImgDimensions := rgbdImgDimensions st;
     files := files st;
     errors := errors st |}.

Definition with_files (f : gmap name node) (st : CameraState) : CameraState :=
  {| m_videoWriters := m_videoWriters st;
     m_rgbCamerasList := m_rgbCamerasList st;
     m_rgbdCamerasList := m_rgbdCamerasList st;
     rgbImgDimensions := rgbImgDimensions st;
     rgbdImgDimensions := rgbdImgDimensions st;
     files := f;
     errors := errors st |}.

(** [log()->error(...)]. *)
Definition log_error (msg : name) (st : CameraState) : CameraState :=
  {| m_videoWriters := m_videoWriters st;
     m_rgbCamerasList := m_rgbCamerasList st;
     m_rgbdCamerasList := m_rgbdCamerasList st;
     rgbImgDimensions := rgbImgDimensions st;
     rgbdImgDimensions := rgbdImgDimensions st;
     files := files st;
     errors := errors st ++ [msg] |}.

(** [m_videoWriters[camera]]: the entry, default-constructed and inserted
    when the key is new. *)
Definition writers_at (camera : name) (st : CameraState) : CameraState * VideoWriter :=
  match m_videoWriters st !! camera with
  | Some w => (st, w)
  | None => (with_writers (<[camera := VideoWriter_default]> (m_videoWriters st)) st,
             VideoWriter_default)
  end.

(** Writing through the [shared_ptr] held in [m_videoWriters[camera]]. *)
Definition store_saver (camera : name) (s : stream) (i : ImageSaver) (st : CameraState)
    : CameraState :=
  with_writers (alter (set_saver s i) camera (m_videoWriters st)) st.

(** ["output_" + camera + "_" + imageType]. *)
Definition output_name (camera : name) (s : stream) : name :=
  std_string "output_" ++ camera ++ std_string "_" ++ stream_name s.

(** [std::filesystem::rename(from, to)] on a POSIX system; [None] when it
    throws.  It throws when [from] does not exist.  Nothing is done when
    [to] is [from].  A folder can be renamed to a free name or onto an empty
    folder, which it replaces: a destination that is a folder with entries,
    or that is a file, makes it throw.  A file can be renamed to a free name
    or onto a file, which it replaces: a destination that is a folder makes
    it throw. *)
Definition fs_rename (from to : name) (f : gmap name node) : option (gmap name node) :=
  match f !! from with
  | Some n =>
      if decide (from = to) then Some f
      else
        match n, f !! to with
        | _, None => Some (<[to := n]> (delete from f))
        | Folder _, Some (Folder []) => Some (<[to := n]> (delete from f))
        | Folder _, Some _ => None
        | _, Some (Folder _) => None
        | _, Some _ => Some (<[to := n]> (delete from f))
        end
  | None => None
  end.

(** [std::filesystem::create_directory(path)]: a new empty folder, or nothing
    when the path exists. *)
Definition fs_create_directory (path : name) (f : gmap name node) : gmap name node :=
  match f !! path with
  | Some _ => f
  | None => <[path := Folder []]> f
  end.

(** [openVideoWriter]: [false] for a null saver or a camera without image
    dimensions or video writer; otherwise a new [cv::VideoWriter] on
    ["output_<camera>_<type>.mp4"], which creates that file. *)
Definition openVideoWriter (s : stream) (camera : name)
    (imgDimensions : gmap name (nat * nat)) (st : CameraState) : bool * CameraState :=
  match m_videoWriters st !! camera with
  | Some w =>
      match saver_of s w, imgDimensions !! camera with
      | Some saver, Some _ =>
          let file := output_name camera s ++ std_string ".mp4" in
          let saver' := {| saveMode := saveMode saver; frame := frame saver;
                           writer := Some {| filename := file; isOpened := true |};
                           framesPath := framesPath saver |} in
          (true, with_files (<[file := VideoFile []]> (files st))
                   (store_saver camera s saver' st))
      | None, _ => (false, log_error (std_string "openVideoWriter: no image saver") st)
      | Some _, None =>
          (false, log_error (std_string "openVideoWriter: no dimension or writer") st)
      end
  | None => (false, log_error (std_string "openVideoWriter: no image saver") st)
  end.

(** [createFramesFolder]: [false] for a null saver; otherwise [framesPath] is
    set and the directory created. *)
Definition createFramesFolder (s : stream) (camera : name) (st : CameraState)
    : bool * CameraState :=
  match m_videoWriters st !! camera with
  | Some w =>
      match saver_of s w with
      | Some saver =>
          let saver' := {| saveMode := saveMode saver; frame := frame saver;
                           writer := writer saver;
                           framesPath := output_name camera s |} in
          (true, with_files (fs_create_directory (output_name camera s) (files st))
                   (store_saver camera s saver' st))
      | None => (false, log_error (std_string "createFramesFolder: no image saver") st)
      end
  | None => (false, log_error (std_string "createFramesFolder: no image saver") st)
  end.

(** [cv::VideoWriter::release]. *)
Definition release (w : cvVideoWriter) : cvVideoWriter :=
  {| filename := filename w; isOpened := false |}.

(** The lambda [saveVideo] of [saveCallback].  A [Video] saver whose [writer]
    is null cannot be released: the call does not return. *)
Definition saveVideo (fileName : name) (s : stream) (camera : name) (st : CameraState)
    : outcome (bool * CameraState) :=
  let '(st, w) := writers_at camera st in
  match saver_of s w with
  | None => Returned (false, log_error (std_string "saveVideo: no image") st)
  | Some saver =>
      let temp := fileName ++ std_string "_" ++ camera ++ std_string "_" ++ stream_name s in
      let oldName := output_name camera s in
      match saveMode saver with
      | Video =>
          match writer saver with
          | None => Thrown
          | Some cvw =>
              let saver' := {| saveMode := saveMode saver; frame := frame saver;
                               writer := Some (release cvw);
                               framesPath := framesPath saver |} in
              let st := store_saver camera s saver' st in
              match fs_rename (oldName ++ std_string ".mp4") (temp ++ std_string ".mp4")
                      (files st) with
              | Some f => Returned (true, with_files f st)
              | None => Thrown
              end
          end
      | Frame =>
          match fs_rename oldName temp (files st) with
          | Some f => Returned (true, with_files f st)
          | None => Thrown
          end
      end
  end.

(** The part of a loop body of [saveCallback] that follows the [continue]:
    a new encoder for a [Video] stream, a new frames folder otherwise.  The
    save mode is read through the saver pointer, which [saveVideo] has just
    found non-null; on a null pointer the read does not return. *)
Definition reopen (s : stream) (camera : name) (imgDimensions : gmap name (nat * nat))
    (st : CameraState) : outcome (bool * CameraState) :=
  let '(st, w) := writers_at camera st in
  match saver_of s w with
  | Some saver =>
      match saveMode saver with
      | Video =>
          let '(ok, st) := openVideoWriter s camera imgDimensions st in
          if ok then Returned (true, st)
          else Returned (false,
                 log_error (std_string "saveCallback: unable to open a video writer") st)
      | Frame =>
          let '(ok, st) := createFramesFolder s camera st in
          if ok then Returned (true, st)
          else Returned (false,
                 log_error (std_string "saveCallback: unable to create the folder") st)
      end
  | None => Thrown
  end.

(** Sequencing of steps that return [bool] and may throw: the next step runs
    only after [true]. *)
Definition and_then (r : outcome (bool * CameraState))
    (k : CameraState -> outcome (bool * CameraState)) : outcome (bool * CameraState) :=
  match r with
  | Returned (true, st) => k st
  | Returned (false, st) => Returned (false, st)
  | Thrown => Thrown
  end.

(** [saveVideo] with the error message of its caller. *)
Definition saveVideo_or_log (fileName : name) (s : stream) (camera : name)
    (st : CameraState) : outcome (bool * CameraState) :=
  match saveVideo fileName s camera st with
  | Returned (false, st) =>
      Returned (false, log_error (std_string "saveCallback: unable to save") st)
  | r => r
  end.

(** Body of the loop over [m_rgbCamerasList] (lines 1472-1508). *)
Definition rotate_rgb_camera (fileName : name) (method : SaveCallbackSaveMethod)
    (camera : name) (st : CameraState) : outcome (bool * CameraState) :=
  and_then (saveVideo_or_log fileName RGB camera st) (fun st =>
    match method with
    | periodic => reopen RGB camera (rgbImgDimensions st) st
    | last_call => Returned (true, st)
    end).

(** Body of the loop over [m_rgbdCamerasList] (lines 1510-1578). *)
Definition rotate_rgbd_camera (fileName : name) (method : SaveCallbackSaveMethod)
    (camera : name) (st : CameraState) : outcome (bool * CameraState) :=
  and_then (saveVideo_or_log fileName RGB camera st) (fun st =>
  and_then (saveVideo_or_log fileName Depth camera st) (fun st =>
    match method with
    | periodic =>
        and_then (reopen RGB camera (rgbdImgDimensions st) st) (fun st =>
          reopen Depth camera (rgbdImgDimensions st) st)
    | last_call => Returned (true, st)
    end)).

(** A range-for whose body leaves the function, by [return false] or by an
    exception, as soon as a step fails. *)
Fixpoint for_cameras (body : name -> CameraState -> outcome (bool * CameraState))
    (cameras : list name) (st : CameraState) : outcome (bool * CameraState) :=
  match cameras with
  | [] => Returned (true, st)
  | camera :: rest => and_then (body camera st) (for_cameras body rest)
  end.

(** Lines 1580-1608: the status file [fileName + ".md"]. *)
Definition write_status (fileName : name) (st : CameraState) : CameraState :=
  with_files (<[fileName ++ std_string ".md" := StatusFile]> (files st)) st.

(** [YarpRobotLoggerDevice::saveCallback]. *)
Definition saveCallback (fileName : name) (method : SaveCallbackSaveMethod)
    (st : CameraState) : outcome (bool * CameraState) :=
  and_then (for_cameras (rotate_rgb_camera fileName method) (m_rgbCamerasList st) st) (fun st =>
  and_then (for_cameras (rotate_rgbd_camera fileName method) (m_rgbdCamerasList st) st) (fun st =>
    Returned (true, write_status fileName st))).

(** *** The video worker *)

(** Calls of [recordVideo] on the mutexes, the logger and the buffer manager;
    [push_back(time.count(), time.count(), channel)] stores the reading of the
    clock both as value and as timestamp. *)
Inductive video_event :=
| VLogInfo (msg : name)
| VLock (m : mutex_id)
| VUnlock (m : mutex_id)
| VPushBack (channel : name) (value t : Z).

(** [std::to_string(imageIndex)]. *)
Definition to_string (n : Z) : name :=
  std_string (NilEmpty.string_of_uint (N.to_uint (Z.to_N n))).

(** [writer->write(image)]: a frame more in the file of an opened encoder;
    nothing happens on a released one. *)
Definition cv_write (w : cvVideoWriter) (image : Mat) (f : gmap name node)
    : gmap name node :=
  if isOpened w then
    match f !! filename w with
    | Some (VideoFile frames) => <[filename w := VideoFile (frames ++ [image])]> f
    | _ => f
    end
  else f.

(** [cv::imwrite(folder / file, image)]: the image file is created in the
    folder, replacing one of the same name; nothing is written when the
    folder does not exist. *)
Definition cv_imwrite (folder file : name) (image : Mat) (f : gmap name node)
    : gmap name node :=
  match f !! folder with
  | Some (Folder images) =>
      <[folder := Folder (filter (fun kv => kv.1 <> file) images ++ [(file, image)])]> f
  | _ => f
  end.

(** Lines 1105-1126 and 1145-1173: what is done with the image to save, which
    is the frame itself for the colour stream and its 8-bit or 16-bit
    conversion for the depth stream. *)
Definition save_frame (s : stream) (cameraName : name) (imageIndex time : Z)
    (saver : ImageSaver) (st : CameraState) : outcome (CameraState * list video_event) :=
  match saveMode saver with
  | Video =>
      let image := match s with RGB => frame saver | Depth => convertTo_8UC1 (frame saver) end in
      match writer saver with
      | Some w =>
          Returned (with_files (cv_write w image (files st)) st,
                    [VLock (ImageSaverMutex cameraName (stream_name s));
                     VUnlock (ImageSaverMutex cameraName (stream_name s))])
      | None => Thrown
      end
  | Frame =>
      let image := match s with RGB => frame saver | Depth => convertTo_16UC1 (frame saver) end in
      let file := std_string "img_" ++ to_string imageIndex ++ std_string ".png" in
      Returned (with_files (cv_imwrite (framesPath saver) file image (files st)) st,
                [VLock BufferManagerMutex;
                 VPushBack (std_string "camera::" ++ cameraName ++ std_string "::"
                              ++ stream_name s) time time;
                 VUnlock BufferManagerMutex])
  end.

(** Lines 1094-1127 ([RGB]) and 1129-1174 ([Depth]) for one stream.  [got] is
    the image the camera bridge delivers, [None] when the getter fails and
    the frame of the previous iteration is kept. *)
Definition record_stream (s : stream) (cameraName : name) (imageIndex time : Z)
    (got : option Mat) (st : CameraState) : outcome (CameraState * list video_event) :=
  match m_videoWriters st !! cameraName with
  | None => Returned (st, [])
  | Some w =>
      match saver_of s w with
      | None => Returned (st, [])
      | Some saver =>
          let frame' :=
            match got, s with
            | Some image, RGB => image
            | Some image, Depth => mat_scale image (depthScale w)
            | None, _ => frame saver
            end in
          let info :=
            match got with
            | Some _ => []
            | None => [VLogInfo (std_string "recordVideo: unable to get the frame")]
            end in
          let saver' := {| saveMode := saveMode saver; frame := frame';
                           writer := writer saver; framesPath := framesPath saver |} in
          match save_frame s cameraName imageIndex time saver'
                  (store_saver cameraName s saver' st) with
          | Returned (st', evs) => Returned (st', info ++ evs)
          | Thrown => Thrown
          end
      end
  end.

(** The loop variables of [recordVideo]. *)
Record video_loop := {
  clocks : Schedule.clocks;
  imageIndex : Z
}.

(** One iteration of the [while] loop of [recordVideo] for the camera
    [cameraName]: [now] is the reading of the clock at line 1085, [color] and
    [depthImage] what [getColorImage] and [getDepthImage] deliver.
    [imageIndex] is an [unsigned int]. *)
Definition recordVideo_iteration (recordVideoPeriod : Z) (cameraName : name)
    (now : Z) (color depthImage : option Mat) (l : video_loop) (st : CameraState)
    : outcome (video_loop * CameraState * list video_event) :=
  let c := Schedule.recordVideo_tick recordVideoPeriod (clocks l) now in
  let time := Schedule.time c in
  match record_stream RGB cameraName (imageIndex l) time color st with
  | Thrown => Thrown
  | Returned (st, evs_rgb) =>
      match record_stream Depth cameraName (imageIndex l) time depthImage st with
      | Thrown => Thrown
      | Returned (st, evs_depth) =>
          Returned ({| clocks := c; imageIndex := (imageIndex l + 1) mod 2 ^ 32 |},
                    st, evs_rgb ++ evs_depth)
      end
  end.

(** *** Configuration: [open] *)

(** Which of the two camera lists [populateCamerasData] is called on; the
    lambda tells them apart by the address of its argument. *)
Inductive camera_kind := RGBCameras | RGBDCameras.

(** [m_cameraBridge->getMetaData()]: [bridgeOptions] and [sensorsList]. *)
Record CameraMetaData := {
  isRGBCameraEnabled : bool;
  isRGBDCameraEnabled : bool;
  rgbCamerasList : list name;
  rgbdCamerasList : list name
}.

(** One group of [vectors_collection_exogenous_inputs] or
    [vectors_exogenous_inputs], and whether its port opens. *)
Record ExogenousInput := {
  local : option name;
  remote : option name;
  carrier : option name;
  signal_name : option name;
  port_open : bool
}.

(** The configuration [open] receives.  A parameter or group that is absent
    is [None]; [initialize] and [configure] are the answers of the sensor
    bridge, the camera bridge and the buffer manager. *)
Record Parameters := {
  RobotSensorBridge : option bool;
  RobotCameraBridge : option (option CameraMetaData);
  rgb_cameras_fps : option (list Z);
  rgbd_cameras_fps : option (list Z);
  rgbd_cameras_depth_scale : option (list Z);
  rgb_cameras_rgb_save_mode : option (list name);
  rgbd_cameras_rgb_save_mode : option (list name);
  rgbd_cameras_depth_save_mode : option (list name);
  video_codec_code : option name;
  Telemetry : option (option Q * bool);
  ExogenousSignals :
    option (option (list (option ExogenousInput)) * option (list (option ExogenousInput)))
}.

(** The members [open] works on; [workers] are the threads started so far
    ([attachAll] starts them). *)
Record Device := {
  cameras : CameraState;
  m_videoCodecCode : name;
  workers : list name
}.

Definition with_cameras (c : CameraState) (d : Device) : Device :=
  {| cameras := c; m_videoCodecCode := m_videoCodecCode d; workers := workers d |}.

(** [setupRobotSensorBridge]: the group must exist and the bridge initialise;
    the [stream_*] flags are optional. *)
Definition setupRobotSensorBridge (p : Parameters) : bool :=
  match RobotSensorBridge p with
  | Some initialize => initialize
  | None => false
  end.

(** [setupRobotCameraBridge]: the meta data of the bridge when the group
    exists and the bridge initialises. *)
Definition setupRobotCameraBridge (p : Parameters) : option CameraMetaData :=
  match RobotCameraBridge p with
  | Some (Some md) => Some md
  | _ => None
  end.

(** [setupTelemetry]: the group and its [save_period] must exist, then the
    answer of [m_bufferManager.configure]. *)
Definition setupTelemetry (p : Parameters) : bool :=
  match Telemetry p with
  | Some (Some _, configure) => configure
  | _ => false
  end.

(** One of the two loops of [setupExogenousInputs]. *)
Definition setup_inputs (inputs : list (option ExogenousInput)) : bool :=
  forallb (fun g =>
    match g with
    | Some i =>
        bool_decide (is_Some (local i)) && bool_decide (is_Some (remote i))
        && bool_decide (is_Some (carrier i)) && bool_decide (is_Some (signal_name i))
        && port_open i
    | None => false
    end) inputs.

(** [setupExogenousInputs]: nothing to do without the group; otherwise both
    lists must be given and every input be complete and open its port. *)
Definition setupExogenousInputs (p : Parameters) : bool :=
  match ExogenousSignals p with
  | None => true
  | Some (Some collections, Some vectors) => setup_inputs collections && setup_inputs vectors
  | Some _ => false
  end.

(** The lambda [createImageSaver]. *)
Definition createImageSaver (mode : name) : option ImageSaver :=
  if decide (mode = std_string "frame") then
    Some {| saveMode := Frame; frame := mat_empty; writer := None; framesPath := [] |}
  else if decide (mode = std_string "video") then
    Some {| saveMode := Video; frame := mat_empty; writer := None; framesPath := [] |}
  else None.

Definition set_fps (x : Z) (w : VideoWriter) : VideoWriter :=
  {| rgb := rgb w; depth := depth w; fps := x; depthScale := depthScale w |}.
Definition set_depthScale (x : Z) (w : VideoWriter) : VideoWriter :=
  {| rgb := rgb w; depth := depth w; fps := fps w; depthScale := x |}.
Definition set_rgb (i : option ImageSaver) (w : VideoWriter) : VideoWriter :=
  {| rgb := i; depth := depth w; fps := fps w; depthScale := depthScale w |}.
Definition set_depth (i : option ImageSaver) (w : VideoWriter) : VideoWriter :=
  {| rgb := rgb w; depth := i; fps := fps w; depthScale := depthScale w |}.

(** [m_videoWriters[camera].member = value]. *)
Definition assign (camera : name) (f : VideoWriter -> VideoWriter) (st : CameraState)
    : CameraState :=
  let '(st, w) := writers_at camera st in
  with_writers (<[camera := f w]> (m_videoWriters st)) st.

(** [createImageSaver] reports a mode that is neither "frame" nor "video". *)
Definition log_unless_saver (i : option ImageSaver) (st : CameraState) : CameraState :=
  match i with
  | Some _ => st
  | None => log_error (std_string "open: the save mode is neither 'frame' nor 'video'") st
  end.

(** The [for] loop of [populateCamerasData] (lines 250-287), from index [i]
    for [n] more rounds.  The vectors have been checked to be as long as
    [fps], so every index is in range. *)
Fixpoint populate_loop (kind : camera_kind) (n i : nat) (fps depthScale : list Z)
    (rgbSaveMode depthSaveMode cameraNames : list name) (ok : bool) (st : CameraState)
    : bool * CameraState :=
  match n with
  | 0 => (ok, st)
  | S n' =>
      if decide (fps !!! i <= 0)%Z then
        (false, log_error (std_string "open: the FPS is negative or equal to zero") st)
      else
        let camera := cameraNames !!! i in
        let st := assign camera (set_fps (fps !!! i)) st in
        let rgbSaver := createImageSaver (rgbSaveMode !!! i) in
        match kind with
        | RGBCameras =>
            let st := assign camera (set_rgb rgbSaver) (log_unless_saver rgbSaver st) in
            populate_loop kind n' (S i) fps depthScale rgbSaveMode depthSaveMode cameraNames
              (ok && bool_decide (is_Some rgbSaver)) st
        | RGBDCameras =>
            let depthSaver := createImageSaver (depthSaveMode !!! i) in
            let st := assign camera (set_rgb rgbSaver) (log_unless_saver rgbSaver st) in
            let st := assign camera (set_depth depthSaver) (log_unless_saver depthSaver st) in
            let st := assign camera (set_depthScale (depthScale !!! i)) st in
            populate_loop kind n' (S i) fps depthScale rgbSaveMode depthSaveMode cameraNames
              (ok && bool_decide (is_Some rgbSaver) && bool_decide (is_Some depthSaver)) st
        end
  end.

(** The lambda [populateCamerasData] (lines 139-290). *)
Definition populateCamerasData (p : Parameters) (kind : camera_kind)
    (cameraNames : list name) (st : CameraState) : bool * CameraState :=
  let missing := (false, log_error (std_string "open: unable to find the parameter") st) in
  let mismatch := (false, log_error (std_string "open: mismatch between the sizes") st) in
  match (match kind with RGBCameras => rgb_cameras_fps p | RGBDCameras => rgbd_cameras_fps p end)
  with
  | None => missing
  | Some fps =>
      match kind with
      | RGBDCameras =>
          match rgbd_cameras_depth_scale p, rgbd_cameras_rgb_save_mode p,
                rgbd_cameras_depth_save_mode p with
          | Some depthScale, Some rgbSaveMode, Some depthSaveMode =>
              if bool_decide (length fps <> length depthScale)
                 || bool_decide (length fps <> length rgbSaveMode)
                 || bool_decide (length fps <> length depthSaveMode) then mismatch
              else if bool_decide (length fps <> length rgbSaveMode) then mismatch
              else if bool_decide (length fps <> length cameraNames) then mismatch
              else populate_loop kind (length fps) 0 fps depthScale rgbSaveMode depthSaveMode
                     cameraNames true st
          | _, _, _ => missing
          end
      | RGBCameras =>
          match rgb_cameras_rgb_save_mode p with
          | Some rgbSaveMode =>
              if bool_decide (length fps <> length rgbSaveMode) then mismatch
              else if bool_decide (length fps <> length cameraNames) then mismatch
              else populate_loop kind (length fps) 0 fps [] rgbSaveMode [] cameraNames true st
          | None => missing
          end
      end
  end.

(** Lines 292-312: the cameras of an enabled kind are populated. *)
Definition populate_enabled (p : Parameters) (kind : camera_kind) (enabled : bool)
    (cameraNames : list name) (st : CameraState) : bool * CameraState :=
  if enabled then
    let '(ok, st) := populateCamerasData p kind cameraNames st in
    if ok then (true, st)
    else (false, log_error (std_string "open: unable to populate the camera fps") st)
  else (true, st).

(** Lines 342-352: the end of [open]. *)
Definition open_telemetry (p : Parameters) (d : Device) : bool * Device :=
  if setupTelemetry p then (setupExogenousInputs p, d) else (false, d).

(** [YarpRobotLoggerDevice::open]. *)
Definition open (p : Parameters) (d : Device) : bool * Device :=
  if setupRobotSensorBridge p then
    match setupRobotCameraBridge p with
    | Some md =>
        let '(ok, st) :=
          populate_enabled p RGBCameras (isRGBCameraEnabled md) (rgbCamerasList md) (cameras d) in
        if ok then
          let '(ok, st) :=
            populate_enabled p RGBDCameras (isRGBDCameraEnabled md) (rgbdCamerasList md) st in
          if ok then
            if isRGBDCameraEnabled md || isRGBCameraEnabled md then
              match video_codec_code p with
              | None => open_telemetry p (with_cameras st d)
              | Some code =>
                  let d := {| cameras := st; m_videoCodecCode := code; workers := workers d |} in
                  if decide (length code <> 4) then
                    (false,
                     with_cameras
                       (log_error (std_string "open: 'video_codec_code' must have 4 characters")
                          st) d)
                  else open_telemetry p d
              end
            else open_telemetry p (with_cameras st d)
          else (false, with_cameras st d)
        else (false, with_cameras st d)
    | None => open_telemetry p d
    end
  else (false, d).

(** A step that fails says so in the log; a step that succeeds logs nothing. *)
Definition reported (b : bool) (st st' : CameraState) : Prop :=
  if b then errors st' = errors st
  else exists msgs, msgs <> [] /\ errors st' = errors st ++ msgs.

End Cameras.

Arguments node : clear implicits.
Arguments ImageSaver : clear implicits.
Arguments VideoWriter : clear implicits.
Arguments CameraState : clear implicits.
Arguments Device : clear implicits.

(** *** Sample cameras

    Images are lists of pixel values; the conversions saturate to the range
    of the target type. *)
Module CameraSamples.

Definition saturate (hi : Z) (x : Z) : Z := Z.max 0 (Z.min hi x).

#[global] Instance pixels : MatOps (list Z) :=
  {| mat_empty := [];
     mat_scale m s := (fun x => x * s)%Z <$> m;
     convertTo_8UC1 m := saturate 255 <$> m;
     convertTo_16UC1 m := saturate 65535 <$> m |}.

Definition video_saver (file : string) : ImageSaver (list Z) :=
  {| saveMode := Video; frame := [];
     writer := Some {| filename := std_string file; isOpened := true |};
     framesPath := [] |}.

Definition frame_saver (folder : string) : ImageSaver (list Z) :=
  {| saveMode := Frame; frame := []; writer := None; framesPath := std_string folder |}.

(** Two RGB cameras recorded as videos; the camera bridge knows the image
    dimensions of the second one only. *)
Definition two_videos : CameraState (list Z) :=
  {| m_videoWriters :=
       {[ std_string "cam1" :=
            {| rgb := Some (video_saver "output_cam1_rgb.mp4"); depth := None;
               fps := 30%Z; depthScale := 1%Z |};
          std_string "cam2" :=
            {| rgb := Some (video_saver "output_cam2_rgb.mp4"); depth := None;
               fps := 30%Z; depthScale := 1%Z |} ]};
     m_rgbCamerasList := [std_string "cam1"; std_string "cam2"];
     m_rgbdCamerasList := [];
     rgbImgDimensions := {[ std_string "cam2" := (640, 480) ]};
     rgbdImgDimensions := ∅;
     files := {[ std_string "output_cam1_rgb.mp4" := VideoFile [[1%Z]];
                 std_string "output_cam2_rgb.mp4" := VideoFile [[2%Z]] ]};
     errors := [] |}.

(** The same cameras after the file of the first one has disappeared. *)
Definition lost_file : CameraState (list Z) :=
  with_files (delete (std_string "output_cam1_rgb.mp4") (files two_videos)) two_videos.

(** One RGB camera saved frame by frame, with one image in its folder. *)
Definition one_frame_camera : CameraState (list Z) :=
  {| m_videoWriters :=
       {[ std_string "cam" :=
            {| rgb := Some (frame_saver "output_cam_rgb"); depth := None;
               fps := 30%Z; depthScale := 1%Z |} ]};
     m_rgbCamerasList := [std_string "cam"];
     m_rgbdCamerasList := [];
     rgbImgDimensions := {[ std_string "cam" := (640, 480) ]};
     rgbdImgDimensions := ∅;
     files := {[ std_string "output_cam_rgb" := Folder [(std_string "img_0.png", [7%Z])] ]};
     errors := [] |}.

(** The same camera when the folder of an earlier rotation with the same
    prefix is still there, with an image in it: the prefix is the time in
    seconds, so two rotations within one second share it. *)
Definition taken_prefix : CameraState (list Z) :=
  with_files (<[std_string "run1_cam_rgb" := Folder [(std_string "img_9.png", [9%Z])]]>
                (files one_frame_camera)) one_frame_camera.

(** One RGBD camera: colour as a video, depth scaled by 1000, as a video or
    frame by frame. *)
Definition rgbd_camera (depthMode : SaveMode) : CameraState (list Z) :=
  {| m_videoWriters :=
       {[ std_string "d435" :=
            {| rgb := Some (video_saver "output_d435_rgb.mp4");
               depth := Some
                 match depthMode with
                 | Video => video_saver "output_d435_depth.mp4"
                 | Frame => frame_saver "output_d435_depth"
                 end;
               fps := 30%Z; depthScale := 1000%Z |} ]};
     m_rgbCamerasList := [];
     m_rgbdCamerasList := [std_string "d435"];
     rgbImgDimensions := ∅;
     rgbdImgDimensions := {[ std_string "d435" := (640, 480) ]};
     files := {[ std_string "output_d435_rgb.mp4" := VideoFile [];
                 std_string "output_d435_depth.mp4" := VideoFile [];
                 std_string "output_d435_depth" := Folder [] ]};
     errors := [] |}.

End CameraSamples.

(** *** Sample configurations for [open] *)
Module OpenSamples.

(** A device just constructed: no camera, the default codec, no worker. *)
Definition fresh : Device (list Z) :=
  {| cameras :=
       {| m_videoWriters := ∅; m_rgbCamerasList := []; m_rgbdCamerasList := [];
          rgbImgDimensions := ∅; rgbdImgDimensions := ∅; files := ∅; errors := [] |};
     m_videoCodecCode := std_string "mp4v";
     workers := [] |}.

(** The configuration of a logger without cameras that nevertheless carries
    a frame rate of zero and a codec of three characters. *)
Definition without_cameras (bridge : option (option CameraMetaData)) : Parameters :=
  {| RobotSensorBridge := Some true;
     RobotCameraBridge := bridge;
     rgb_cameras_fps := Some [0%Z];
     rgbd_cameras_fps := Some [(-5)%Z];
     rgbd_cameras_depth_scale := Some [1000%Z];
     rgb_cameras_rgb_save_mode := Some [std_string "video"];
     rgbd_cameras_rgb_save_mode := Some [std_string "video"];
     rgbd_cameras_depth_save_mode := Some [std_string "frame"];
     video_codec_code := Some (std_string "abc");
     Telemetry := Some (Some (600 # 1), true);
     ExogenousSignals := None |}.

(** A camera bridge that initialises with both kinds of cameras disabled. *)
Definition disabled : CameraMetaData :=
  {| isRGBCameraEnabled := false; isRGBDCameraEnabled := false;
     rgbCamerasList := []; rgbdCamerasList := [] |}.

(** One RGB camera at 30 fps and one at 0 fps. *)
Definition one_stopped_camera : Parameters :=
  {| RobotSensorBridge := Some true;
     RobotCameraBridge :=
       Some (Some {| isRGBCameraEnabled := true; isRGBDCameraEnabled := false;
                     rgbCamerasList := [std_string "left"; std_string "right"];
                     rgbdCamerasList := [] |});
     rgb_cameras_fps := Some [30; 0]%Z;
     rgbd_cameras_fps := None;
     rgbd_cameras_depth_scale := None;
     rgb_cameras_rgb_save_mode := Some [std_string "video"; std_string "frame"];
     rgbd_cameras_rgb_save_mode := None;
     rgbd_cameras_depth_save_mode := None;
     video_codec_code := Some (std_string "mp4v");
     Telemetry := Some (Some (600 # 1), true);
     ExogenousSignals := None |}.

End OpenSamples.

(** ** Discovery workers

    The bodies of the loops of [lookForNewLogs] and [lookForExogenousSignals]
    below the wake-up schedule.  The network is represented by its answers
    during one iteration: the list of ports of [getPortsList], and the
    results of [Network::exists] and of the connection attempts. *)
Module Discovery.

(** [hasSubstring]: some element of [substrings] is found in [str]. *)
Definition hasSubstring (str : name) (substrings : list name) : bool :=
  existsb (fun substring => bool_decide (is_Some (StdString.find str substring 0))) substrings.

(** [constexpr auto textLoggingPortPrefix = "/log/";] *)
Definition textLoggingPortPrefix : name := std_string "/log/".

(** The condition of lines 1049-1053.  [port.name.rfind(prefix, 0) == 0]
    looks for the prefix at position 0 only, that is, asks whether the name
    starts with it. *)
Definition is_new_log_port (m_textLoggingSubnames : list name) (exists_ : name -> bool)
    (m_textLoggingPortNames : gset name) (port : name) : bool :=
  StdString.starts_with textLoggingPortPrefix port
  && bool_decide (port ∉ m_textLoggingPortNames)
  && (bool_decide (m_textLoggingSubnames = []) || hasSubstring port m_textLoggingSubnames)
  && exists_ port.

(** The [for] loop over [yarpPorts] (lines 1045-1058): the names recorded in
    [m_textLoggingPortNames] and, in order, the ports on which
    [Network::connect] is called.  The result of [connect] is not looked at. *)
Fixpoint connect_new_logs (m_textLoggingSubnames : list name) (exists_ : name -> bool)
    (yarpPorts : list name) (m_textLoggingPortNames : gset name)
    : gset name * list name :=
  match yarpPorts with
  | [] => (m_textLoggingPortNames, [])
  | port :: rest =>
      if is_new_log_port m_textLoggingSubnames exists_ m_textLoggingPortNames port then
        let '(names, connected) :=
          connect_new_logs m_textLoggingSubnames exists_ rest
            ({[port]} ∪ m_textLoggingPortNames) in
        (names, port :: connected)
      else connect_new_logs m_textLoggingSubnames exists_ rest m_textLoggingPortNames
  end.

(** What the network answers during one iteration of [lookForNewLogs]. *)
Record LogNetwork := {
  log_now : Z;
  getPortsList : list name;
  log_exists : name -> bool
}.

(** The loop variables and the member [lookForNewLogs] writes. *)
Record LogWorker := {
  log_clocks : Schedule.clocks;
  m_textLoggingPortNames : gset name
}.

(** One iteration of the [while] loop of [lookForNewLogs] (lines 1031-1065). *)
Definition lookForNewLogs_iteration (m_textLoggingSubnames : list name) (net : LogNetwork)
    (w : LogWorker) : LogWorker * list name :=
  let c := Schedule.lookForNewLogs_tick (log_clocks w) (log_now net) in
  let '(names, connected) :=
    connect_new_logs m_textLoggingSubnames (log_exists net) (getPortsList net)
      (m_textLoggingPortNames w) in
  ({| log_clocks := c; m_textLoggingPortNames := names |}, connected).

(** Successive iterations, one network answer each. *)
Fixpoint lookForNewLogs_iterations (m_textLoggingSubnames : list name)
    (nets : list LogNetwork) (w : LogWorker) : LogWorker * list (list name) :=
  match nets with
  | [] => (w, [])
  | net :: rest =>
      let '(w', connected) := lookForNewLogs_iteration m_textLoggingSubnames net w in
      let '(w'', later) := lookForNewLogs_iterations m_textLoggingSubnames rest w' in
      (w'', connected :: later)
  end.

(** The lambda [connectToExogeneous] (lines 970-979) on the entries of one
    signal map, each given by its key and its [connected] member: an entry
    that is not connected and whose port exists gets the result of
    [signal.connect()].  The second component lists the attempts. *)
Fixpoint connectToExogeneous (exists_ connect : name -> bool)
    (signals : list (name * bool)) : list (name * bool) * list name :=
  match signals with
  | [] => ([], [])
  | (remote, connected) :: rest =>
      let '(rest', attempts) := connectToExogeneous exists_ connect rest in
      if negb connected && exists_ remote
      then ((remote, connect remote) :: rest', remote :: attempts)
      else ((remote, connected) :: rest', attempts)
  end.

(** What the network answers during one iteration of
    [lookForExogenousSignals]. *)
Record SignalNetwork := {
  signal_now : Z;
  signal_exists : name -> bool;
  signal_connect : name -> bool
}.

(** The loop variables and the [connected] members of the two signal maps. *)
Record SignalWorker := {
  signal_clocks : Schedule.clocks;
  collections_connected : list (name * bool);
  vectors_connected : list (name * bool)
}.

(** One iteration of the [while] loop of [lookForExogenousSignals]
    (lines 981-1003): the attempts on [m_vectorsCollectionSignals], then the
    attempts on [m_vectorSignals]. *)
Definition lookForExogenousSignals_iteration (net : SignalNetwork) (w : SignalWorker)
    : SignalWorker * list name :=
  let c := Schedule.lookForExogenousSignals_tick (signal_clocks w) (signal_now net) in
  let '(collections, attempts) :=
    connectToExogeneous (signal_exists net) (signal_connect net) (collections_connected w) in
  let '(vectors, attempts') :=
    connectToExogeneous (signal_exists net) (signal_connect net) (vectors_connected w) in
  ({| signal_clocks := c; collections_connected := collections;
      vectors_connected := vectors |},
   attempts ++ attempts').

(** Successive iterations, one network answer each. *)
Fixpoint lookForExogenousSignals_iterations (nets : list SignalNetwork) (w : SignalWorker)
    : SignalWorker * list (list name) :=
  match nets with
  | [] => (w, [])
  | net :: rest =>
      let '(w', attempts) := lookForExogenousSignals_iteration net w in
      let '(w'', later) := lookForExogenousSignals_iterations rest w' in
      (w'', attempts :: later)
  end.

End Discovery.

(** The loop variables after the iterations that read [nows]. *)
Definition clocks_after (period : Z) (c : Schedule.clocks) (nows : list Z) : Schedule.clocks :=
  fold_left (Schedule.tick period) nows c.



(** ** Reading traces of the tick, and ticks in sequence *)
Section TickTraces.

Context {scalar : Type}.

(** The channels created in a trace, in order. *)
Definition added_channels (evs : list (event scalar)) : list name :=
  omap (fun e => match e with EvAddChannel channel _ _ => Some channel | _ => None end) evs.

(** The channels samples are appended to in a trace, in order. *)
Definition pushed_channels (evs : list (event scalar)) : list name :=
  omap (fun e => match e with EvPushBack channel _ _ => Some channel | _ => None end) evs.

(** What successive ticks do with one entry of [m_vectorSignals]: each tick
    comes with the answers of the ports and its timestamp. *)
Fixpoint collect_vector_ticks (ticks : list (ExogenousPorts scalar * Z))
    (entry : name * ExogenousSignal) : (name * ExogenousSignal) * list (event scalar) :=
  match ticks with
  | [] => (entry, [])
  | (ports, time) :: rest =>
      let '(entry', evs) := collect_vector ports time entry in
      let '(entry'', evs') := collect_vector_ticks rest entry' in
      (entry'', evs ++ evs')
  end.

(** The same for one entry of [m_vectorsCollectionSignals]. *)
Fixpoint collect_collection_ticks (ticks : list (ExogenousPorts scalar * Z))
    (entry : name * ExogenousSignal) : (name * ExogenousSignal) * list (event scalar) :=
  match ticks with
  | [] => (entry, [])
  | (ports, time) :: rest =>
      let '(entry', evs) := collect_collection ports time entry in
      let '(entry'', evs') := collect_collection_ticks rest entry' in
      (entry'', evs ++ evs')
  end.

End TickTraces.


(** ** The video worker over several iterations *)
Section VideoRuns.

Context {Mat : Type} `{MatOps Mat}.

(** What the camera bridge and the clock deliver during one iteration of
    [recordVideo]: the reading of the clock, the colour image and the depth
    image ([None] when the getter fails). *)
Definition video_input : Type := Z * option Mat * option Mat.

(** Successive iterations of the [while] loop of [recordVideo], as long as
    [recordVideoIsRunning] stays set. *)
Fixpoint recordVideo_iterations (recordVideoPeriod : Z) (cameraName : name)
    (inputs : list video_input) (l : video_loop) (st : CameraState Mat)
    : outcome (video_loop * CameraState Mat * list video_event) :=
  match inputs with
  | [] => Returned (l, st, [])
  | (now, color, depthImage) :: rest =>
      match recordVideo_iteration recordVideoPeriod cameraName now color depthImage l st with
      | Thrown => Thrown
      | Returned (l', st', evs) =>
          match recordVideo_iterations recordVideoPeriod cameraName rest l' st' with
          | Thrown => Thrown
          | Returned (l'', st'', evs') => Returned (l'', st'', evs ++ evs')
          end
      end
  end.

(** The frame markers appended to the buffer manager in a trace: channel and
    timestamp. *)
Definition markers (evs : list video_event) : list (name * Z) :=
  omap (fun e => match e with VPushBack channel _ t => Some (channel, t) | _ => None end) evs.

(** The name of the image file written for an index. *)
Definition image_file (imageIndex : Z) : name :=
  std_string "img_" ++ to_string imageIndex ++ std_string ".png".

(** The content of a saver's [frame] after each of successive calls of the
    getter on it: the image delivered, or what the member held before when
    the getter fails. *)
Fixpoint kept_frames (frame : Mat) (got : list (option Mat)) : list Mat :=
  match got with
  | [] => []
  | g :: rest =>
      let frame' := match g with Some image => image | None => frame end in
      frame' :: kept_frames frame' rest
  end.

End VideoRuns.


(** The names [saveCallback] works with: the provisional name of the video
    of a stream, and the names its frames folder and its video get in a
    rotation. *)
Definition video_file (camera : name) (s : stream) : name :=
  output_name camera s ++ std_string ".mp4".

Definition rotated_folder (fileName camera : name) (s : stream) : name :=
  fileName ++ std_string "_" ++ camera ++ std_string "_" ++ stream_name s.

Definition rotated_video (fileName camera : name) (s : stream) : name :=
  rotated_folder fileName camera s ++ std_string ".mp4".

(** The status file written at the end of [saveCallback]. *)
Definition status_file (fileName : name) : name := fileName ++ std_string ".md".

(** ** The streams of a rotation *)

(** The streams [saveCallback] handles, in the order of its two loops: the
    colour stream of every camera of [m_rgbCamerasList], then the colour and
    the depth stream of every camera of [m_rgbdCamerasList]. *)
Definition rotation_streams {Mat : Type} (st : CameraState Mat) : list (name * stream) :=
  flat_map (fun camera => [(camera, RGB)]) (m_rgbCamerasList st)
  ++ flat_map (fun camera => [(camera, RGB); (camera, Depth)]) (m_rgbdCamerasList st).

(** The paths the rotation of a stream works on: the provisional names of
    its frames folder and of its video, and the names they get. *)
Definition rotation_paths (fileName : name) (cs : name * stream) : list name :=
  [output_name cs.1 cs.2; video_file cs.1 cs.2;
   rotated_folder fileName cs.1 cs.2; rotated_video fileName cs.1 cs.2].

#[global] Instance stream_eq_dec : EqDecision stream := ltac:(solve_decision).

(** A rotation seen from the stream [s] of [camera], saved frame by frame. *)
Section RotationView.

Context {Mat : Type}.
Variables (fileName camera : name) (s : stream).

(** The saver of the stream: [None] without an entry for the camera,
    [Some None] for a null pointer. *)
Definition saver_seen (st : CameraState Mat) : option (option (ImageSaver Mat)) :=
  saver_of s <$> (m_videoWriters st !! camera).

(** A step has changed nothing the stream looks at: its frames folder, the
    name the rotation gives to it, and its saver. *)
Definition untouched (st st' : CameraState Mat) : Prop :=
  files st' !! output_name camera s = files st !! output_name camera s
  /\ files st' !! rotated_folder fileName camera s
     = files st !! rotated_folder fileName camera s
  /\ saver_seen st' = saver_seen st.

(** The paths of another stream are not the two folder names of this one. *)
Definition apart (cs : name * stream) : Prop :=
  (output_name camera s ∉ rotation_paths fileName cs)
  /\ (rotated_folder fileName camera s ∉ rotation_paths fileName cs).

Variables (images : list (name * Mat)) (encoder : option cvVideoWriter)
  (before : option (node Mat)).

(** The rotation has not reached the stream: its folder holds [images], and
    [before] is what lies under the name the rotation will give to it. *)
Definition waiting (st : CameraState Mat) : Prop :=
  files st !! output_name camera s = Some (Folder images)
  /\ files st !! rotated_folder fileName camera s = before
  /\ exists saver, saver_seen st = Some (Some saver)
                   /\ saveMode saver = Frame /\ writer saver = encoder.

(** The rotation has moved the folder of the stream; [left] is what lies
    under the provisional name.  The move has found the new name free or
    held by an empty folder. *)
Definition moved (left : option (node Mat)) (st : CameraState Mat) : Prop :=
  files st !! output_name camera s = left
  /\ files st !! rotated_folder fileName camera s = Some (Folder images)
  /\ (before = None \/ before = Some (Folder []))
  /\ exists saver, saver_seen st = Some (Some saver)
                   /\ saveMode saver = Frame /\ writer saver = encoder.

End RotationView.

(** What a rotation leaves under the provisional name of a frames folder: a
    new, empty folder after a periodic event, nothing after the last one. *)
Definition left_behind {Mat : Type} (method : SaveCallbackSaveMethod) : option (node Mat) :=
  match method with
  | periodic => Some (Folder [])
  | last_call => None
  end.


(** ** What a successful configuration leaves for a camera *)
Section Configured.

Context {Mat : Type} `{MatOps Mat}.

(** The entry of the video writers that the round of index [j] of the loop
    of [populateCamerasData] writes (lines 262-285). *)
Definition configured (kind : camera_kind) (rates scales : list Z)
    (rgbSaveMode depthSaveMode : list name) (j : nat) (w : VideoWriter Mat) : Prop :=
  fps w = rates !!! j /\ (0 < fps w)%Z
  /\ rgb w = createImageSaver (rgbSaveMode !!! j) /\ is_Some (rgb w)
  /\ match kind with
     | RGBCameras => True
     | RGBDCameras =>
         depthScale w = scales !!! j
         /\ depth w = createImageSaver (depthSaveMode !!! j) /\ is_Some (depth w)
     end.

End Configured.

(** *** A sample camera for the video worker *)
Module VideoSamples.

(** One RGB camera saved frame by frame whose frames folder has just been
    created. *)
Definition empty_folder : CameraState (list Z) :=
  with_files {[ std_string "output_cam_rgb" := Folder [] ]} CameraSamples.one_frame_camera.

(** Three iterations of the video worker; the camera delivers no image in
    the second. *)
Definition three_iterations : list (@video_input (list Z)) :=
  [(10, Some [1], None); (20, None, None); (30, Some [3], None)]%Z.

End VideoSamples.




(** *** Sample configurations of the cameras *)
Module ConfigSamples.

(** Two RGB cameras: "left" at 30 fps saved as a video, "right" at 15 fps
    saved frame by frame. *)
Definition two_cameras : Parameters :=
  {| RobotSensorBridge := Some true;
     RobotCameraBridge :=
       Some (Some {| isRGBCameraEnabled := true; isRGBDCameraEnabled := false;
                     rgbCamerasList := [std_string "left"; std_string "right"];
                     rgbdCamerasList := [] |});
     rgb_cameras_fps := Some [30; 15]%Z;
     rgbd_cameras_fps := None;
     rgbd_cameras_depth_scale := None;
     rgb_cameras_rgb_save_mode := Some [std_string "video"; std_string "frame"];
     rgbd_cameras_rgb_save_mode := None;
     rgbd_cameras_depth_save_mode := None;
     video_codec_code := Some (std_string "avc1");
     Telemetry := Some (Some (600 # 1), true);
     ExogenousSignals := None |}.

(** The same with the save mode "images" for the second camera. *)
Definition unknown_mode : Parameters :=
  {| RobotSensorBridge := Some true;
     RobotCameraBridge := RobotCameraBridge two_cameras;
     rgb_cameras_fps := Some [30; 15]%Z;
     rgbd_cameras_fps := None;
     rgbd_cameras_depth_scale := None;
     rgb_cameras_rgb_save_mode := Some [std_string "video"; std_string "images"];
     rgbd_cameras_rgb_save_mode := None;
     rgbd_cameras_depth_save_mode := None;
     video_codec_code := Some (std_string "avc1");
     Telemetry := Some (Some (600 # 1), true);
     ExogenousSignals := None |}.

(** The same with one frame rate for the two cameras. *)
Definition one_rate : Parameters :=
  {| RobotSensorBridge := Some true;
     RobotCameraBridge := RobotCameraBridge two_cameras;
     rgb_cameras_fps := Some [30]%Z;
     rgbd_cameras_fps := None;
     rgbd_cameras_depth_scale := None;
     rgb_cameras_rgb_save_mode := Some [std_string "video"];
     rgbd_cameras_rgb_save_mode := None;
     rgbd_cameras_depth_save_mode := None;
     video_codec_code := Some (std_string "avc1");
     Telemetry := Some (Some (600 # 1), true);
     ExogenousSignals := None |}.

Definition bridge : CameraMetaData :=
  {| isRGBCameraEnabled := true; isRGBDCameraEnabled := false;
     rgbCamerasList := [std_string "left"; std_string "right"];
     rgbdCamerasList := [] |}.

End ConfigSamples.


(** ** Attaching the drivers: [attachAll] *)

(** The [m_stream*] members that only [attachAll] reads. *)
Record SensorFlags := {
  m_streamFTSensors : bool;
  m_streamInertials : bool;
  m_streamCartesianWrenches : bool;
  m_streamTemperatureSensors : bool
}.

(** A [robometry::ChannelInfo]: name, dimensions and names of the elements. *)
Record ChannelInfo := {
  channel_name : name;
  dimensions : nat * nat;
  elements_names : list name
}.

(** The calls of [attachAll] whose result is accumulated in [ok]: on the
    buffer manager, the text-logging port, the camera bridge and the
    periodic thread. *)
Inductive attach_call :=
| AddChannel (channel : ChannelInfo)
| OpenTextLoggingPort
| GetRGBCamerasList
| GetRGBDCamerasList
| SetSaveCallback
| Start.

(** What the collaborators answer to [attachAll].  [camera_setDriversList]
    is [None] when [m_cameraBridge] is null; [addChannel] may depend on the
    channels passed to it before; the two camera lists come with what the
    getter leaves in its argument. *)
Record AttachAnswers := {
  sensor_setDriversList : bool;
  camera_setDriversList : option bool;
  getJointsList : option (list name);
  addChannel : list ChannelInfo -> ChannelInfo -> bool;
  textLoggingPort_open : bool;
  getRGBCamerasList : bool * list name;
  getRGBDCamerasList : bool * list name;
  setSaveCallback : bool;
  start : bool
}.

(** The threads [attachAll] starts. *)
Definition lookForNewLogs_worker : name := std_string "lookForNewLogs".
Definition lookForExogenousSignals_worker : name := std_string "lookForExogenousSignals".
Definition recordVideo_worker (camera : name) : name := std_string "recordVideo " ++ camera.

(** The calls made so far, each with its answer. *)
Abbreviation attach_trace := (list (attach_call * bool)).

Section Attach.

Context {scalar Mat : Type} `{MatOps Mat}.

(** The channels passed to [addChannel] in a trace. *)
Definition channels_added (calls : attach_trace) : list ChannelInfo :=
  omap (fun c => match c.1 with AddChannel channel => Some channel | _ => None end) calls.

(** [ok = ok && call]: the call is made only while [ok] holds. *)
Definition and_also (acc : bool * attach_trace) (call : attach_call) (answer : bool)
    : bool * attach_trace :=
  let '(ok, calls) := acc in
  if ok then (answer, calls ++ [(call, answer)]) else (false, calls).

(** [ok = ok && m_bufferManager.addChannel(channel)]. *)
Definition add_channel (a : AttachAnswers) (acc : bool * attach_trace) (channel : ChannelInfo)
    : bool * attach_trace :=
  and_also acc (AddChannel channel) (addChannel a (channels_added acc.2) channel).

(** Statements [ok = ok && addChannel(...)] in sequence. *)
Definition add_channels (a : AttachAnswers) (acc : bool * attach_trace)
    (channels : list ChannelInfo) : bool * attach_trace :=
  fold_left (add_channel a) channels acc.

(** [{channel, {dofs, 1}, joints}]. *)
Definition joint_channel (joints : list name) (channel : string) : ChannelInfo :=
  {| channel_name := std_string channel; dimensions := (length joints, 1);
     elements_names := joints |}.

(** [{prefix + sensorName, {rows, 1}, elements}]. *)
Definition sensor_channel (prefix : string) (elements : list string) (sensorName : name)
    : ChannelInfo :=
  {| channel_name := std_string prefix ++ sensorName; dimensions := (length elements, 1);
     elements_names := std_string <$> elements |}.

Definition ft_elements : list string := ["f_x"; "f_y"; "f_z"; "mu_x"; "mu_y"; "mu_z"].
Definition gyro_elements : list string := ["omega_x"; "omega_y"; "omega_z"].
Definition accelerometer_elements : list string := ["a_x"; "a_y"; "a_z"].
Definition orientation_elements : list string := ["r"; "p"; "y"].
Definition magnetometer_elements : list string := ["mag_x"; "mag_y"; "mag_z"].

(** Lines 693-705: the three channels of an IMU, added in one conjunction. *)
Definition imu_channels (sensorName : name) : list ChannelInfo :=
  [sensor_channel "accelerometers::" accelerometer_elements sensorName;
   sensor_channel "gyros::" gyro_elements sensorName;
   sensor_channel "orientations::" orientation_elements sensorName].

(** Lines 622-728: the arguments of the calls of [addChannel] that prepare
    the telemetry, in program order. *)
Definition telemetry_channels (fl : StreamFlags) (sfl : SensorFlags)
    (sb : SensorBridge scalar) (joints : list name) : list ChannelInfo :=
  (if m_streamJointStates fl then
     [joint_channel joints "joints_state::positions";
      joint_channel joints "joints_state::velocities";
      joint_channel joints "joints_state::accelerations";
      joint_channel joints "joints_state::torques"]
   else [])
  ++ (if m_streamMotorStates fl then
     [joint_channel joints "motors_state::positions";
      joint_channel joints "motors_state::velocities";
      joint_channel joints "motors_state::accelerations";
      joint_channel joints "motors_state::currents"]
   else [])
  ++ (if m_streamMotorPWM fl then [joint_channel joints "motors_state::PWM"] else [])
  ++ (if m_streamPIDs fl then [joint_channel joints "PIDs"] else [])
  ++ (if m_streamFTSensors sfl then
     sensor_channel "FTs::" ft_elements <$> getSixAxisForceTorqueSensorsList sb
   else [])
  ++ (if m_streamInertials sfl then
     (sensor_channel "gyros::" gyro_elements <$> getGyroscopesList sb)
     ++ (sensor_channel "accelerometers::" accelerometer_elements
           <$> getLinearAccelerometersList sb)
     ++ (sensor_channel "orientations::" orientation_elements
           <$> getOrientationSensorsList sb)
     ++ (sensor_channel "magnetometers::" magnetometer_elements <$> getMagnetometersList sb)
     ++ flat_map imu_channels (getIMUsList sb)
   else [])
  ++ (if m_streamCartesianWrenches sfl then
     sensor_channel "cartesian_wrenches::" ft_elements <$> getCartesianWrenchesList sb
   else [])
  ++ (if m_streamTemperatureSensors sfl then
     sensor_channel "temperatures::" ["temperature"] <$> getTemperatureSensorsList sb
   else []).

(** [{"camera::" + camera + "::" + imageType, {1, 1}, {"timestamp"}}]. *)
Definition camera_channel (camera : name) (s : stream) : ChannelInfo :=
  {| channel_name := std_string "camera::" ++ camera ++ std_string "::" ++ stream_name s;
     dimensions := (1, 1); elements_names := [std_string "timestamp"] |}.

(** The encoder or the frames folder of one stream of a camera (lines
    747-770 and their three repetitions).  The save mode is read through the
    saver pointer of [m_videoWriters[camera]]; on a null pointer the read
    does not return. *)
Definition attach_stream (s : stream) (camera : name)
    (imgDimensions : gmap name (nat * nat)) (st : CameraState Mat)
    : outcome (bool * CameraState Mat) :=
  let '(st, w) := writers_at camera st in
  match saver_of s w with
  | Some saver =>
      match saveMode saver with
      | Video =>
          let '(ok, st) := openVideoWriter s camera imgDimensions st in
          if ok then Returned (true, st)
          else Returned (false,
                 log_error (std_string "attachAll: unable open the video writer") st)
      | Frame =>
          let '(ok, st) := createFramesFolder s camera st in
          if ok then Returned (true, st)
          else Returned (false,
                 log_error (std_string "attachAll: unable to create the folder") st)
      end
  | None => Thrown
  end.

(** The loop over [m_rgbCamerasList] (lines 745-775).  The first component
    of the result is [None] when the loop has left the function by
    [return false], and the value of [ok] otherwise. *)
Fixpoint attach_rgb_cameras (a : AttachAnswers) (cameras : list name)
    (acc : bool * attach_trace) (st : CameraState Mat)
    : outcome (option bool * attach_trace * CameraState Mat) :=
  match cameras with
  | [] => Returned (Some acc.1, acc.2, st)
  | camera :: rest =>
      match attach_stream RGB camera (rgbImgDimensions st) st with
      | Thrown => Thrown
      | Returned (false, st) => Returned (None, acc.2, st)
      | Returned (true, st) =>
          attach_rgb_cameras a rest (add_channel a acc (camera_channel camera RGB)) st
      end
  end.

(** The loop over [m_rgbdCamerasList] (lines 778-838). *)
Fixpoint attach_rgbd_cameras (a : AttachAnswers) (cameras : list name)
    (acc : bool * attach_trace) (st : CameraState Mat)
    : outcome (option bool * attach_trace * CameraState Mat) :=
  match cameras with
  | [] => Returned (Some acc.1, acc.2, st)
  | camera :: rest =>
      match attach_stream RGB camera (rgbdImgDimensions st) st with
      | Thrown => Thrown
      | Returned (false, st) => Returned (None, acc.2, st)
      | Returned (true, st) =>
          match attach_stream Depth camera (rgbdImgDimensions st) st with
          | Thrown => Thrown
          | Returned (false, st) => Returned (None, acc.2, st)
          | Returned (true, st) =>
              attach_rgbd_cameras a rest
                (add_channel a (add_channel a acc (camera_channel camera RGB))
                   (camera_channel camera Depth)) st
          end
      end
  end.

(** [ok = ok && m_cameraBridge->getRGBCamerasList(m_rgbCamerasList)] and its
    RGBD twin: the member is written only when the getter is called. *)
Definition get_rgb_cameras (a : AttachAnswers) (acc : bool * attach_trace)
    (st : CameraState Mat) : bool * attach_trace * CameraState Mat :=
  (and_also acc GetRGBCamerasList (getRGBCamerasList a).1,
   if acc.1 then
     {| m_videoWriters := m_videoWriters st;
        m_rgbCamerasList := (getRGBCamerasList a).2;
        m_rgbdCamerasList := m_rgbdCamerasList st;
        rgbImgDimensions := rgbImgDimensions st;
        rgbdImgDimensions := rgbdImgDimensions st;
        files := files st;
        errors := errors st |}
   else st).

Definition get_rgbd_cameras (a : AttachAnswers) (acc : bool * attach_trace)
    (st : CameraState Mat) : bool * attach_trace * CameraState Mat :=
  (and_also acc GetRGBDCamerasList (getRGBDCamerasList a).1,
   if acc.1 then
     {| m_videoWriters := m_videoWriters st;
        m_rgbCamerasList := m_rgbCamerasList st;
        m_rgbdCamerasList := (getRGBDCamerasList a).2;
        rgbImgDimensions := rgbImgDimensions st;
        rgbdImgDimensions := rgbdImgDimensions st;
        files := files st;
        errors := errors st |}
   else st).

(** Threads started by a step. *)
Definition start_workers (started : list name) (d : Device Mat) : Device Mat :=
  {| cameras := cameras d; m_videoCodecCode := m_videoCodecCode d;
     workers := workers d ++ started |}.

(** Lines 840-858: one video thread for each entry of [m_videoWriters], in
    the order the map is iterated, when [ok] holds. *)
Definition start_video_threads (ok : bool) (d : Device Mat) : Device Mat :=
  if ok then
    start_workers (recordVideo_worker <$> (map_to_list (m_videoWriters (cameras d))).*1) d
  else d.

(** Lines 861-873: the save callback is registered and the periodic thread
    started. *)
Definition attach_finish (a : AttachAnswers) (acc : bool * attach_trace) (d : Device Mat)
    : bool * Device Mat * attach_trace :=
  let '(ok, calls) := and_also acc SetSaveCallback (setSaveCallback a) in
  if ok then (start a, d, calls ++ [(Start, start a)]) else (ok, d, calls).

(** Lines 741-859: the part of [attachAll] that is skipped when
    [m_cameraBridge] is null.  [None] in the first component: the function
    has returned [false] from inside a loop. *)
Definition attach_cameras (a : AttachAnswers) (acc : bool * attach_trace) (d : Device Mat)
    : outcome (option bool * attach_trace * Device Mat) :=
  let '(acc, st) := get_rgb_cameras a acc (cameras d) in
  match attach_rgb_cameras a (m_rgbCamerasList st) acc st with
  | Thrown => Thrown
  | Returned (None, calls, st) => Returned (None, calls, with_cameras st d)
  | Returned (Some ok, calls, st) =>
      let '(acc, st) := get_rgbd_cameras a (ok, calls) st in
      match attach_rgbd_cameras a (m_rgbdCamerasList st) acc st with
      | Thrown => Thrown
      | Returned (None, calls, st) => Returned (None, calls, with_cameras st d)
      | Returned (Some ok, calls, st) =>
          Returned (Some ok, calls, start_video_threads ok (with_cameras st d))
      end
  end.

(** A failure reported by [attachAll] itself. *)
Definition attach_error (msg : string) (d : Device Mat) : Device Mat :=
  with_cameras (log_error (std_string msg) (cameras d)) d.

(** [YarpRobotLoggerDevice::attachAll].  [fl] and [sfl] are the [m_stream*]
    members, [sb] the sensor bridge with its lists of sensors. *)
Definition attachAll (a : AttachAnswers) (fl : StreamFlags) (sfl : SensorFlags)
    (sb : SensorBridge scalar) (d : Device Mat)
    : outcome (bool * Device Mat * attach_trace) :=
  if negb (sensor_setDriversList a) then
    Returned (false,
              attach_error "attachAll: could not attach drivers list to sensor bridge" d, [])
  else
    match camera_setDriversList a with
    | Some false =>
        Returned (false,
                  attach_error "attachAll: could not attach drivers list to camera bridge" d,
                  [])
    | bridge =>
        match getJointsList a with
        | None =>
            Returned (false, attach_error "attachAll: could not get the joints list" d, [])
        | Some joints =>
            let acc := add_channels a (true, []) (telemetry_channels fl sfl sb joints) in
            let acc := and_also acc OpenTextLoggingPort (textLoggingPort_open a) in
            let d := start_workers [lookForNewLogs_worker; lookForExogenousSignals_worker] d in
            match bridge with
            | None => Returned (attach_finish a acc d)
            | Some _ =>
                match attach_cameras a acc d with
                | Thrown => Thrown
                | Returned (None, calls, d) => Returned (false, d, calls)
                | Returned (Some ok, calls, d) => Returned (attach_finish a (ok, calls) d)
                end
            end
        end
    end.

(** What a collaborator answers to a call, given the calls made before. *)
Definition answer (a : AttachAnswers) (calls : attach_trace) (call : attach_call) : bool :=
  match call with
  | AddChannel channel => addChannel a (channels_added calls) channel
  | OpenTextLoggingPort => textLoggingPort_open a
  | GetRGBCamerasList => (getRGBCamerasList a).1
  | GetRGBDCamerasList => (getRGBDCamerasList a).1
  | SetSaveCallback => setSaveCallback a
  | Start => start a
  end.

(** Calls in sequence, each of them made only while [ok] holds. *)
Definition guarded (a : AttachAnswers) (acc : bool * attach_trace) (plan : list attach_call)
    : bool * attach_trace :=
  fold_left (fun acc call => and_also acc call (answer a acc.2 call)) plan acc.

(** The channels of the cameras of the two lists. *)
Definition rgb_plan (cameras : list name) : list attach_call :=
  (fun camera => AddChannel (camera_channel camera RGB)) <$> cameras.

Definition rgbd_plan (cameras : list name) : list attach_call :=
  flat_map (fun camera => [AddChannel (camera_channel camera RGB);
                           AddChannel (camera_channel camera Depth)]) cameras.

Definition camera_plan (a : AttachAnswers) : list attach_call :=
  [GetRGBCamerasList] ++ rgb_plan (getRGBCamerasList a).2
  ++ [GetRGBDCamerasList] ++ rgbd_plan (getRGBDCamerasList a).2.

(** The calls [attachAll] makes, in program order, when none of them is
    refused and every stream of every camera can be opened. *)
Definition attach_plan (a : AttachAnswers) (fl : StreamFlags) (sfl : SensorFlags)
    (sb : SensorBridge scalar) (joints : list name) : list attach_call :=
  (AddChannel <$> telemetry_channels fl sfl sb joints)
  ++ [OpenTextLoggingPort]
  ++ match camera_setDriversList a with
     | None => []
     | Some _ => camera_plan a
     end
  ++ [SetSaveCallback; Start].

(** No call follows one that has been answered [false]. *)
Definition stops_at_refusal (calls : attach_trace) : Prop :=
  forall k call, calls !! k = Some (call, false) -> S k = length calls.

End Attach.

(** *** A sample robot for [attachAll] *)
Module AttachSamples.

(** Every collaborator answers [true]; one RGB camera. *)
Definition willing : AttachAnswers :=
  {| sensor_setDriversList := true;
     camera_setDriversList := Some true;
     getJointsList := Some [std_string "hip"; std_string "knee"];
     addChannel := fun _ _ => true;
     textLoggingPort_open := true;
     getRGBCamerasList := (true, [std_string "cam"]);
     getRGBDCamerasList := (true, []);
     setSaveCallback := true;
     start := true |}.

(** The buffer manager refuses the channel of the joint velocities. *)
Definition refusing : AttachAnswers :=
  {| sensor_setDriversList := true;
     camera_setDriversList := Some true;
     getJointsList := Some [std_string "hip"; std_string "knee"];
     addChannel := fun _ channel =>
       negb (bool_decide (channel_name channel = std_string "joints_state::velocities"));
     textLoggingPort_open := true;
     getRGBCamerasList := (true, [std_string "cam"]);
     getRGBDCamerasList := (true, []);
     setSaveCallback := true;
     start := true |}.

(** Only the joint states are streamed. *)
Definition joints_only : SensorFlags :=
  {| m_streamFTSensors := false; m_streamInertials := false;
     m_streamCartesianWrenches := false; m_streamTemperatureSensors := false |}.

Definition everything : SensorFlags :=
  {| m_streamFTSensors := true; m_streamInertials := true;
     m_streamCartesianWrenches := true; m_streamTemperatureSensors := true |}.

(** A device configured for the camera of [CameraSamples.one_frame_camera]. *)
Definition device : Device (list Z) :=
  {| cameras := CameraSamples.one_frame_camera;
     m_videoCodecCode := std_string "mp4v";
     workers := [] |}.

(** A device whose camera is recorded as a video, while the camera bridge
    knows no image dimensions for it. *)
Definition device_without_dimensions : Device (list Z) :=
  {| cameras :=
       {| m_videoWriters :=
            {[ std_string "cam" :=
                 {| rgb := Some {| saveMode := Video; frame := []; writer := None;
                                   framesPath := [] |};
                    depth := None; fps := 30%Z; depthScale := 1%Z |} ]};
          m_rgbCamerasList := [];
          m_rgbdCamerasList := [];
          rgbImgDimensions := ∅;
          rgbdImgDimensions := ∅;
          files := ∅;
          errors := [] |};
     m_videoCodecCode := std_string "mp4v";
     workers := [] |}.

(** The robot of [Samples.bridge] with a force-torque sensor in the left
    foot that delivers a measurement. *)
Definition bridge_with_ft : SensorBridge Z :=
  {| advance := true;
     getJointPositions := Some Samples.joints;
     getJointVelocities := Some Samples.joints;
     getJointAccelerations := Some Samples.joints;
     getJointTorques := Some Samples.joints;
     getMotorPositions := None;
     getMotorVelocities := None;
     getMotorAccelerations := None;
     getMotorCurrents := None;
     getMotorPWMs := None;
     getPidPositions := None;
     getSixAxisForceTorqueSensorsList := [std_string "l_foot"];
     getSixAxisForceTorqueMeasurement := fun _ => Some [1; 2; 3; 4; 5; 6]%Z;
     getTemperatureSensorsList := [];
     getTemperature := fun _ => None;
     getGyroscopesList := [];
     getGyroscopeMeasure := fun _ => None;
     getLinearAccelerometersList := [];
     getLinearAccelerometerMeasurement := fun _ => None;
     getOrientationSensorsList := [];
     getOrientationSensorMeasurement := fun _ => None;
     getMagnetometersList := [];
     getMagnetometerMeasurement := fun _ => None;
     getIMUsList := [];
     getIMUMeasurement := fun _ => None;
     getCartesianWrenchesList := [];
     getCartesianWrench := fun _ => None |}.

(** What [attachAll] returns on the sample device, [false] standing for a
    call that does not return. *)
Definition result (a : AttachAnswers) (sfl : SensorFlags) (sb : SensorBridge Z)
    : bool * Device (list Z) * list (attach_call * bool) :=
  match attachAll a Samples.flags sfl sb device with
  | Returned r => r
  | Thrown => (false, device, [])
  end.

End AttachSamples.





(* ===================================================================== *)
(** * Part II: properties                                                 *)
(* ===================================================================== *)

(** An event of another kind is not among the events listed explicitly. *)
Ltac not_in_literal H :=
  repeat (apply elem_of_cons in H as [H|H]; [discriminate H|]);
  by apply elem_of_nil in H.

(** ** [findAndReplaceAll] *)
Module StdStringFacts.
Import StdString.

Lemma starts_with_app (s rest : t) : starts_with s (s ++ rest) = true.
Proof.
  induction s as [|a s IH]; simpl; [done|].
  rewrite IH, bool_decide_eq_true_2; done.
Qed.

Lemma starts_with_inv (s l : t) :
  starts_with s l = true -> l = s ++ drop (length s) l.
Proof.
  revert l; induction s as [|a s IH]; intros l Hs; simpl in *.
  - by rewrite drop_0.
  - destruct l as [|b l]; [done|].
    apply andb_true_iff in Hs as [Hab Hs].
    apply bool_decide_eq_true_1 in Hab as ->.
    simpl. f_equal. by apply IH.
Qed.

(** A match splits the text around the occurrence. *)
Lemma first_match_Some (s l : t) (i : nat) :
  first_match s l = Some i ->
  l = take i l ++ s ++ drop (i + length s) l /\ i + length s <= length l.
Proof.
  revert i; induction l as [|c l IH]; intros i Hm; simpl in Hm.
  - destruct (starts_with s []) eqn:Hs; [|done].
    injection Hm as <-. destruct s; [|done]. simpl. split; [done|lia].
  - destruct (starts_with s (c :: l)) eqn:Hs.
    + injection Hm as <-. apply starts_with_inv in Hs.
      split; [exact Hs|].
      apply (f_equal length) in Hs. rewrite length_app in Hs. lia.
    + destruct (first_match s l) as [j|] eqn:Hj; [|done].
      injection Hm as <-. destruct (IH j eq_refl) as [Hl Hlen].
      split; [|simpl; lia].
      simpl. f_equal. exact Hl.
Qed.

Lemma substitute_skip (s r : t) (k : nat) (l : t) :
  substitute s r k l = substitute s r 0 (drop k l).
Proof.
  revert k; induction l as [|c l IH]; intros [|k]; simpl; done.
Qed.

(** Without a match nothing is replaced. *)
Lemma substitute_no_match (s r l : t) :
  first_match s l = None -> substitute s r 0 l = l.
Proof.
  induction l as [|c l IH]; intros Hm; simpl in *; [done|].
  destruct (starts_with s (c :: l)); [done|].
  destruct (first_match s l); [done|].
  f_equal. by apply IH.
Qed.

(** With a match at [i], the first [i] characters are copied, the
    replacement follows, and the scan goes on after the occurrence. *)
Lemma substitute_match (s r l : t) (i : nat) :
  s <> [] ->
  first_match s l = Some i ->
  substitute s r 0 l = take i l ++ r ++ substitute s r 0 (drop (i + length s) l).
Proof.
  intros Hne. revert i; induction l as [|c l IH]; intros i Hm; simpl in Hm.
  - destruct s; [done|]. done.
  - simpl. destruct (starts_with s (c :: l)) eqn:Hs.
    + injection Hm as <-. simpl. f_equal.
      rewrite substitute_skip. destruct s as [|a s]; [done|].
      simpl. by rewrite Nat.sub_0_r.
    + destruct (first_match s l) as [j|] eqn:Hj; [|done].
      injection Hm as <-. simpl. f_equal. by apply IH.
Qed.

Lemma find_at_boundary (s done_ rest : t) :
  find (done_ ++ rest) s (length done_)
  = (fun i => length done_ + i) <$> first_match s rest.
Proof.
  unfold find. rewrite decide_True by (rewrite length_app; lia).
  by rewrite drop_app_length.
Qed.

(** The loop computes [substitute]: what lies before the scan position is
    final, and one unit of fuel per remaining character is enough. *)
Lemma findAndReplaceAll_loop_spec (s r : t) :
  s <> [] ->
  forall fuel done_ rest,
    length rest < fuel ->
    findAndReplaceAll_loop fuel s r (done_ ++ rest)
      (find (done_ ++ rest) s (length done_))
    = Some (done_ ++ substitute s r 0 rest).
Proof.
  intros Hne. induction fuel as [|fuel IH]; intros done_ rest Hlen; [lia|].
  rewrite find_at_boundary.
  destruct (first_match s rest) as [i|] eqn:Hm; simpl.
  - destruct (first_match_Some _ _ _ Hm) as [Hsplit Hbound].
    assert (Hs : 0 < length s) by (destruct s; [done|simpl; lia]).
    assert (Hdata : replace (done_ ++ rest) (length done_ + i) (length s) r
                    = (done_ ++ take i rest ++ r) ++ drop (i + length s) rest).
    { unfold replace.
      rewrite take_app_add, <- Nat.add_assoc, drop_app_add.
      by rewrite <- !app_assoc. }
    rewrite Hdata.
    replace (length done_ + i + length r) with (length (done_ ++ take i rest ++ r)).
    2:{ rewrite !length_app, length_take. lia. }
    rewrite IH by (rewrite length_drop; lia).
    rewrite (substitute_match s r rest i Hne Hm).
    by rewrite <- !app_assoc.
  - by rewrite substitute_no_match.
Qed.

Lemma findAndReplaceAll_fuel_spec (fuel : nat) (data s r : t) :
  s <> [] -> length data < fuel ->
  findAndReplaceAll_fuel fuel data s r = Some (substitute s r 0 data).
Proof.
  intros Hne Hlen. unfold findAndReplaceAll_fuel.
  apply (findAndReplaceAll_loop_spec s r Hne fuel [] data Hlen).
Qed.

(** Replacing a single character. *)
Lemma substitute_char (c : ascii) (r l : t) :
  substitute [c] r 0 l = flat_map (fun x => if decide (x = c) then r else [x]) l.
Proof.
  induction l as [|x l IH]; simpl; [done|].
  rewrite <- IH. destruct (decide (x = c)) as [->|Hx].
  - rewrite bool_decide_eq_true_2 by done. by destruct l.
  - rewrite bool_decide_eq_false_2 by congruence. done.
Qed.

Lemma substitute_char_char (c d : ascii) (l : t) :
  substitute [c] [d] 0 l = replace_char c d l.
Proof.
  rewrite substitute_char. unfold replace_char.
  induction l as [|x l IH]; simpl; [done|].
  rewrite IH. by destruct (decide (x = c)).
Qed.

Lemma occurs_char (c : ascii) (l : t) : occurs [c] l <-> c ∈ l.
Proof.
  split.
  - intros (pre & post & ->). set_solver.
  - intros (pre & post & ->)%list_elem_of_split. by exists pre, post.
Qed.

Lemma substitute_char_clean (c : ascii) (r l : t) :
  c ∉ r -> c ∉ substitute [c] r 0 l.
Proof.
  intros Hr. rewrite substitute_char.
  intros (x & Hx & Hin)%list_elem_of_In%in_flat_map.
  destruct (decide (x = c)) as [->|Hne].
  - apply Hr. by apply list_elem_of_In.
  - destruct Hin as [Heq|[]]. congruence.
Qed.

End StdStringFacts.

(** C10 (as amended).  For every input and every non-empty search string,
    [findAndReplaceAll] returns: one iteration per character of the input is
    enough, because after each replacement the scan resumes just past the
    inserted text, so the result is the left-to-right substitution of the
    non-overlapping occurrences, also when the replacement contains the
    search string.  When the search string is a single character that the
    replacement does not contain, the result contains no occurrence of it. *)
Theorem findAndReplaceAll_terminates (data toSearch replaceStr : StdString.t) :
  toSearch <> [] ->
  exists out,
    StdString.findAndReplaceAll data toSearch replaceStr = Some out
    /\ (forall fuel, length data < fuel ->
          StdString.findAndReplaceAll_fuel fuel data toSearch replaceStr = Some out)
    /\ out = StdString.substitute toSearch replaceStr 0 data
    /\ (forall c, toSearch = [c] -> c ∉ replaceStr -> ~ StdString.occurs toSearch out).
Proof.
  intros Hne. exists (StdString.substitute toSearch replaceStr 0 data).
  repeat split.
  - apply StdStringFacts.findAndReplaceAll_fuel_spec; [done|lia].
  - intros fuel Hfuel. by apply StdStringFacts.findAndReplaceAll_fuel_spec.
  - intros c -> Hc Hocc. apply StdStringFacts.occurs_char in Hocc.
    by apply (StdStringFacts.substitute_char_clean c replaceStr data).
Qed.

Lemma findAndReplaceAll_terminates_witness :
  std_string "-" <> []
  /\ exists out,
       StdString.findAndReplaceAll (std_string "a-b--c") (std_string "-") (std_string "_")
       = Some out
       /\ (forall fuel, length (std_string "a-b--c") < fuel ->
             StdString.findAndReplaceAll_fuel fuel (std_string "a-b--c")
               (std_string "-") (std_string "_") = Some out)
       /\ out = StdString.substitute (std_string "-") (std_string "_") 0 (std_string "a-b--c")
       /\ (forall c, std_string "-" = [c] -> c ∉ std_string "_" ->
             ~ StdString.occurs (std_string "-") out).
Proof.
  split; [discriminate|].
  apply (findAndReplaceAll_terminates (std_string "a-b--c") (std_string "-") (std_string "_")).
  discriminate.
Defined.

(** C10 as stated fails: replacing "ab" by "b" in "aab" yields "ab".  The
    replacement "b" contains no "ab", yet the result is an occurrence of the
    search string, formed by the text before the match and the inserted
    replacement, which the scan does not visit again. *)
Lemma findAndReplaceAll_leaves_occurrence :
  StdString.findAndReplaceAll (std_string "aab") (std_string "ab") (std_string "b")
  = Some (std_string "ab")
  /\ std_string "ab" <> []
  /\ ~ StdString.occurs (std_string "ab") (std_string "b")
  /\ StdString.occurs (std_string "ab") (std_string "ab").
Proof.
  split; [reflexivity|]. split; [discriminate|]. split.
  - intros (pre & post & Heq). apply (f_equal length) in Heq.
    rewrite !length_app in Heq. simpl in Heq. lia.
  - by exists [], [].
Qed.

(** With an empty search string and a non-empty replacement the loop never
    ends: every amount of fuel is used up. *)
Lemma findAndReplaceAll_loop_empty_search (fuel : nat) (done_ rest : StdString.t) :
  StdString.findAndReplaceAll_loop fuel [] (std_string "y") (done_ ++ rest)
    (Some (length done_)) = None.
Proof.
  revert done_; induction fuel as [|fuel IH]; intros done_; [done|].
  cbn [StdString.findAndReplaceAll_loop]. unfold StdString.replace.
  change (length (@nil ascii)) with 0.
  rewrite Nat.add_0_r, take_app_length, drop_app_length.
  replace (length done_ + length (std_string "y"))
    with (length (done_ ++ std_string "y")) by (by rewrite length_app).
  rewrite app_assoc, StdStringFacts.find_at_boundary.
  replace (StdString.first_match [] rest) with (Some 0) by (by destruct rest).
  cbn [fmap option_fmap option_map]. rewrite Nat.add_0_r. apply IH.
Qed.

Lemma findAndReplaceAll_empty_search_diverges (fuel : nat) (data : StdString.t) :
  StdString.findAndReplaceAll_fuel fuel data [] (std_string "y") = None.
Proof.
  unfold StdString.findAndReplaceAll_fuel.
  replace (StdString.find data [] 0) with (Some (length (@nil ascii)))
    by (unfold StdString.find; simpl; by destruct data).
  apply (findAndReplaceAll_loop_empty_search fuel [] data).
Qed.

(** ** Wake-up schedule *)

Lemma clock_reset_spec (time oldTime : Z) :
  Schedule.clock_reset time oldTime = true <-> (time <= oldTime)%Z.
Proof.
  unfold Schedule.clock_reset. rewrite negb_true_iff.
  destruct (Qle_bool _ _) eqn:Hq.
  - apply Qle_bool_iff in Hq. unfold Qle in Hq. simpl in Hq. split; [done|lia].
  - split; [|done]. intros _.
    destruct (Z_le_gt_dec time oldTime) as [Hle|Hgt]; [done|].
    assert (Hq' : Qle_bool (1 # 1000000000000) (inject_Z (time - oldTime)) = true).
    { apply Qle_bool_iff. unfold Qle. simpl. lia. }
    congruence.
Qed.

Lemma tick_wakeUpTime (period : Z) (c : Schedule.clocks) (now : Z) :
  Schedule.time (Schedule.tick period c now) = now
  /\ Schedule.oldTime (Schedule.tick period c now) = Schedule.time c
  /\ ((now <= Schedule.time c)%Z ->
      Schedule.wakeUpTime (Schedule.tick period c now) = (now + period)%Z)
  /\ ((Schedule.time c < now)%Z ->
      Schedule.wakeUpTime (Schedule.tick period c now)
      = (Schedule.wakeUpTime c + period)%Z).
Proof.
  unfold Schedule.tick; simpl. repeat split.
  - intros Hle. apply clock_reset_spec in Hle. by rewrite Hle.
  - intros Hlt. destruct (Schedule.clock_reset now (Schedule.time c)) eqn:Hr; [|done].
    apply clock_reset_spec in Hr. lia.
Qed.

(** C6 (as amended).  In each of the three worker loops (video recording,
    log discovery, exogenous-signal discovery), when the reading of the clock
    is less than or equal to the reading of the previous iteration, the next
    wake-up time is the current time plus the period of the loop; when it is
    greater, the next wake-up time is the previous wake-up time plus the
    period.  The next wake-up thus lies exactly one period after the
    baseline it is computed from. *)
Theorem worker_loops_reanchor (recordVideoPeriod : Z) (c : Schedule.clocks) (now : Z) :
  let rule (period : Z) (c' : Schedule.clocks) :=
    Schedule.time c' = now
    /\ Schedule.oldTime c' = Schedule.time c
    /\ ((now <= Schedule.time c)%Z -> Schedule.wakeUpTime c' = (now + period)%Z)
    /\ ((Schedule.time c < now)%Z ->
        Schedule.wakeUpTime c' = (Schedule.wakeUpTime c + period)%Z) in
  rule recordVideoPeriod (Schedule.recordVideo_tick recordVideoPeriod c now)
  /\ rule Schedule.lookForNewLogsPeriod (Schedule.lookForNewLogs_tick c now)
  /\ rule Schedule.lookForExogenousSignalPeriod (Schedule.lookForExogenousSignals_tick c now).
Proof.
  intros rule. unfold rule, Schedule.recordVideo_tick, Schedule.lookForNewLogs_tick,
    Schedule.lookForExogenousSignals_tick.
  split; [|split]; apply tick_wakeUpTime.
Qed.

(** C6 as stated fails when the clock reads the same value twice.  The
    log-discovery loop starts at 0 and reads 5 s at its first iteration, so
    its wake-up time is 2 s; reading 5 s again at the second iteration is not
    a reading less than the previous one, yet the wake-up time becomes
    5 s + 2 s and not 2 s + 2 s. *)
Lemma equal_reading_reanchors :
  let c := Schedule.lookForNewLogs_tick (Schedule.start 0) 5000000000 in
  let c' := Schedule.lookForNewLogs_tick c 5000000000 in
  ~ (5000000000 < Schedule.time c)%Z
  /\ Schedule.wakeUpTime c = 2000000000%Z
  /\ Schedule.wakeUpTime c' = 7000000000%Z
  /\ Schedule.wakeUpTime c' <> (Schedule.wakeUpTime c + Schedule.lookForNewLogsPeriod)%Z.
Proof.
  vm_compute. repeat split; discriminate.
Qed.

(** ** The periodic tick [run] *)
Section RunFacts.

Context {scalar : Type}.
Implicit Types (evs : list (event scalar)) (e : event scalar).

Lemma sanitize_key (key : name) :
  StdString.findAndReplaceAll key (std_string "-") (std_string "_")
  = Some (StdString.replace_char "-" "_" key).
Proof.
  unfold StdString.findAndReplaceAll.
  rewrite StdStringFacts.findAndReplaceAll_fuel_spec by (done || lia).
  f_equal. apply StdStringFacts.substitute_char_char.
Qed.

Lemma store_text_valid (stored : gset name) (time : Z) (msg : TextLoggingEntry) :
  isValid msg = true ->
  @store_text scalar stored time msg
  = Some (if decide (sanitized_key msg ∈ stored) then stored
          else {[sanitized_key msg]} ∪ stored,
          (if decide (sanitized_key msg ∈ stored) then []
           else [EvAddChannel (sanitized_key msg) 1 1])
          ++ [EvPushBack (sanitized_key msg) time (Text msg)]).
Proof.
  intros Hv. unfold store_text. rewrite Hv, sanitize_key. simpl.
  fold (sanitized_key msg). by destruct (decide _).
Qed.

Lemma store_text_invalid (stored : gset name) (time : Z) (msg : TextLoggingEntry) :
  isValid msg = false -> @store_text scalar stored time msg = Some (stored, []).
Proof. intros Hv. unfold store_text. by rewrite Hv. Qed.

Lemma sample_drain_event time e : sample_event time e -> drain_event time e.
Proof. by destruct e. Qed.

Lemma push_if_sample got time channel :
  Forall (sample_event time) (@push_if scalar got time channel).
Proof. destruct got; simpl; repeat constructor. Qed.

Lemma push_each_sample sensors getter time prefix :
  Forall (sample_event time) (@push_each scalar sensors getter time prefix).
Proof.
  unfold push_each. apply Forall_flat_map, Forall_forall.
  intros x _. apply push_if_sample.
Qed.

Lemma push_imu_sample sb time sensorName :
  Forall (sample_event time) (@push_imu scalar sb time sensorName).
Proof.
  unfold push_imu. destruct (getIMUMeasurement sb sensorName); simpl; repeat constructor.
Qed.

Lemma collect_sensors_sample fl sb time :
  Forall (sample_event time) (@collect_sensors scalar fl sb time).
Proof.
  unfold collect_sensors.
  repeat first
    [ apply Forall_app; split
    | apply push_if_sample
    | apply push_each_sample
    | apply Forall_nil_2
    | match goal with |- Forall _ (if ?b then _ else _) => destruct b end ].
  apply Forall_flat_map, Forall_forall. intros x _. apply push_imu_sample.
Qed.

Lemma collect_collection_sample ports time entry :
  Forall (sample_event time) (@collect_collection scalar ports time entry).2.
Proof.
  destruct entry as [remote signal]. unfold collect_collection.
  destruct (readCollection ports remote) as [vectors|]; simpl; [|repeat constructor].
  constructor; [done|]. apply Forall_app; split; [|apply Forall_app; split].
  - destruct (dataArrived signal); [constructor|]. apply Forall_fmap, Forall_forall. done.
  - apply Forall_fmap, Forall_forall. done.
  - repeat constructor.
Qed.

Lemma collect_vector_sample ports time entry :
  Forall (sample_event time) (@collect_vector scalar ports time entry).2.
Proof.
  destruct entry as [remote signal]. unfold collect_vector.
  destruct (readVector ports remote) as [v|]; simpl; [|repeat constructor].
  constructor; [done|]. apply Forall_app; split.
  - destruct (dataArrived signal); repeat constructor.
  - repeat constructor.
Qed.

Lemma for_each_sample {A} (body : A -> A * list (event scalar)) time (l : list A) :
  (forall x, Forall (sample_event time) (body x).2) ->
  Forall (sample_event time) (for_each body l).2.
Proof.
  intros Hbody. induction l as [|x l IH]; simpl; [constructor|].
  specialize (Hbody x). destruct (body x) as [x' evs].
  destruct (for_each body l) as [rest' evs']. simpl in *.
  apply Forall_app; done.
Qed.

Lemma store_text_sample stored time msg stored' evs :
  store_text stored time msg = Some (stored', evs) -> Forall (sample_event time) evs.
Proof.
  destruct (isValid msg) eqn:Hv.
  - rewrite store_text_valid by done. intros [= _ <-].
    destruct (decide _); repeat constructor.
  - rewrite store_text_invalid by done. intros [= _ <-]. constructor.
Qed.

Lemma store_text_total stored time msg :
  is_Some (@store_text scalar stored time msg).
Proof.
  destruct (isValid msg) eqn:Hv.
  - rewrite store_text_valid by done. done.
  - rewrite store_text_invalid by done. done.
Qed.

Lemma drain_text_events fuel arrivals k time stored port n :
  Forall (drain_event time) (@drain_text scalar fuel arrivals k time stored port n).1.2.
Proof.
  revert k stored port n. induction fuel as [|fuel IH]; intros k stored port n; simpl.
  - destruct (decide _); simpl; constructor.
  - destruct (decide _); simpl; [|constructor].
    destruct port as [|msg port']; [repeat constructor|].
    destruct (store_text stored time msg) as [[stored' evs]|] eqn:Hst; [|repeat constructor].
    specialize (IH (S k) stored' (port' ++ arrivals k) (length (port' ++ arrivals k))).
    destruct (drain_text _ _ _ _ _ _ _) as [[[s'' p''] evs'] fin]. simpl in *.
    constructor; [done|]. apply Forall_app; split; [|done].
    eapply Forall_impl; [by eapply store_text_sample|]. apply sample_drain_event.
Qed.

Lemma messages_read_app evs evs' :
  messages_read (evs ++ evs') = messages_read evs + messages_read evs'.
Proof. unfold messages_read. by rewrite List.filter_app, length_app. Qed.

Lemma messages_read_sample time evs :
  Forall (sample_event time) evs -> messages_read evs = 0.
Proof.
  induction 1 as [|e evs He _ IH]; [done|].
  change (e :: evs) with ([e] ++ evs). rewrite messages_read_app, IH.
  by destruct e.
Qed.

Lemma arrived_le arrivals n k r :
  (forall j, n <= j -> arrivals j = []) -> arrived arrivals k r <= arrived arrivals k (n - k).
Proof.
  intros Hquiet. revert k. induction r as [|r IH]; intros k; simpl; [lia|].
  destruct (decide (n <= k)) as [Hk|Hk].
  - rewrite (Hquiet k Hk). simpl. etransitivity; [apply IH|].
    replace (n - S k) with 0 by lia. replace (n - k) with 0 by lia. done.
  - replace (n - k) with (S (n - S k)) by lia. simpl. specialize (IH (S k)). lia.
Qed.

(** The text-log loop: each read takes one message out of a queue that the
    arrivals refill, and the loop is left only on an empty queue. *)
Lemma drain_text_reads fuel arrivals k time stored port :
  let '(_, port', evs, finished) :=
    @drain_text scalar fuel arrivals k time stored port (length port) in
  messages_read evs <= length port + arrived arrivals k (messages_read evs)
  /\ (finished = true ->
      port' = [] /\ messages_read evs = length port + arrived arrivals k (messages_read evs))
  /\ (forall n, (forall j, n <= j -> arrivals j = []) ->
      length port + arrived arrivals k (n - k) < fuel -> finished = true).
Proof.
  revert k stored port. induction fuel as [|fuel IH]; intros k stored port; simpl.
  - destruct (decide _) as [Hpos|Hpos]; unfold messages_read; simpl.
    + split; [lia|]. split; [done|]. intros; lia.
    + destruct port; [|simpl in Hpos; lia]. simpl. done.
  - destruct (decide _) as [Hpos|Hpos]; simpl.
    2:{ destruct port; [|simpl in Hpos; lia]. unfold messages_read. simpl. done. }
    destruct port as [|msg port']; [simpl in Hpos; lia|].
    destruct (store_text_total stored time msg) as [[stored' evs] Hst]. rewrite Hst.
    specialize (IH (S k) stored' (port' ++ arrivals k)).
    destruct (drain_text _ _ _ _ _ _ _) as [[[s'' p''] evs'] fin].
    destruct IH as (Hle & Hfin & Hterm).
    change (EvTextRead (Some msg) :: evs ++ evs')
      with ([EvTextRead (Some msg)] ++ evs ++ evs').
    rewrite !messages_read_app, (messages_read_sample time evs)
      by (by eapply store_text_sample).
    change (messages_read [EvTextRead (Some msg)]) with 1.
    rewrite length_app in *. simpl.
    split; [lia|]. split.
    + intros Hf. destruct (Hfin Hf) as [-> Heq]. split; [done|lia].
    + intros n Hquiet Hfuel. apply (Hterm n Hquiet).
      destruct (decide (n <= k)) as [Hk|Hk].
      * rewrite (Hquiet k Hk). replace (n - S k) with 0 by lia.
        replace (n - k) with 0 in Hfuel by lia. simpl in *. lia.
      * replace (n - k) with (S (n - S k)) in Hfuel by lia. simpl in Hfuel. lia.
Qed.

End RunFacts.

Section RunClaims.

Context {scalar : Type}.
Implicit Types (evs : list (event scalar)) (e : event scalar).

Lemma clock_reads_app evs evs' : clock_reads (evs ++ evs') = clock_reads evs ++ clock_reads evs'.
Proof. apply omap_app. Qed.

Lemma clock_reads_drain time evs : Forall (drain_event time) evs -> clock_reads evs = [].
Proof.
  induction 1 as [|e evs He _ IH]; [done|].
  change (e :: evs) with ([e] ++ evs). rewrite clock_reads_app, IH.
  destruct e as [| | [] | [] | | |]; done.
Qed.

Lemma holds_skip (pre rest : list (event scalar)) :
  Forall (fun e => ~ on_store_lock e) pre ->
  holds None (pre ++ rest) = holds None rest.
Proof.
  induction 1 as [|e pre He _ IH]; [done|]. simpl.
  destruct e as [| | [] | [] | | |]; simpl in *; done.
Qed.

Lemma holds_held (h body rest : list (event scalar)) :
  Forall (fun e => ~ on_store_lock e) body ->
  holds (Some h) (body ++ rest) = holds (Some (h ++ body)) rest.
Proof.
  intros Hbody. revert h. induction Hbody as [|e body He _ IH]; intros h.
  - by rewrite app_nil_r.
  - simpl. replace (h ++ e :: body) with ((h ++ [e]) ++ body) by (by rewrite <- app_assoc).
    destruct e as [| | [] | [] | | |]; simpl in *; try done; apply IH.
Qed.

Lemma appended_app evs evs' : appended (evs ++ evs') = appended evs + appended evs'.
Proof. unfold appended. by rewrite List.filter_app, length_app. Qed.

Lemma drain_event_no_store_lock time e : drain_event time e -> ~ on_store_lock e.
Proof. destruct e as [| | [] | [] | | |]; simpl; tauto. Qed.

(** Shape of the trace of a tick: an optional error message, the reading of
    the clock, the acquisition of the store lock, the body, and the release
    once the last loop has been left. *)
Lemma run_trace fuel fl sb ports arrivals now st :
  exists body,
    (@run scalar fuel fl sb ports arrivals now st).1.2
    = (if advance sb then [] else [EvLogError (std_string "run")])
      ++ [EvNow now; EvLock BufferManagerMutex] ++ body
      ++ (if (run fuel fl sb ports arrivals now st).2
          then [EvUnlock BufferManagerMutex] else [])
    /\ Forall (drain_event now) body
    /\ messages_read body
       = messages_read
           (@drain_text scalar fuel arrivals 0 now (m_textLogsStoredInManager st)
              (m_textLoggingPort st) (length (m_textLoggingPort st))).1.2
    /\ (run fuel fl sb ports arrivals now st).2
       = (@drain_text scalar fuel arrivals 0 now (m_textLogsStoredInManager st)
            (m_textLoggingPort st) (length (m_textLoggingPort st))).2
    /\ m_textLoggingPort (run fuel fl sb ports arrivals now st).1.1
       = (@drain_text scalar fuel arrivals 0 now (m_textLogsStoredInManager st)
            (m_textLoggingPort st) (length (m_textLoggingPort st))).1.1.2.
Proof.
  unfold run.
  pose proof (for_each_sample (collect_collection ports now) now
                (m_vectorsCollectionSignals st) (collect_collection_sample ports now)) as Hc.
  pose proof (for_each_sample (collect_vector ports now) now
                (m_vectorSignals st) (collect_vector_sample ports now)) as Hv.
  pose proof (@drain_text_events scalar fuel arrivals 0 now (m_textLogsStoredInManager st)
                (m_textLoggingPort st) (length (m_textLoggingPort st))) as Hd.
  destruct (for_each (collect_collection ports now) _) as [collections evs_c].
  destruct (for_each (collect_vector ports now) _) as [vectors evs_v].
  destruct (drain_text _ _ _ _ _ _ _) as [[[stored port] evs_t] fin]. simpl in *.
  exists (collect_sensors fl sb now ++ evs_c ++ evs_v ++ evs_t).
  split; [|split; [|split; [|done]]].
  - by rewrite <- !app_assoc.
  - pose proof (collect_sensors_sample fl sb now) as Hs.
    apply Forall_app; split; [|apply Forall_app; split; [|apply Forall_app; split]];
      try done; (eapply Forall_impl; [eassumption|apply sample_drain_event]).
  - rewrite !messages_read_app.
    rewrite (messages_read_sample now (collect_sensors fl sb now))
      by apply collect_sensors_sample.
    rewrite (messages_read_sample now evs_c), (messages_read_sample now evs_v) by done.
    done.
Qed.

(** C5.  Within one tick the clock is read once and every sample appended,
    for the measurements of the sensor bridge, the exogenous signals and the
    text-log messages alike, carries that reading as its timestamp.  This
    holds for the calls made so far also when the tick is still running. *)
Theorem tick_single_timestamp fuel fl sb ports arrivals now st :
  let '(_, evs, _) := @run scalar fuel fl sb ports arrivals now st in
  clock_reads evs = [now]
  /\ forall channel t value, EvPushBack channel t value ∈ evs -> t = now.
Proof.
  destruct (run_trace fuel fl sb ports arrivals now st) as (body & Hevs & Hbody & _).
  destruct (run fuel fl sb ports arrivals now st) as [[st' evs] fin].
  cbn [fst snd] in Hevs. subst evs. split.
  - rewrite !clock_reads_app, (clock_reads_drain now body) by done.
    by destruct (advance sb), fin.
  - intros channel t value Hin.
    rewrite !elem_of_app in Hin. destruct Hin as [Hin|[Hin|[Hin|Hin]]].
    + destruct (advance sb); not_in_literal Hin.
    + not_in_literal Hin.
    + rewrite Forall_forall in Hbody. apply (Hbody _ Hin).
    + destruct fin; not_in_literal Hin.
Qed.

(** C1 (as amended).  The pending count is sampled again after every read, so
    one tick drains the text-logging port until it is found empty: the number
    of messages consumed is bounded by the queue depth at tick start plus the
    number of messages that arrive while the tick runs, and equals that sum
    when the tick returns.  When messages stop arriving after finitely many
    iterations the tick returns; in particular, with no arrival during the
    tick it consumes exactly the depth sampled at tick start. *)
Theorem tick_drains_until_empty fuel fl sb ports arrivals now st :
  let '(st', evs, finished) := @run scalar fuel fl sb ports arrivals now st in
  let depth := length (m_textLoggingPort st) in
  messages_read evs <= depth + arrived arrivals 0 (messages_read evs)
  /\ (finished = true ->
      m_textLoggingPort st' = []
      /\ messages_read evs = depth + arrived arrivals 0 (messages_read evs))
  /\ (forall n, (forall j, n <= j -> arrivals j = []) ->
      depth + arrived arrivals 0 n < fuel ->
      finished = true /\ messages_read evs <= depth + arrived arrivals 0 n).
Proof.
  destruct (run_trace fuel fl sb ports arrivals now st)
    as (body & Hevs & Hbody & Hreads & Hfin & Hport).
  pose proof (@drain_text_reads scalar fuel arrivals 0 now (m_textLogsStoredInManager st)
                (m_textLoggingPort st)) as Hd.
  destruct (run fuel fl sb ports arrivals now st) as [[st' evs] fin].
  destruct (drain_text _ _ _ _ _ _ _) as [[[stored port] evs_t] fin'].
  cbn [fst snd] in *. subst fin'. rewrite Hport.
  assert (Hall : messages_read evs = messages_read evs_t).
  { subst evs. rewrite !messages_read_app, Hreads.
    unfold messages_read at 1 2 4. by destruct (advance sb), fin. }
  rewrite Hall. destruct Hd as (Hle & Hdone & Hterm).
  split; [done|]. split; [done|].
  intros n Hquiet Hfuel. specialize (Hterm n Hquiet).
  rewrite Nat.sub_0_r in Hterm. split; [by apply Hterm|].
  pose proof (arrived_le arrivals n 0 (messages_read evs_t) Hquiet) as Hmax.
  rewrite Nat.sub_0_r in Hmax. lia.
Qed.

(** C8.  For every valid text-log message the channel key is the composite
    portSystem::portPrefix::processName::p<pid> in which every ['-'] has been
    replaced by ['_'].  If the key has not been seen, the channel is added
    and the key recorded before the sample is appended; otherwise the sample
    is appended and nothing is created.  Recorded keys stay recorded, so a
    later valid message with the same key only appends. *)
Theorem text_log_channel_created_once (stored : gset name) (time : Z)
    (msg : TextLoggingEntry) :
  isValid msg = true ->
  let key := StdString.replace_char "-" "_"
               (portSystem msg ++ std_string "::" ++ portPrefix msg ++ std_string "::"
                  ++ processName msg ++ std_string "::p" ++ processPID msg) in
  exists stored',
    @store_text scalar stored time msg
    = Some (stored',
            (if decide (key ∈ stored) then [] else [EvAddChannel key 1 1])
            ++ [EvPushBack key time (Text msg)])
    /\ stored' = {[key]} ∪ stored
    /\ (forall later time' msg',
          stored' ⊆ later -> isValid msg' = true -> sanitized_key msg' = key ->
          @store_text scalar later time' msg'
          = Some (later, [EvPushBack key time' (Text msg')])).
Proof.
  intros Hv key. fold (composite_key msg) in key. fold (sanitized_key msg) in key.
  exists ({[key]} ∪ stored). split; [|split; [done|]].
  - rewrite store_text_valid by done. fold key.
    destruct (decide (key ∈ stored)) as [Hin|Hin].
    + rewrite !decide_True by exact Hin.
      rewrite (subseteq_union_1_L {[key]} stored); [done|].
      by apply singleton_subseteq_l.
    + by rewrite !decide_False by exact Hin.
  - intros later time' msg' Hsub Hv' Hkey.
    rewrite store_text_valid by done. rewrite Hkey.
    assert (Hin : key ∈ later) by (by apply Hsub, elem_of_union_l, elem_of_singleton).
    by rewrite !decide_True by exact Hin.
Qed.

End RunClaims.

Lemma text_log_channel_created_once_witness :
  isValid (Samples.entry "first") = true
  /\ exists stored',
       @store_text Z ∅ 7 (Samples.entry "first")
       = Some (stored',
               (if decide (std_string "log::icub_head::wb_controller::p4242"
                             ∈ (∅ : gset name))
                then [] else [EvAddChannel (std_string "log::icub_head::wb_controller::p4242") 1 1])
               ++ [EvPushBack (std_string "log::icub_head::wb_controller::p4242") 7
                     (Text (Samples.entry "first"))])
       /\ stored' = {[std_string "log::icub_head::wb_controller::p4242"]} ∪ ∅
       /\ (forall later time' msg',
             stored' ⊆ later -> isValid msg' = true ->
             sanitized_key msg' = std_string "log::icub_head::wb_controller::p4242" ->
             @store_text Z later time' msg'
             = Some (later, [EvPushBack (std_string "log::icub_head::wb_controller::p4242")
                               time' (Text msg')])).
Proof.
  split; [reflexivity|].
  exact (@text_log_channel_created_once Z ∅ 7 (Samples.entry "first") eq_refl).
Defined.

(** The calls of a tick on the sample robot, with one text-log message
    pending and none arriving. *)
Example tick_trace :
  (run 10 Samples.flags Samples.bridge Samples.no_ports Samples.quiet 42
     Samples.one_pending).1.2
  = [EvNow 42; EvLock BufferManagerMutex;
     EvPushBack (std_string "joints_state::positions") 42 (Vector Samples.joints);
     EvPushBack (std_string "joints_state::velocities") 42 (Vector Samples.joints);
     EvPushBack (std_string "joints_state::accelerations") 42 (Vector Samples.joints);
     EvPushBack (std_string "joints_state::torques") 42 (Vector Samples.joints);
     EvTextRead (Some (Samples.entry "first"));
     EvAddChannel (std_string "log::icub_head::wb_controller::p4242") 1 1;
     EvPushBack (std_string "log::icub_head::wb_controller::p4242") 42
       (Text (Samples.entry "first"));
     EvUnlock BufferManagerMutex].
Proof. vm_compute. reflexivity. Qed.

(** C1 as stated fails: one message is pending when the tick starts and the
    producer delivers one more during each of the first three iterations of
    the loop; the tick consumes four messages. *)
Lemma tick_drains_more_than_pending :
  let '(_, evs, finished) :=
    run 10 Samples.flags Samples.bridge Samples.no_ports Samples.three_more 0
      Samples.one_pending in
  length (m_textLoggingPort Samples.one_pending) = 1
  /\ finished = true
  /\ messages_read evs = 4.
Proof. vm_compute. done. Qed.

(** A producer that delivers a message during every iteration keeps the tick
    in the loop: whatever the number of iterations allowed, the loop has not
    been left and that many messages have been consumed. *)
Lemma tick_never_ends_under_load (fuel : nat) :
  let '(_, evs, finished) :=
    @drain_text Z fuel (fun _ => [Samples.entry "more"]) 0 0 ∅ [Samples.entry "first"] 1 in
  finished = false /\ messages_read evs = fuel.
Proof.
  assert (H : forall k stored msg,
    let '(_, evs, finished) :=
      @drain_text Z fuel (fun _ => [Samples.entry "more"]) k 0 stored [msg] 1 in
    finished = false /\ messages_read evs = fuel).
  { induction fuel as [|fuel IH]; intros k stored msg; [done|].
    cbn [drain_text]. rewrite decide_True by lia.
    destruct (store_text_total (scalar := Z) stored 0 msg) as [[stored' evs] Hst].
    rewrite Hst. simpl app.
    specialize (IH (S k) stored' (Samples.entry "more")).
    change (length [Samples.entry "more"]) with 1.
    destruct (drain_text _ _ _ _ _ _ _) as [[[s'' p''] evs'] fin].
    destruct IH as [-> Hn]. split; [done|].
    change (EvTextRead (Some msg) :: evs ++ evs')
      with ([EvTextRead (Some msg)] ++ evs ++ evs').
    rewrite !messages_read_app, (messages_read_sample 0 evs), Hn
      by (by eapply store_text_sample).
    done. }
  apply H.
Qed.

(** ** Rotation: [saveCallback] *)
Section RotationFacts.

Context {Mat : Type} `{MatOps Mat}.
Implicit Types (st : CameraState Mat).

Lemma reported_trans b st st1 st2 :
  errors st1 = errors st -> reported b st1 st2 -> reported b st st2.
Proof. unfold reported. intros ->. done. Qed.

Lemma saveVideo_or_log_reported fileName s camera st b st' :
  saveVideo_or_log fileName s camera st = Returned (b, st') -> reported b st st'.
Proof.
  unfold saveVideo_or_log, saveVideo, writers_at, reported.
  intros Heq. repeat (case_match; simplify_eq /=); eauto.
  all: eexists [_; _]; split; [done|by rewrite <- app_assoc].
Qed.

Lemma openVideoWriter_reported s camera dims st :
  reported (openVideoWriter s camera dims st).1 st (openVideoWriter s camera dims st).2.
Proof.
  unfold openVideoWriter, reported.
  repeat (case_match; simplify_eq /=); eauto; by eexists [_].
Qed.

Lemma createFramesFolder_reported s camera st :
  reported (createFramesFolder s camera st).1 st (createFramesFolder s camera st).2.
Proof.
  unfold createFramesFolder, reported.
  repeat (case_match; simplify_eq /=); eauto; by eexists [_].
Qed.

Lemma writers_at_errors camera st : errors (writers_at camera st).1 = errors st.
Proof. unfold writers_at. by case_match. Qed.

Lemma reopen_reported s camera dims st b st' :
  reopen s camera dims st = Returned (b, st') -> reported b st st'.
Proof.
  unfold reopen. pose proof (writers_at_errors camera st) as He.
  destruct (writers_at camera st) as [st0 w]. simpl in He.
  destruct (saver_of s w) as [saver|]; [|done].
  destruct (saveMode saver).
  - pose proof (createFramesFolder_reported s camera st0) as Hr.
    destruct (createFramesFolder s camera st0) as [[] st1]; simpl in Hr; intros [= <- <-].
    + by eapply reported_trans.
    + destruct Hr as (msgs & _ & Hr). exists (msgs ++ [std_string "saveCallback: unable to create the folder"]).
      split; [by destruct msgs|]. simpl. by rewrite Hr, He, <- app_assoc.
  - pose proof (openVideoWriter_reported s camera dims st0) as Hr.
    destruct (openVideoWriter s camera dims st0) as [[] st1]; simpl in Hr; intros [= <- <-].
    + by eapply reported_trans.
    + destruct Hr as (msgs & _ & Hr). exists (msgs ++ [std_string "saveCallback: unable to open a video writer"]).
      split; [by destruct msgs|]. simpl. by rewrite Hr, He, <- app_assoc.
Qed.

Lemma and_then_reported r k st b st' :
  (forall b1 st1, r = Returned (b1, st1) -> reported b1 st st1) ->
  (forall st1 b2 st2, k st1 = Returned (b2, st2) -> reported b2 st1 st2) ->
  and_then r k = Returned (b, st') -> reported b st st'.
Proof.
  intros Hr Hk. unfold and_then. destruct r as [[[] st1]|]; [| |done].
  - intros Heq. specialize (Hr true st1 eq_refl). specialize (Hk st1 b st' Heq).
    by eapply reported_trans.
  - intros [= <- <-]. by apply Hr.
Qed.

Lemma rotate_rgb_camera_reported fileName method camera st b st' :
  rotate_rgb_camera fileName method camera st = Returned (b, st') -> reported b st st'.
Proof.
  unfold rotate_rgb_camera. apply and_then_reported.
  - intros b1 st1. apply saveVideo_or_log_reported.
  - intros st1 b2 st2. destruct method.
    + apply reopen_reported.
    + by intros [= <- <-].
Qed.

Lemma rotate_rgbd_camera_reported fileName method camera st b st' :
  rotate_rgbd_camera fileName method camera st = Returned (b, st') -> reported b st st'.
Proof.
  unfold rotate_rgbd_camera. apply and_then_reported.
  { intros b1 st1. apply saveVideo_or_log_reported. }
  intros st1 b2 st2. apply and_then_reported.
  { intros b1 st3. apply saveVideo_or_log_reported. }
  intros st3 b3 st4. destruct method; [|by intros [= <- <-]].
  apply and_then_reported.
  - intros b1 st5. apply reopen_reported.
  - intros st5 b4 st6. apply reopen_reported.
Qed.



(** The lists of cameras are not touched by the steps of the rotation. *)
Lemma for_cameras_lists (body : name -> CameraState Mat -> outcome (bool * CameraState Mat))
    cameras st b st' :
  (forall camera st b st', body camera st = Returned (b, st') ->
     m_rgbdCamerasList st' = m_rgbdCamerasList st) ->
  for_cameras body cameras st = Returned (b, st') ->
  m_rgbdCamerasList st' = m_rgbdCamerasList st.
Proof.
  intros Hbody. revert st. induction cameras as [|c cameras IH]; intros st; simpl.
  - by intros [= <- <-].
  - destruct (body c st) as [[[] st1]|] eqn:Hc; simpl; [|by intros [= <- <-]; eauto|done].
    intros Hrest. rewrite (IH _ Hrest). eauto.
Qed.

Lemma rotate_rgb_camera_lists fileName method camera st b st' :
  rotate_rgb_camera fileName method camera st = Returned (b, st') ->
  m_rgbdCamerasList st' = m_rgbdCamerasList st.
Proof.
  unfold rotate_rgb_camera, and_then, saveVideo_or_log, saveVideo, reopen,
    openVideoWriter, createFramesFolder, writers_at.
  intros Heq. repeat (case_match; simplify_eq /=); done.
Qed.

End RotationFacts.

(** ** A rotation seen from one stream

    What the steps of [saveCallback] do to the frames folder of a stream
    saved frame by frame: the steps of the other streams leave it alone, its
    own [saveVideo] moves it, its own reopening creates a new one. *)
Section RotationEvent.

Context {Mat : Type} `{MatOps Mat}.
Implicit Types (st : CameraState Mat).

Variables (fileName camera : name) (s : stream).

Lemma and_then_true (r : outcome (bool * CameraState Mat))
    (k : CameraState Mat -> outcome (bool * CameraState Mat)) st' :
  and_then r k = Returned (true, st') ->
  exists st1, r = Returned (true, st1) /\ k st1 = Returned (true, st').
Proof.
  unfold and_then. destruct r as [[[] st1]|]; [|done|done]. intros Hk. by exists st1.
Qed.

Lemma saver_seen_store (c' : name) (s' : stream) (i : ImageSaver Mat) st :
  (c', s') <> (camera, s) ->
  saver_seen camera s (store_saver c' s' i st) = saver_seen camera s st.
Proof.
  intros Hne. unfold saver_seen, store_saver. cbn [m_videoWriters with_writers].
  destruct (decide (c' = camera)) as [->|Hc].
  - rewrite lookup_alter_eq. destruct (m_videoWriters st !! camera) as [w|]; [|done].
    cbn. f_equal. destruct s, s'; done.
  - by rewrite lookup_alter_ne.
Qed.

Lemma saver_seen_store_own (i : ImageSaver Mat) st (w : VideoWriter Mat) :
  m_videoWriters st !! camera = Some w ->
  saver_seen camera s (store_saver camera s i st) = Some (Some i).
Proof.
  intros Hw. unfold saver_seen, store_saver. cbn [m_videoWriters with_writers].
  rewrite lookup_alter_eq, Hw. cbn. f_equal. by destruct s.
Qed.

Lemma saver_seen_with_files (f : gmap name (node Mat)) st :
  saver_seen camera s (with_files f st) = saver_seen camera s st.
Proof. done. Qed.

Lemma apart_paths (cs : name * stream) (path : name) :
  apart fileName camera s cs -> path ∈ rotation_paths fileName cs ->
  path <> output_name camera s /\ path <> rotated_folder fileName camera s.
Proof. intros [Hout Hrot] Hin. split; intros ->; [by apply Hout|by apply Hrot]. Qed.

(** [saveVideo] of another stream. *)
Lemma saveVideo_apart (c' : name) (s' : stream) st st' :
  (c', s') <> (camera, s) -> apart fileName camera s (c', s') ->
  saveVideo_or_log fileName s' c' st = Returned (true, st') ->
  untouched fileName camera s st st'.
Proof.
  intros Hne Hapart.
  destruct (apart_paths (c', s') (output_name c' s') Hapart) as [Ho1 Ho2];
    [set_solver|].
  destruct (apart_paths (c', s') (video_file c' s') Hapart) as [Hv1 Hv2]; [set_solver|].
  destruct (apart_paths (c', s') (rotated_folder fileName c' s') Hapart) as [Hr1 Hr2];
    [set_solver|].
  destruct (apart_paths (c', s') (rotated_video fileName c' s') Hapart) as [Hx1 Hx2];
    [set_solver|].
  unfold rotated_video, video_file in *.
  unfold saveVideo_or_log, saveVideo, writers_at, fs_rename, untouched.
  change (fileName ++ std_string "_" ++ c' ++ std_string "_" ++ stream_name s')
    with (rotated_folder fileName c' s').
  destruct (m_videoWriters st !! c') as [w|] eqn:Hw;
    [|by replace (saver_of s' VideoWriter_default) with (@None (ImageSaver Mat))
        by (by destruct s')].
  intros Heq. repeat (case_match; simplify_eq /=);
    rewrite ?saver_seen_with_files, ?saver_seen_store by done;
    rewrite ?lookup_insert_ne, ?lookup_delete_ne by done; done.
Qed.

(** The reopening of another stream. *)
Lemma reopen_apart (c' : name) (s' : stream) (dims : gmap name (nat * nat)) st st' :
  (c', s') <> (camera, s) -> apart fileName camera s (c', s') ->
  reopen s' c' dims st = Returned (true, st') ->
  untouched fileName camera s st st'.
Proof.
  intros Hne Hapart.
  destruct (apart_paths (c', s') (output_name c' s') Hapart) as [Ho1 Ho2];
    [set_solver|].
  destruct (apart_paths (c', s') (video_file c' s') Hapart) as [Hv1 Hv2]; [set_solver|].
  unfold video_file in *.
  unfold reopen, openVideoWriter, createFramesFolder, fs_create_directory, writers_at,
    untouched.
  destruct (m_videoWriters st !! c') as [w|] eqn:Hw;
    [|by replace (saver_of s' VideoWriter_default) with (@None (ImageSaver Mat))
        by (by destruct s')].
  intros Heq. repeat (case_match; simplify_eq /=);
    rewrite ?saver_seen_with_files, ?saver_seen_store by done;
    rewrite ?lookup_insert_ne by done; done.
Qed.

Variables (images : list (name * Mat)) (encoder : option cvVideoWriter)
  (before : option (node Mat)).

Hypothesis Hnames : rotated_folder fileName camera s <> output_name camera s.

Lemma untouched_waiting st st' :
  untouched fileName camera s st st' ->
  waiting fileName camera s images encoder before st ->
  waiting fileName camera s images encoder before st'.
Proof.
  intros (Ho & Hr & Hs) (Hout & Hrot & Hsaver). unfold waiting. by rewrite Ho, Hr, Hs.
Qed.

Lemma untouched_moved left st st' :
  untouched fileName camera s st st' ->
  moved fileName camera s images encoder before left st ->
  moved fileName camera s images encoder before left st'.
Proof.
  intros (Ho & Hr & Hs) (Hout & Hrot & Hsaver). unfold moved. by rewrite Ho, Hr, Hs.
Qed.

(** [saveVideo] of the stream itself: the rename can only have succeeded on
    a free name or on an empty folder. *)
Lemma saveVideo_moves st st' :
  waiting fileName camera s images encoder before st ->
  saveVideo_or_log fileName s camera st = Returned (true, st') ->
  moved fileName camera s images encoder before None st'.
Proof.
  intros (Hout & Hrot & saver & Hseen & Hmode & Hwriter).
  pose proof Hseen as Hsaver. unfold saver_seen in Hsaver.
  destruct (m_videoWriters st !! camera) as [w|] eqn:Hw; [|done].
  cbn in Hsaver. injection Hsaver as Hsaver.
  unfold saveVideo_or_log, saveVideo, writers_at. rewrite Hw, Hsaver, Hmode.
  unfold fs_rename.
  change (fileName ++ std_string "_" ++ camera ++ std_string "_" ++ stream_name s)
    with (rotated_folder fileName camera s).
  rewrite Hout, Hrot. rewrite decide_False by done.
  assert (Hstill : forall f, saver_seen camera s (with_files f st) = Some (Some saver))
    by (intros f; exact Hseen).
  destruct before as [[frames|[|image others]|]|];
    intros Heq; simplify_eq /=; unfold moved; cbn [files with_files];
    rewrite lookup_insert_eq, lookup_insert_ne, lookup_delete_eq by done;
    (split; [done|]); (split; [done|]); (split; [by auto|]); by exists saver.
Qed.

(** The reopening of the stream itself. *)
Lemma reopen_creates (dims : gmap name (nat * nat)) st st' :
  moved fileName camera s images encoder before None st ->
  reopen s camera dims st = Returned (true, st') ->
  moved fileName camera s images encoder before (Some (Folder [])) st'.
Proof.
  intros (Hout & Hrot & Hbefore & saver & Hseen & Hmode & Hwriter).
  pose proof Hseen as Hsaver. unfold saver_seen in Hsaver.
  destruct (m_videoWriters st !! camera) as [w|] eqn:Hw; [|done].
  cbn in Hsaver. injection Hsaver as Hsaver.
  unfold reopen, writers_at. rewrite Hw, Hsaver, Hmode.
  unfold createFramesFolder. rewrite Hw, Hsaver.
  intros [= <-]. unfold moved.
  rewrite saver_seen_with_files, (saver_seen_store_own _ _ w Hw).
  cbn [files with_files]. change (files (store_saver ?c ?s0 ?i st)) with (files st).
  unfold fs_create_directory. rewrite Hout.
  rewrite lookup_insert_eq, lookup_insert_ne by done.
  split; [done|]. split; [done|]. split; [done|].
  eexists. split; [done|]. done.
Qed.

End RotationEvent.

Section RotationSteps.

Context {Mat : Type} `{MatOps Mat}.
Implicit Types (st : CameraState Mat).

Lemma untouched_refl fileName camera s st : untouched fileName camera s st st.
Proof. by unfold untouched. Qed.

Lemma untouched_trans fileName camera s st st1 st2 :
  untouched fileName camera s st st1 -> untouched fileName camera s st1 st2 ->
  untouched fileName camera s st st2.
Proof.
  intros (Ho & Hr & Hs) (Ho' & Hr' & Hs'). unfold untouched.
  by rewrite Ho', Hr', Hs', Ho, Hr, Hs.
Qed.

(** The step of the first loop for another camera. *)
Lemma rotate_rgb_apart fileName method camera s (c' : name) st st' :
  (c', RGB) <> (camera, s) -> apart fileName camera s (c', RGB) ->
  rotate_rgb_camera fileName method c' st = Returned (true, st') ->
  untouched fileName camera s st st'.
Proof.
  intros Hne Hapart Hstep. unfold rotate_rgb_camera in Hstep.
  apply and_then_true in Hstep as (st1 & Hsave & Hre).
  apply (saveVideo_apart fileName camera s) in Hsave; [|done..].
  destruct method.
  - apply (reopen_apart fileName camera s) in Hre; [|done..]. by eapply untouched_trans.
  - by injection Hre as <-.
Qed.

(** The step of the first loop for the camera itself. *)
Lemma rotate_rgb_own fileName method camera (images : list (name * Mat)) encoder before
    st st' :
  rotated_folder fileName camera RGB <> output_name camera RGB ->
  waiting fileName camera RGB images encoder before st ->
  rotate_rgb_camera fileName method camera st = Returned (true, st') ->
  moved fileName camera RGB images encoder before (left_behind method) st'.
Proof.
  intros Hnames Hwaiting Hstep. unfold rotate_rgb_camera in Hstep.
  apply and_then_true in Hstep as (st1 & Hsave & Hre).
  apply (saveVideo_moves _ _ _ _ _ _ Hnames _ _ Hwaiting) in Hsave.
  destruct method.
  - by apply (reopen_creates _ _ _ _ _ _ Hnames _ _ _ Hsave) in Hre.
  - by injection Hre as <-.
Qed.

(** The step of the second loop for another camera. *)
Lemma rotate_rgbd_apart fileName method camera s (c' : name) st st' :
  c' <> camera ->
  apart fileName camera s (c', RGB) -> apart fileName camera s (c', Depth) ->
  rotate_rgbd_camera fileName method c' st = Returned (true, st') ->
  untouched fileName camera s st st'.
Proof.
  intros Hne Hrgb Hdepth Hstep. unfold rotate_rgbd_camera in Hstep.
  assert (Hne' : forall s', (c', s') <> (camera, s)) by (intros s' [= ? _]; done).
  apply and_then_true in Hstep as (st1 & Hsave1 & Hstep).
  apply and_then_true in Hstep as (st2 & Hsave2 & Hstep).
  apply (saveVideo_apart fileName camera s) in Hsave1; [|done..].
  apply (saveVideo_apart fileName camera s) in Hsave2; [|done..].
  pose proof (untouched_trans _ _ _ _ _ _ Hsave1 Hsave2) as Hsaved.
  destruct method.
  - apply and_then_true in Hstep as (st3 & Hre1 & Hre2).
    apply (reopen_apart fileName camera s) in Hre1; [|done..].
    apply (reopen_apart fileName camera s) in Hre2; [|done..].
    eapply untouched_trans; [exact Hsaved|]. by eapply untouched_trans.
  - by injection Hstep as <-.
Qed.

(** The step of the second loop for the camera itself: the two streams are
    saved before either is reopened. *)
Lemma rotate_rgbd_own fileName method camera s (images : list (name * Mat)) encoder before
    st st' :
  rotated_folder fileName camera s <> output_name camera s ->
  (forall s', s' <> s -> apart fileName camera s (camera, s')) ->
  waiting fileName camera s images encoder before st ->
  rotate_rgbd_camera fileName method camera st = Returned (true, st') ->
  moved fileName camera s images encoder before (left_behind method) st'.
Proof.
  intros Hnames Hother Hwaiting Hstep. unfold rotate_rgbd_camera in Hstep.
  apply and_then_true in Hstep as (st1 & Hsave1 & Hstep).
  apply and_then_true in Hstep as (st2 & Hsave2 & Hstep).
  destruct s.
  - apply (saveVideo_moves _ _ _ _ _ _ Hnames _ _ Hwaiting) in Hsave1.
    apply (saveVideo_apart fileName camera RGB) in Hsave2; [|done|by apply Hother].
    pose proof (untouched_moved _ _ _ _ _ _ _ _ _ Hsave2 Hsave1) as Hmoved.
    destruct method; [|by injection Hstep as <-].
    apply and_then_true in Hstep as (st3 & Hre1 & Hre2).
    apply (reopen_creates _ _ _ _ _ _ Hnames _ _ _ Hmoved) in Hre1.
    apply (reopen_apart fileName camera RGB) in Hre2; [|done|by apply Hother].
    by apply (untouched_moved _ _ _ _ _ _ _ _ _ Hre2).
  - apply (saveVideo_apart fileName camera Depth) in Hsave1; [|done|by apply Hother].
    pose proof (untouched_waiting _ _ _ _ _ _ _ _ Hsave1 Hwaiting) as Hstill.
    apply (saveVideo_moves _ _ _ _ _ _ Hnames _ _ Hstill) in Hsave2.
    destruct method; [|by injection Hstep as <-].
    apply and_then_true in Hstep as (st3 & Hre1 & Hre2).
    apply (reopen_apart fileName camera Depth) in Hre1; [|done|by apply Hother].
    pose proof (untouched_moved _ _ _ _ _ _ _ _ _ Hre1 Hsave2) as Hmoved.
    by apply (reopen_creates _ _ _ _ _ _ Hnames _ _ _ Hmoved) in Hre2.
Qed.

(** A loop of [saveCallback] that has handled every camera of its list, seen
    from a stream that at most one step handles. *)
Lemma for_cameras_view fileName camera s (images : list (name * Mat)) encoder before left
    (body : name -> CameraState Mat -> outcome (bool * CameraState Mat))
    (streams : name -> list (name * stream)) :
  (forall c st st',
     (camera, s) ∉ streams c ->
     (forall cs, cs ∈ streams c -> apart fileName camera s cs) ->
     body c st = Returned (true, st') -> untouched fileName camera s st st') ->
  (forall c st st',
     (camera, s) ∈ streams c ->
     (forall cs, cs ∈ streams c -> cs <> (camera, s) -> apart fileName camera s cs) ->
     waiting fileName camera s images encoder before st ->
     body c st = Returned (true, st') ->
     moved fileName camera s images encoder before left st') ->
  forall cams st st',
    NoDup (flat_map streams cams) ->
    (forall cs, cs ∈ flat_map streams cams -> cs <> (camera, s) ->
       apart fileName camera s cs) ->
    for_cameras body cams st = Returned (true, st') ->
    (waiting fileName camera s images encoder before st ->
       ((camera, s) ∈ flat_map streams cams ->
          moved fileName camera s images encoder before left st')
       /\ ((camera, s) ∉ flat_map streams cams ->
             waiting fileName camera s images encoder before st'))
    /\ (moved fileName camera s images encoder before left st ->
        (camera, s) ∉ flat_map streams cams ->
        moved fileName camera s images encoder before left st').
Proof.
  intros Hothers Hown. induction cams as [|c cams IH]; intros st st' Hnodup Hapart.
  - cbn. intros [= <-]. split; [|done]. intros Hwaiting. split; [|done].
    by intros ?%elem_of_nil.
  - cbn [for_cameras flat_map] in *. apply NoDup_app in Hnodup as (Hc & Hdisjoint & Hrest).
    intros (st1 & Hstep & Hloop)%and_then_true.
    destruct (IH st1 st' Hrest) as [IHwaiting IHmoved]; [|done|].
    { intros cs Hcs. apply Hapart, elem_of_app. by right. }
    assert (Hskip : (camera, s) ∉ streams c -> untouched fileName camera s st st1).
    { intros Hnot. apply (Hothers c st st1 Hnot); [|done].
      intros cs Hcs. apply Hapart; [apply elem_of_app; by left|by intros ->]. }
    split.
    + intros Hwaiting. split.
      * intros [Hin|Hin]%elem_of_app.
        -- apply IHmoved; [|by apply Hdisjoint].
           apply (Hown c st st1 Hin); [|done..].
           intros cs Hcs. apply Hapart, elem_of_app. by left.
        -- assert (Hnot : (camera, s) ∉ streams c).
           { intros Hc'. by destruct (Hdisjoint _ Hc'). }
           pose proof (untouched_waiting _ _ _ _ _ _ _ _ (Hskip Hnot) Hwaiting) as Hstill.
           by apply (IHwaiting Hstill).
      * intros Hnot. apply not_elem_of_app in Hnot as [Hnot Hnot'].
        pose proof (untouched_waiting _ _ _ _ _ _ _ _ (Hskip Hnot) Hwaiting) as Hstill.
        by apply (IHwaiting Hstill).
    + intros Hmoved Hnot. apply not_elem_of_app in Hnot as [Hnot Hnot'].
      apply IHmoved; [|done].
      exact (untouched_moved _ _ _ _ _ _ _ _ _ (Hskip Hnot) Hmoved).
Qed.

Lemma status_file_apart (fileName camera : name) (s : stream) :
  status_file fileName <> output_name camera s
  /\ status_file fileName <> rotated_folder fileName camera s.
Proof.
  split.
  - unfold status_file, output_name. intros Heq. apply (f_equal last) in Heq.
    rewrite !app_assoc in Heq. rewrite !last_app in Heq. by destruct s.
  - unfold status_file, rotated_folder. by intros Heq%app_inv_head.
Qed.

End RotationSteps.

Section RotationClaims.

Context {Mat : Type} `{MatOps Mat}.
Implicit Types (st : CameraState Mat).


(** C4 (as amended).  A rotation/save event, that is a call of
    [saveCallback], that returns [true] has, for every camera stream in
    [Frame] save mode whose frames folder exists, renamed that folder, with
    the images written so far, to the name qualified by the rotation prefix.
    It has released no encoder: the stream is still in [Frame] mode with the
    writer it had.  After a periodic event a new, empty frames folder is under
    the original name, so every rotation gets a folder of its own; after the
    event at shutdown nothing is under the original name.  The event can
    only return when the qualified name was free or an empty folder before:
    otherwise renaming throws.  The stream is one of those the cameras' lists
    name, once, and no other stream of the lists uses its two folder names. *)
Theorem frame_folder_rotated (fileName : name) (method : SaveCallbackSaveMethod)
    (camera : name) (s : stream) st st'
    (w : VideoWriter Mat) (saver : ImageSaver Mat) (images : list (name * Mat)) :
  (camera, s) ∈ rotation_streams st ->
  NoDup (rotation_streams st) ->
  (forall cs, cs ∈ rotation_streams st -> cs <> (camera, s) -> apart fileName camera s cs) ->
  rotated_folder fileName camera s <> output_name camera s ->
  m_videoWriters st !! camera = Some w ->
  saver_of s w = Some saver ->
  saveMode saver = Frame ->
  files st !! output_name camera s = Some (Folder images) ->
  saveCallback fileName method st = Returned (true, st') ->
  (files st !! rotated_folder fileName camera s = None
   \/ files st !! rotated_folder fileName camera s = Some (Folder []))
  /\ files st' !! rotated_folder fileName camera s = Some (Folder images)
  /\ files st' !! output_name camera s = left_behind method
  /\ exists w' saver',
       m_videoWriters st' !! camera = Some w'
       /\ saver_of s w' = Some saver'
       /\ saveMode saver' = Frame
       /\ writer saver' = writer saver.
Proof.
  intros Hin Hnodup Hapart Hnames Hw Hsaver Hmode Hfolder Hcall.
  unfold saveCallback in Hcall.
  apply and_then_true in Hcall as (st1 & Hrgb & Hcall).
  apply and_then_true in Hcall as (st2 & Hrgbd & Hcall).
  injection Hcall as <-.
  assert (Hlist : m_rgbdCamerasList st1 = m_rgbdCamerasList st).
  { eapply for_cameras_lists; [|exact Hrgb].
    intros c sa b sb. apply rotate_rgb_camera_lists. }
  rewrite Hlist in Hrgbd.
  unfold rotation_streams in Hin, Hnodup, Hapart.
  apply NoDup_app in Hnodup as (Hnodup1 & Hdisjoint & Hnodup2).
  set (before := files st !! rotated_folder fileName camera s).
  assert (Hwaiting : waiting fileName camera s images (writer saver) before st).
  { unfold waiting, saver_seen. rewrite Hw. simpl. rewrite Hsaver.
    split; [done|]. split; [done|]. by exists saver. }
  destruct (for_cameras_view fileName camera s images (writer saver) before
              (left_behind method) (rotate_rgb_camera fileName method)
              (fun c => [(c, RGB)])) with (cams := m_rgbCamerasList st) (st := st) (st' := st1)
    as [Hwaiting1 _]; [| | done | | done |].
  { intros c sa sb Hnot Hap. apply rotate_rgb_apart.
    - intros Heq. apply Hnot. rewrite Heq. apply list_elem_of_singleton. done.
    - apply Hap, list_elem_of_singleton. done. }
  { intros c sa sb [= -> ->]%list_elem_of_singleton _. by apply rotate_rgb_own. }
  { intros cs Hcs. apply Hapart, elem_of_app. by left. }
  destruct (for_cameras_view fileName camera s images (writer saver) before
              (left_behind method) (rotate_rgbd_camera fileName method)
              (fun c => [(c, RGB); (c, Depth)])) with (cams := m_rgbdCamerasList st)
              (st := st1) (st' := st2)
    as [Hwaiting2 Hmoved2]; [| | done | | done |].
  { intros c sa sb Hnot Hap. apply rotate_rgbd_apart.
    - intros ->. apply Hnot. destruct s; [left|right; left].
    - apply Hap. left.
    - apply Hap. right; left. }
  { intros c sa sb Hown Hap. assert (c = camera) as ->.
    { apply elem_of_cons in Hown as [[= -> _]|Hown]; [done|].
      by apply list_elem_of_singleton in Hown as [= -> _]. }
    apply rotate_rgbd_own; [done|].
    intros s' Hne. apply Hap; [|by intros [= ?]].
    destruct s'; [left|right; left]. }
  { intros cs Hcs. apply Hapart, elem_of_app. by right. }
  assert (Hmoved : moved fileName camera s images (writer saver) before
                     (left_behind method) st2).
  { destruct (Hwaiting1 Hwaiting) as [Hthen1 Helse1].
    apply elem_of_app in Hin as [Hin|Hin].
    - apply Hmoved2; [by apply Hthen1|by apply Hdisjoint].
    - apply Hwaiting2; [|done]. apply Helse1.
      intros Hin'. by destruct (Hdisjoint _ Hin'). }
  destruct Hmoved as (Hout & Hrot & Hbefore & saver' & Hseen & Hmode' & Hwriter).
  destruct (status_file_apart fileName camera s) as [Hstatus1 Hstatus2].
  split; [exact Hbefore|].
  unfold write_status. simpl.
  change (fileName ++ std_string ".md") with (status_file fileName).
  rewrite !lookup_insert_ne by done.
  split; [done|]. split; [done|].
  unfold saver_seen in Hseen.
  destruct (m_videoWriters st2 !! camera) as [w'|] eqn:Hw'; [|done].
  simpl in Hseen. exists w', saver'. repeat split; [congruence|done|done].
Qed.

End RotationClaims.



(** A rename that throws ends the callback the same way: nothing is done for
    the second camera. *)
Example rotation_rename_throws :
  saveCallback (std_string "run1") periodic CameraSamples.lost_file = Thrown.
Proof. vm_compute. reflexivity. Qed.

Lemma frame_folder_rotated_witness :
  let st := CameraSamples.one_frame_camera in
  let image := (std_string "img_0.png", [7%Z]) in
  let st' := match saveCallback (std_string "run1") periodic st with
             | Returned (_, st') => st'
             | Thrown => st
             end in
  saveCallback (std_string "run1") periodic st = Returned (true, st')
  /\ files st !! output_name (std_string "cam") RGB = Some (Folder [image])
  /\ (files st !! rotated_folder (std_string "run1") (std_string "cam") RGB = None
      \/ files st !! rotated_folder (std_string "run1") (std_string "cam") RGB
         = Some (Folder []))
  /\ files st' !! rotated_folder (std_string "run1") (std_string "cam") RGB
     = Some (Folder [image])
  /\ files st' !! output_name (std_string "cam") RGB = Some (Folder [])
  /\ exists w' saver',
       m_videoWriters st' !! std_string "cam" = Some w'
       /\ saver_of RGB w' = Some saver'
       /\ saveMode saver' = Frame
       /\ writer saver' = None.
Proof.
  intros st image st'.
  assert (Hcall : saveCallback (std_string "run1") periodic st = Returned (true, st'))
    by (vm_compute; reflexivity).
  assert (Hw : m_videoWriters st !! std_string "cam"
               = Some {| rgb := Some (CameraSamples.frame_saver "output_cam_rgb");
                         depth := None; fps := 30%Z; depthScale := 1%Z |})
    by (vm_compute; reflexivity).
  assert (Hf : files st !! output_name (std_string "cam") RGB = Some (Folder [image]))
    by (vm_compute; reflexivity).
  assert (Hin : (std_string "cam", RGB) ∈ rotation_streams st)
    by (apply (bool_decide_unpack _); vm_compute; reflexivity).
  assert (Hnodup : NoDup (rotation_streams st))
    by (apply (bool_decide_unpack _); vm_compute; reflexivity).
  assert (Hapart : forall cs, cs ∈ rotation_streams st -> cs <> (std_string "cam", RGB) ->
            apart (std_string "run1") (std_string "cam") RGB cs).
  { intros cs Hcs Hne. apply list_elem_of_singleton in Hcs. done. }
  split; [exact Hcall|]. split; [exact Hf|].
  refine (frame_folder_rotated (std_string "run1") periodic (std_string "cam") RGB st st'
            _ _ [image] Hin Hnodup Hapart _ Hw eq_refl eq_refl Hf Hcall).
  discriminate.
Defined.

(** The event does not complete when the qualified name is taken by a folder
    with entries: [std::filesystem::rename] throws. *)
Example rotation_onto_used_folder_throws :
  let st := CameraSamples.taken_prefix in
  files st !! output_name (std_string "cam") RGB
  = Some (Folder [(std_string "img_0.png", [7%Z])])
  /\ files st !! rotated_folder (std_string "run1") (std_string "cam") RGB
     = Some (Folder [(std_string "img_9.png", [9%Z])])
  /\ saveCallback (std_string "run1") periodic st = Thrown
  /\ saveCallback (std_string "run1") last_call st = Thrown.
Proof. vm_compute. repeat split. Qed.

(** C4 as stated fails: a camera saved frame by frame has one image in its
    folder when a periodic rotation occurs.  Afterwards the image is in the
    folder named after the rotation, and the folder under the original name
    is a new, empty one; after the rotation at shutdown there is no folder
    under the original name at all. *)
Lemma frame_folder_not_left_in_place :
  let st := CameraSamples.one_frame_camera in
  let image := (std_string "img_0.png", [7%Z]) in
  files st !! std_string "output_cam_rgb" = Some (Folder [image])
  /\ match saveCallback (std_string "run1") periodic st with
     | Returned (ok, st') =>
         ok = true
         /\ files st' !! std_string "output_cam_rgb" = Some (Folder [])
         /\ files st' !! std_string "run1_cam_rgb" = Some (Folder [image])
     | Thrown => False
     end
  /\ match saveCallback (std_string "run1") last_call st with
     | Returned (ok, st') =>
         ok = true
         /\ files st' !! std_string "output_cam_rgb" = None
         /\ files st' !! std_string "run1_cam_rgb" = Some (Folder [image])
     | Thrown => False
     end.
Proof. vm_compute. repeat split. Qed.

(** ** The video worker [recordVideo] *)
Section VideoClaims.

Context {Mat : Type} `{MatOps Mat}.
Implicit Types (st : CameraState Mat).

Lemma store_saver_files camera s (saver : ImageSaver Mat) st :
  files (store_saver camera s saver st) = files st.
Proof. done. Qed.

(** C7.  When the camera bridge delivers a new image, a depth stream in
    [Video] mode appends to the file of its encoder the image multiplied by
    the depth scale and converted to 8 bits, and a depth stream in [Frame]
    mode writes the (scaled) image converted to 16 bits as the image file
    numbered by the current index; a colour stream writes the image as it
    is, in both modes. *)
Theorem recorded_frame_conversion (s : stream) (cameraName : name) (imageIndex time : Z)
    (image : Mat) st (w : VideoWriter Mat) (saver : ImageSaver Mat) :
  m_videoWriters st !! cameraName = Some w ->
  saver_of s w = Some saver ->
  let written :=
    match s, saveMode saver with
    | RGB, _ => image
    | Depth, Video => convertTo_8UC1 (mat_scale image (depthScale w))
    | Depth, Frame => convertTo_16UC1 (mat_scale image (depthScale w))
    end in
  let file := std_string "img_" ++ to_string imageIndex ++ std_string ".png" in
  match saveMode saver with
  | Video =>
      forall encoder frames,
        writer saver = Some encoder -> isOpened encoder = true ->
        files st !! filename encoder = Some (VideoFile frames) ->
        exists st' evs,
          record_stream s cameraName imageIndex time (Some image) st = Returned (st', evs)
          /\ files st' !! filename encoder = Some (VideoFile (frames ++ [written]))
  | Frame =>
      forall images,
        files st !! framesPath saver = Some (Folder images) ->
        exists st' evs,
          record_stream s cameraName imageIndex time (Some image) st = Returned (st', evs)
          /\ files st' !! framesPath saver
             = Some (Folder (filter (fun kv => kv.1 <> file) images ++ [(file, written)]))
  end.
Proof.
  intros Hw Hsaver written file.
  destruct (saveMode saver) eqn:Hmode.
  - intros images Hfolder. unfold record_stream. rewrite Hw, Hsaver.
    unfold save_frame. simpl. rewrite Hmode. do 2 eexists. split; [reflexivity|].
    simpl. unfold cv_imwrite. rewrite Hfolder, lookup_insert_eq.
    subst written file. by destruct s.
  - intros encoder frames Hwriter Hopen Hfile. unfold record_stream. rewrite Hw, Hsaver.
    unfold save_frame. simpl. rewrite Hmode, Hwriter. do 2 eexists. split; [reflexivity|].
    simpl. unfold cv_write. rewrite Hopen, Hfile, lookup_insert_eq.
    subst written. by destruct s.
Qed.

(** When the getter fails the frame kept from the previous iteration is
    written again; it is not scaled a second time. *)
Lemma recorded_frame_reused (cameraName : name) (imageIndex time : Z)
    st (w : VideoWriter Mat) (saver : ImageSaver Mat) encoder frames :
  m_videoWriters st !! cameraName = Some w ->
  depth w = Some saver ->
  saveMode saver = Video ->
  writer saver = Some encoder -> isOpened encoder = true ->
  files st !! filename encoder = Some (VideoFile frames) ->
  exists st' evs,
    record_stream Depth cameraName imageIndex time None st = Returned (st', evs)
    /\ files st' !! filename encoder
       = Some (VideoFile (frames ++ [convertTo_8UC1 (frame saver)])).
Proof.
  intros Hw Hsaver Hmode Hwriter Hopen Hfile. unfold record_stream. rewrite Hw. simpl.
  rewrite Hsaver. unfold save_frame. simpl. rewrite Hmode, Hwriter.
  do 2 eexists. split; [reflexivity|].
  simpl. unfold cv_write. by rewrite Hopen, Hfile, lookup_insert_eq.
Qed.

End VideoClaims.

Lemma recorded_frame_conversion_witness :
  let st := CameraSamples.rgbd_camera Video in
  let w := {| rgb := Some (CameraSamples.video_saver "output_d435_rgb.mp4");
              depth := Some (CameraSamples.video_saver "output_d435_depth.mp4");
              fps := 30%Z; depthScale := 1000%Z |} in
  m_videoWriters st !! std_string "d435" = Some w
  /\ saver_of Depth w = Some (CameraSamples.video_saver "output_d435_depth.mp4")
  /\ files st !! std_string "output_d435_depth.mp4" = Some (VideoFile [])
  /\ exists st' evs,
       record_stream Depth (std_string "d435") 0 5 (Some [0; 1; 2]%Z) st
       = Returned (st', evs)
       /\ files st' !! std_string "output_d435_depth.mp4"
          = Some (VideoFile ([] ++ [convertTo_8UC1 (mat_scale [0; 1; 2]%Z 1000%Z)])).
Proof.
  intros st w.
  assert (Hw : m_videoWriters st !! std_string "d435" = Some w) by (vm_compute; reflexivity).
  assert (Hfile : files st !! std_string "output_d435_depth.mp4" = Some (VideoFile []))
    by (vm_compute; reflexivity).
  split; [exact Hw|]. split; [reflexivity|]. split; [exact Hfile|].
  exact (recorded_frame_conversion Depth (std_string "d435") 0 5 [0; 1; 2]%Z st w
           (CameraSamples.video_saver "output_d435_depth.mp4") Hw eq_refl
           {| filename := std_string "output_d435_depth.mp4"; isOpened := true |} []
           eq_refl eq_refl Hfile).
Defined.

(** On the sample camera: the depth image [0; 1; 2] scaled by 1000 and cut to
    8 bits is what the video file receives, and scaled and cut to 16 bits is
    what the image file holds. *)
Example record_depth_video :
  match recordVideo_iteration 33333333 (std_string "d435") 5 (Some [9%Z]) (Some [0; 1; 2]%Z)
          {| clocks := Schedule.start 0; imageIndex := 0 |}
          (CameraSamples.rgbd_camera Video) with
  | Returned (_, st, _) =>
      files st !! std_string "output_d435_rgb.mp4" = Some (VideoFile [[9%Z]])
      /\ files st !! std_string "output_d435_depth.mp4" = Some (VideoFile [[0; 255; 255]%Z])
  | Thrown => False
  end.
Proof. vm_compute. done. Qed.

Example record_depth_frame :
  match recordVideo_iteration 33333333 (std_string "d435") 5 (Some [9%Z]) (Some [0; 1; 2; 70]%Z)
          {| clocks := Schedule.start 0; imageIndex := 12 |}
          (CameraSamples.rgbd_camera Frame) with
  | Returned (l, st, evs) =>
      files st !! std_string "output_d435_depth"
      = Some (Folder [(std_string "img_12.png", [0; 1000; 2000; 65535]%Z)])
      /\ imageIndex l = 13%Z
      /\ evs = [VLock (ImageSaverMutex (std_string "d435") (std_string "rgb"));
                VUnlock (ImageSaverMutex (std_string "d435") (std_string "rgb"));
                VLock BufferManagerMutex;
                VPushBack (std_string "camera::d435::depth") 5 5;
                VUnlock BufferManagerMutex]
  | Thrown => False
  end.
Proof. vm_compute. done. Qed.

(** ** Configuration: [open] *)
Section OpenFacts.

Context {Mat : Type} `{MatOps Mat}.
Implicit Types (st : CameraState Mat) (d : Device Mat).

(** The loop of [populateCamerasData] gives up at a frame rate that is not
    positive, whatever happened at the cameras before it. *)
Lemma populate_loop_rejects kind n i fps depthScale rgbSaveMode depthSaveMode cameraNames
    ok st j :
  i <= j < i + n -> (fps !!! j <= 0)%Z ->
  (populate_loop kind n i fps depthScale rgbSaveMode depthSaveMode cameraNames ok st).1
  = false.
Proof.
  revert i ok st. induction n as [|n IH]; intros i ok st Hj Hbad; [lia|].
  cbn [populate_loop]. destruct (decide (fps !!! i <= 0)%Z) as [|Hgood]; [done|].
  assert (i <> j) by (intros ->; done).
  destruct kind; apply IH; (lia || done).
Qed.

Lemma populateCamerasData_rejects p kind cameraNames st fps x :
  match kind with RGBCameras => rgb_cameras_fps p | RGBDCameras => rgbd_cameras_fps p end
  = Some fps ->
  x ∈ fps -> (x <= 0)%Z ->
  (populateCamerasData p kind cameraNames st).1 = false.
Proof.
  intros Hfps (j & Hj)%list_elem_of_lookup Hx.
  assert (Hjlt : 0 <= j < 0 + length fps) by (apply lookup_lt_Some in Hj; lia).
  assert (Hbad : (fps !!! j <= 0)%Z) by (by rewrite (list_lookup_total_correct _ _ _ Hj)).
  unfold populateCamerasData. rewrite Hfps.
  destruct kind; repeat (case_match; try done); by eapply populate_loop_rejects.
Qed.

Lemma populate_enabled_rejects p kind cameraNames st fps x :
  match kind with RGBCameras => rgb_cameras_fps p | RGBDCameras => rgbd_cameras_fps p end
  = Some fps ->
  x ∈ fps -> (x <= 0)%Z ->
  (populate_enabled p kind true cameraNames st).1 = false.
Proof.
  intros Hfps Hin Hx. unfold populate_enabled.
  pose proof (populateCamerasData_rejects p kind cameraNames st fps x Hfps Hin Hx) as Hr.
  destruct (populateCamerasData p kind cameraNames st) as [ok st']. simpl in Hr.
  by rewrite Hr.
Qed.

(** [open] starts no thread. *)
Lemma open_workers p d : workers (open p d).2 = workers d.
Proof.
  unfold open, open_telemetry, with_cameras.
  repeat (case_match; simplify_eq /=); done.
Qed.

(** C9 (as amended).  When the camera bridge has been set up, [open] returns
    [false], having started no worker thread, whenever a frame rate
    configured for an enabled kind of camera (RGB or RGBD) is zero or
    negative, or whenever at least one kind of camera is enabled and the
    'video_codec_code' parameter is provided with a length other than 4. *)
Theorem open_rejects_bad_camera_parameters (p : Parameters) d (md : CameraMetaData) :
  setupRobotCameraBridge p = Some md ->
  (isRGBCameraEnabled md = true
   /\ exists fps x, rgb_cameras_fps p = Some fps /\ x ∈ fps /\ (x <= 0)%Z)
  \/ (isRGBDCameraEnabled md = true
      /\ exists fps x, rgbd_cameras_fps p = Some fps /\ x ∈ fps /\ (x <= 0)%Z)
  \/ ((isRGBCameraEnabled md = true \/ isRGBDCameraEnabled md = true)
      /\ exists code, video_codec_code p = Some code /\ length code <> 4) ->
  (open p d).1 = false /\ workers (open p d).2 = workers d.
Proof.
  intros Hbridge Hbad. split; [|apply open_workers].
  unfold open. destruct (setupRobotSensorBridge p); [|done]. rewrite Hbridge.
  destruct Hbad as [[Hrgb (fps & x & Hfps & Hin & Hx)]
                   |[[Hrgbd (fps & x & Hfps & Hin & Hx)]
                    |[Henabled (code & Hcode & Hlen)]]].
  - rewrite Hrgb.
    pose proof (populate_enabled_rejects p RGBCameras (rgbCamerasList md) (cameras d)
                  fps x Hfps Hin Hx) as Hr.
    destruct (populate_enabled p RGBCameras true _ _) as [ok st]. simpl in Hr. by subst ok.
  - destruct (populate_enabled p RGBCameras _ _ _) as [[] st]; [|done].
    rewrite Hrgbd.
    pose proof (populate_enabled_rejects p RGBDCameras (rgbdCamerasList md) st
                  fps x Hfps Hin Hx) as Hr.
    destruct (populate_enabled p RGBDCameras true _ _) as [ok st']. simpl in Hr. by subst ok.
  - destruct (populate_enabled p RGBCameras _ _ _) as [[] st]; [|done].
    destruct (populate_enabled p RGBDCameras _ _ _) as [[] st']; [|done].
    replace (isRGBDCameraEnabled md || isRGBCameraEnabled md) with true
      by (by destruct Henabled as [-> | ->]; [rewrite orb_true_r|]).
    rewrite Hcode. by rewrite decide_True by done.
Qed.

End OpenFacts.

Lemma open_rejects_bad_camera_parameters_witness :
  let p := OpenSamples.one_stopped_camera in
  let md := {| isRGBCameraEnabled := true; isRGBDCameraEnabled := false;
               rgbCamerasList := [std_string "left"; std_string "right"];
               rgbdCamerasList := [] |} in
  setupRobotCameraBridge p = Some md
  /\ (isRGBCameraEnabled md = true
      /\ exists fps x, rgb_cameras_fps p = Some fps /\ x ∈ fps /\ (x <= 0)%Z)
  /\ (open p OpenSamples.fresh).1 = false
  /\ workers (open p OpenSamples.fresh).2 = workers OpenSamples.fresh.
Proof.
  intros p md.
  assert (Hbad : isRGBCameraEnabled md = true
                 /\ exists fps x, rgb_cameras_fps p = Some fps /\ x ∈ fps /\ (x <= 0)%Z).
  { split; [reflexivity|]. exists [30; 0]%Z, 0%Z. split; [reflexivity|].
    split; [|lia]. apply elem_of_cons. right. apply elem_of_cons. by left. }
  split; [reflexivity|]. split; [exact Hbad|].
  exact (open_rejects_bad_camera_parameters p OpenSamples.fresh md eq_refl (or_introl Hbad)).
Defined.

(** C9 as stated fails: without a camera bridge (the group is missing, or the
    bridge does not initialise), or with a bridge on which no kind of camera
    is enabled, [open] does not look at the frame rates or at the codec, and
    succeeds although a frame rate is zero and the codec has 3 characters. *)
Lemma open_ignores_cameras_when_disabled :
  rgb_cameras_fps (OpenSamples.without_cameras None) = Some [0%Z]
  /\ video_codec_code (OpenSamples.without_cameras None) = Some (std_string "abc")
  /\ (open (OpenSamples.without_cameras None) OpenSamples.fresh).1 = true
  /\ (open (OpenSamples.without_cameras (Some None)) OpenSamples.fresh).1 = true
  /\ (open (OpenSamples.without_cameras (Some (Some OpenSamples.disabled)))
        OpenSamples.fresh).1 = true.
Proof. vm_compute. done. Qed.

(** ** The store-wide lock *)
Section LockClaims.

Context {scalar Mat : Type} `{MatOps Mat}.

(** C3 (as amended).  In a Sampling Scheduler tick the store-wide lock is
    acquired once, right after the clock has been read, and released only
    when the tick returns: every sample appended and every channel created
    by the tick falls within that single hold.  A video worker holds the
    store-wide lock for the single append of a frame marker. *)
Theorem store_lock_held_across_tick fuel fl sb ports arrivals now st :
  (let '(_, evs, finished) := @run scalar fuel fl sb ports arrivals now st in
   exists pre body,
     evs = pre ++ [EvNow now; EvLock BufferManagerMutex] ++ body
           ++ (if finished then [EvUnlock BufferManagerMutex] else [])
     /\ Forall (fun e => ~ is_append e /\ ~ on_store_lock e) pre
     /\ Forall (fun e => ~ on_store_lock e) body
     /\ holds None evs = [body]
     /\ appended evs = appended body)
  /\ (forall s cameraName imageIndex time (saver : ImageSaver Mat) cst,
        saveMode saver = Frame ->
        exists cst' channel,
          save_frame s cameraName imageIndex time saver cst
          = Returned (cst', [VLock BufferManagerMutex;
                             VPushBack channel time time;
                             VUnlock BufferManagerMutex])).
Proof.
  split.
  - destruct (run_trace fuel fl sb ports arrivals now st) as (body & Hevs & Hbody & _).
    destruct (run fuel fl sb ports arrivals now st) as [[st' evs] fin].
    cbn [fst snd] in Hevs.
    exists (if advance sb then [] else [EvLogError (std_string "run")]), body.
    assert (Hfree : Forall (fun e : event scalar => ~ on_store_lock e) body).
    { eapply Forall_impl; [exact Hbody|]. apply drain_event_no_store_lock. }
    assert (Hpre : Forall (fun e : event scalar => ~ is_append e /\ ~ on_store_lock e)
                     (if advance sb then [] else [EvLogError (std_string "run")])).
    { destruct (advance sb); repeat constructor; simpl; tauto. }
    split; [done|]. split; [done|]. split; [done|]. subst evs. split.
    + rewrite holds_skip by (eapply Forall_impl; [exact Hpre|]; simpl; tauto).
      cbn [app holds]. rewrite holds_held by done. by destruct fin.
    + rewrite !appended_app. by destruct (advance sb), fin.
  - intros s cameraName imageIndex time saver cst Hmode.
    unfold save_frame. rewrite Hmode. by do 2 eexists.
Qed.

End LockClaims.

(** C3 as stated fails: in a tick that samples the four joint-state
    categories and stores one text-log message, the store-wide lock is taken
    once and all five appends are made before it is released. *)
Lemma store_lock_spans_the_tick :
  let '(_, evs, finished) :=
    run 10 Samples.flags Samples.bridge Samples.no_ports Samples.quiet 0
      Samples.one_pending in
  finished = true
  /\ exists held, holds None evs = [held] /\ appended held = 5 /\ appended evs = 5.
Proof. vm_compute. split; [done|]. eexists. repeat split. Qed.

(* ===================================================================== *)
(** * Part III: further properties of the code                            *)
(* ===================================================================== *)

#[local] Set Warnings "-clear-no-such-hyp,-level-tolerance".

(** ** More on [findAndReplaceAll] and [std::string::find] *)

Lemma find_from_start (data str : StdString.t) :
  StdString.find data str 0 = StdString.first_match str data.
Proof.
  unfold StdString.find. rewrite decide_True by lia. rewrite drop_0.
  by destruct (StdString.first_match str data).
Qed.

(** [find] answers a position exactly when the string occurs. *)
Lemma find_occurs (data str : StdString.t) :
  is_Some (StdString.find data str 0) <-> StdString.occurs str data.
Proof.
  rewrite find_from_start. split.
  - intros [i Hi]. destruct (StdStringFacts.first_match_Some _ _ _ Hi) as [Hsplit _].
    by exists (take i data), (drop (i + length str) data).
  - intros (pre & post & ->). induction pre as [|c pre IH].
    + simpl. pose proof (StdStringFacts.starts_with_app str post) as Hs.
      destruct (str ++ post) as [|c l] eqn:Hl; simpl.
      * destruct str; [done|discriminate].
      * by rewrite Hs.
    + simpl. destruct (StdString.starts_with str (c :: pre ++ str ++ post)); [done|].
      destruct IH as [i ->]. done.
Qed.

Lemma findAndReplaceAll_loop_empty (fuel : nat) (replaceStr done_ rest : StdString.t) :
  StdString.findAndReplaceAll_loop fuel [] replaceStr (done_ ++ rest)
    (Some (length done_)) = None.
Proof.
  revert done_; induction fuel as [|fuel IH]; intros done_; [done|].
  cbn [StdString.findAndReplaceAll_loop]. unfold StdString.replace.
  change (length (@nil ascii)) with 0.
  rewrite Nat.add_0_r, take_app_length, drop_app_length.
  replace (length done_ + length replaceStr)
    with (length (done_ ++ replaceStr)) by (by rewrite length_app).
  rewrite app_assoc, StdStringFacts.find_at_boundary.
  replace (StdString.first_match [] rest) with (Some 0) by (by destruct rest).
  cbn [fmap option_fmap option_map]. rewrite Nat.add_0_r. apply IH.
Qed.

(** The loop of [findAndReplaceAll] never ends on an empty search string,
    whatever the input and the replacement: [find] keeps answering the
    position just after the inserted text. *)
Theorem findAndReplaceAll_empty_search_never_returns (fuel : nat)
    (data replaceStr : StdString.t) :
  StdString.findAndReplaceAll_fuel fuel data [] replaceStr = None.
Proof.
  unfold StdString.findAndReplaceAll_fuel.
  replace (StdString.find data [] 0) with (Some (length (@nil ascii)))
    by (rewrite find_from_start; by destruct data).
  apply (findAndReplaceAll_loop_empty fuel replaceStr [] data).
Qed.

(** A string in which the search string does not occur is returned as it
    is, whatever the replacement. *)
Theorem findAndReplaceAll_without_occurrence (data toSearch replaceStr : StdString.t) :
  ~ StdString.occurs toSearch data ->
  StdString.findAndReplaceAll data toSearch replaceStr = Some data.
Proof.
  intros Hno. unfold StdString.findAndReplaceAll, StdString.findAndReplaceAll_fuel.
  destruct (StdString.find data toSearch 0) as [i|] eqn:Hfind; [|done].
  destruct Hno. apply find_occurs. by rewrite Hfind.
Qed.

Lemma findAndReplaceAll_without_occurrence_witness :
  ~ StdString.occurs (std_string "-") (std_string "log::p42")
  /\ StdString.findAndReplaceAll (std_string "log::p42") (std_string "-") (std_string "_")
     = Some (std_string "log::p42").
Proof.
  assert (Hno : ~ StdString.occurs (std_string "-") (std_string "log::p42")).
  { intros Hocc%find_occurs. vm_compute in Hocc. by destruct Hocc. }
  split; [exact Hno|].
  exact (findAndReplaceAll_without_occurrence (std_string "log::p42") (std_string "-")
           (std_string "_") Hno).
Defined.

(** Replacing a character by text that does not contain it is idempotent:
    a second call leaves the result of the first unchanged. *)
Theorem findAndReplaceAll_char_idempotent (data replaceStr : StdString.t) (c : ascii) :
  c ∉ replaceStr ->
  exists out,
    StdString.findAndReplaceAll data [c] replaceStr = Some out
    /\ StdString.findAndReplaceAll out [c] replaceStr = Some out.
Proof.
  intros Hc. exists (StdString.substitute [c] replaceStr 0 data). split.
  - apply StdStringFacts.findAndReplaceAll_fuel_spec; [done|lia].
  - assert (Hclean : ~ StdString.occurs [c] (StdString.substitute [c] replaceStr 0 data))
      by (rewrite StdStringFacts.occurs_char; by apply StdStringFacts.substitute_char_clean).
    unfold StdString.findAndReplaceAll, StdString.findAndReplaceAll_fuel.
    destruct (StdString.find _ [c] 0) as [i|] eqn:Hfind; [|done].
    destruct Hclean. apply find_occurs. by rewrite Hfind.
Qed.

Lemma findAndReplaceAll_char_idempotent_witness :
  ("-"%char ∉ std_string "_")
  /\ exists out,
       StdString.findAndReplaceAll (std_string "a-b") ["-"%char] (std_string "_") = Some out
       /\ StdString.findAndReplaceAll out ["-"%char] (std_string "_") = Some out.
Proof.
  assert (Hc : ("-"%char ∉ std_string "_")).
  { intros Hin. apply elem_of_cons in Hin as [Hin|Hin]; [discriminate Hin|].
    by apply elem_of_nil in Hin. }
  split; [exact Hc|].
  exact (findAndReplaceAll_char_idempotent (std_string "a-b") (std_string "_") "-"%char Hc).
Defined.

(** ** The wake-up schedule over many iterations *)

(** While the clock advances, the schedule keeps its baseline: after [k+1]
    iterations the wake-up time is [k+1] periods after the one the loop
    started from, however late the readings are. *)
Lemma iterate_advancing (period : Z) (nows : list Z) :
  forall (c : Schedule.clocks) (k : nat),
    Sorted Z.lt (Schedule.time c :: nows) ->
    (k < length nows)%nat ->
    (Schedule.wakeUpTime <$> Schedule.iterate period c nows) !! k
    = Some (Schedule.wakeUpTime c + (Z.of_nat k + 1) * period)%Z.
Proof.
  induction nows as [|now nows IH]; intros c k Hsorted Hk; [simpl in Hk; lia|].
  apply Sorted_inv in Hsorted as [Hrest Hhd]. apply HdRel_inv in Hhd.
  destruct (tick_wakeUpTime period c now) as (Htime & _ & _ & Hwake).
  specialize (Hwake Hhd). cbn [Schedule.iterate].
  remember (Schedule.tick period c now) as c' eqn:Hc'.
  rewrite fmap_cons. destruct k as [|k].
  - cbn [lookup list_lookup]. rewrite Hwake. f_equal. lia.
  - rewrite lookup_cons_ne_0 by done. cbn [Nat.pred].
    rewrite IH; [|by rewrite Htime|simpl in Hk; lia].
    rewrite Hwake. f_equal. lia.
Qed.

(** A worker loop whose clock readings increase wakes up on the grid
    [now0 + k * period]: time spent in an iteration does not shift the
    iterations after it. *)
Theorem wakeups_without_drift (period now0 : Z) (nows : list Z) (k : nat) :
  Sorted Z.lt (now0 :: nows) ->
  (k < length nows)%nat ->
  Schedule.wakeups period now0 nows !! k = Some (now0 + (Z.of_nat k + 1) * period)%Z.
Proof.
  intros Hsorted Hk. unfold Schedule.wakeups.
  by rewrite (iterate_advancing period nows (Schedule.start now0) k).
Qed.

Lemma wakeups_without_drift_witness :
  Sorted Z.lt [0; 5; 2000000007; 4000000001]%Z
  /\ (2 < length [5; 2000000007; 4000000001]%Z)%nat
  /\ Schedule.wakeups Schedule.lookForNewLogsPeriod 0 [5; 2000000007; 4000000001]%Z !! 2
     = Some (0 + (Z.of_nat 2 + 1) * Schedule.lookForNewLogsPeriod)%Z.
Proof.
  assert (Hs : Sorted Z.lt [0; 5; 2000000007; 4000000001]%Z)
    by (repeat constructor; reflexivity).
  assert (Hk : (2 < length [5; 2000000007; 4000000001]%Z)%nat) by (simpl; lia).
  split; [exact Hs|]. split; [exact Hk|].
  exact (wakeups_without_drift Schedule.lookForNewLogsPeriod 0
           [5; 2000000007; 4000000001]%Z 2 Hs Hk).
Defined.

Lemma iterate_app (period : Z) (c : Schedule.clocks) (pre post : list Z) :
  Schedule.iterate period c (pre ++ post)
  = Schedule.iterate period c pre
    ++ Schedule.iterate period (clocks_after period c pre) post.
Proof.
  revert c. induction pre as [|now pre IH]; intros c; simpl; [done|].
  by rewrite IH.
Qed.

Lemma length_iterate (period : Z) (c : Schedule.clocks) (nows : list Z) :
  length (Schedule.iterate period c nows) = length nows.
Proof. revert c. induction nows as [|now nows IH]; intros c; simpl; [done|]. by rewrite IH. Qed.

Lemma last_nonempty (z : Z) (l : list Z) (d d' : Z) :
  List.last (z :: l) d = List.last (z :: l) d'.
Proof. revert z. induction l as [|y l IH]; intros z; [done|]. apply (IH y). Qed.

Lemma time_clocks_after (period : Z) (c : Schedule.clocks) (nows : list Z) :
  Schedule.time (clocks_after period c nows) = List.last nows (Schedule.time c).
Proof.
  revert c. induction nows as [|now nows IH]; intros c; [done|].
  unfold clocks_after in *. cbn [fold_left]. rewrite IH.
  destruct nows as [|z nows]; [reflexivity|].
  change (List.last (now :: z :: nows) (Schedule.time c))
    with (List.last (z :: nows) (Schedule.time c)).
  apply last_nonempty.
Qed.

(** A reading that is not later than the one before it re-anchors the
    schedule, whatever the wake-up time was, and periodicity goes on from
    there: while the clock advances again, the wake-up times are the reading
    of the reset plus whole periods. *)
Theorem wakeups_after_clock_reset (period now0 : Z) (pre : list Z) (reset : Z)
    (post : list Z) (k : nat) :
  (reset <= List.last pre now0)%Z ->
  Sorted Z.lt (reset :: post) ->
  (k <= length post)%nat ->
  Schedule.wakeups period now0 (pre ++ reset :: post) !! (length pre + k)%nat
  = Some (reset + (Z.of_nat k + 1) * period)%Z.
Proof.
  intros Hreset Hsorted Hk. unfold Schedule.wakeups.
  rewrite iterate_app, fmap_app, lookup_app_r by (rewrite length_fmap, length_iterate; lia).
  rewrite length_fmap, length_iterate.
  replace (length pre + k - length pre)%nat with k by lia.
  set (c := clocks_after period (Schedule.start now0) pre).
  assert (Htime : Schedule.time c = List.last pre now0) by apply time_clocks_after.
  destruct (tick_wakeUpTime period c reset) as (Ht & _ & Hwake & _).
  rewrite Htime in Hwake. specialize (Hwake Hreset).
  cbn [Schedule.iterate].
  remember (Schedule.tick period c reset) as c' eqn:Hc'.
  rewrite fmap_cons. destruct k as [|k].
  - cbn [lookup list_lookup]. rewrite Hwake. f_equal. lia.
  - rewrite lookup_cons_ne_0 by done. cbn [Nat.pred].
    rewrite iterate_advancing; [|by rewrite Ht|lia].
    rewrite Hwake. f_equal. lia.
Qed.

Lemma wakeups_after_clock_reset_witness :
  (3 <= List.last [10; 20]%Z 0)%Z
  /\ Sorted Z.lt [3; 4; 9]%Z
  /\ (2 <= length [4; 9]%Z)%nat
  /\ Schedule.wakeups 5 0 ([10; 20] ++ 3 :: [4; 9])%Z !! (length [10; 20]%Z + 2)%nat
     = Some (3 + (Z.of_nat 2 + 1) * 5)%Z.
Proof.
  assert (Hr : (3 <= List.last [10; 20]%Z 0)%Z) by (simpl; lia).
  assert (Hs : Sorted Z.lt [3; 4; 9]%Z) by (repeat constructor; reflexivity).
  assert (Hk : (2 <= length [4; 9]%Z)%nat) by (simpl; lia).
  split; [exact Hr|]. split; [exact Hs|]. split; [exact Hk|].
  exact (wakeups_after_clock_reset 5 0 [10; 20]%Z 3 [4; 9]%Z 2 Hr Hs Hk).
Defined.

(** ** Discovery workers *)

Lemma hasSubstring_occurs (str : name) (substrings : list name) :
  Discovery.hasSubstring str substrings = true
  <-> exists substring, substring ∈ substrings /\ StdString.occurs substring str.
Proof.
  unfold Discovery.hasSubstring. rewrite existsb_exists. split.
  - intros (sub & Hin & Hfound). exists sub. split; [by apply list_elem_of_In|].
    apply find_occurs. by apply bool_decide_eq_true_1 in Hfound.
  - intros (sub & Hin & Hocc). exists sub. split; [by apply list_elem_of_In|].
    apply bool_decide_eq_true_2. by apply find_occurs.
Qed.

(** [hasSubstring] answers [true] exactly when one of the substrings occurs
    in the string, at any position.  With no substring at all it answers
    [false], and a list that holds the empty string matches every string. *)
Theorem hasSubstring_spec (str : name) (substrings : list name) :
  (Discovery.hasSubstring str substrings = true
   <-> exists substring, substring ∈ substrings /\ StdString.occurs substring str)
  /\ Discovery.hasSubstring str [] = false
  /\ ([] ∈ substrings -> Discovery.hasSubstring str substrings = true).
Proof.
  split; [apply hasSubstring_occurs|]. split; [done|].
  intros Hempty. apply hasSubstring_occurs. exists []. split; [done|].
  by exists [], str.
Qed.

Lemma connect_new_logs_spec subnames exists_ (ports : list name) :
  forall known : gset name,
    let '(names, connected) := Discovery.connect_new_logs subnames exists_ ports known in
    names = known ∪ list_to_set connected
    /\ NoDup connected
    /\ (forall p, p ∈ connected ->
          p ∉ known /\ p ∈ ports
          /\ Discovery.is_new_log_port subnames exists_ ∅ p = true)
    /\ (forall p, p ∈ ports ->
          Discovery.is_new_log_port subnames exists_ known p = true -> p ∈ connected).
Proof.
  induction ports as [|port rest IH]; intros known; simpl.
  - split; [set_solver|]. split; [constructor|]. split; intros p Hp; by apply elem_of_nil in Hp.
  - destruct (Discovery.is_new_log_port subnames exists_ known port) eqn:Hnew.
    + specialize (IH ({[port]} ∪ known)).
      destruct (Discovery.connect_new_logs _ _ rest _) as [names connected].
      destruct IH as (Hnames & Hnodup & Hsound & Hcomplete).
      assert (Hport : port ∉ known).
      { unfold Discovery.is_new_log_port in Hnew.
        apply andb_true_iff in Hnew as [Hnew _]. apply andb_true_iff in Hnew as [Hnew _].
        apply andb_true_iff in Hnew as [_ Hnew]. by apply bool_decide_eq_true_1 in Hnew. }
      split; [rewrite Hnames; set_solver|]. split.
      { constructor; [|done]. intros Hin. apply Hsound in Hin as [Hin _]. set_solver. }
      split.
      * intros p [->|Hp]%elem_of_cons.
        -- split; [done|]. split; [by left|].
           unfold Discovery.is_new_log_port in *.
           rewrite (bool_decide_eq_true_2 (port ∉ ∅)) by set_solver.
           rewrite (bool_decide_eq_true_2 (port ∉ known)) in Hnew by done. exact Hnew.
        -- destruct (Hsound p Hp) as (Hk & Hin & Hok).
           split; [set_solver|]. split; [by right|done].
      * intros p [->|Hp]%elem_of_cons Hok; [by left|].
        destruct (decide (p = port)) as [->|Hne]; [by left|]. right.
        apply Hcomplete; [done|].
        unfold Discovery.is_new_log_port in *.
        apply andb_true_iff in Hok as [Hok He]. apply andb_true_iff in Hok as [Hok Hs].
        apply andb_true_iff in Hok as [Hpre Hk]. apply bool_decide_eq_true_1 in Hk.
        rewrite Hpre, Hs, He. rewrite bool_decide_eq_true_2 by set_solver. done.
    + specialize (IH known).
      destruct (Discovery.connect_new_logs _ _ rest _) as [names connected].
      destruct IH as (Hnames & Hnodup & Hsound & Hcomplete).
      split; [done|]. split; [done|]. split.
      * intros p Hp. destruct (Hsound p Hp) as (Hk & Hin & Hok).
        split; [done|]. split; [by right|done].
      * intros p [->|Hp]%elem_of_cons Hok; [congruence|]. by apply Hcomplete.
Qed.

(** One pass of [lookForNewLogs] over the list of ports connects every port
    of the list that is eligible: its name starts with "/log/", it is not yet
    recorded, it passes the filter on the substrings (no filter when
    [text_logging_subnames] is empty) and it exists.  Nothing else is
    connected. *)
Theorem lookForNewLogs_connects_eligible_ports (subnames : list name)
    (net : Discovery.LogNetwork) (w : Discovery.LogWorker) (port : name) :
  let '(w', connected) := Discovery.lookForNewLogs_iteration subnames net w in
  port ∈ connected
  <-> port ∈ Discovery.getPortsList net
      /\ StdString.starts_with (std_string "/log/") port = true
      /\ port ∉ Discovery.m_textLoggingPortNames w
      /\ (subnames = [] \/ exists sub, sub ∈ subnames /\ StdString.occurs sub port)
      /\ Discovery.log_exists net port = true.
Proof.
  unfold Discovery.lookForNewLogs_iteration.
  pose proof (connect_new_logs_spec subnames (Discovery.log_exists net)
                (Discovery.getPortsList net) (Discovery.m_textLoggingPortNames w)) as Hspec.
  destruct (Discovery.connect_new_logs _ _ _ _) as [names connected].
  destruct Hspec as (_ & _ & Hsound & Hcomplete).
  assert (Hfilter : forall known,
    Discovery.is_new_log_port subnames (Discovery.log_exists net) known port = true
    <-> StdString.starts_with (std_string "/log/") port = true
        /\ port ∉ known
        /\ (subnames = [] \/ exists sub, sub ∈ subnames /\ StdString.occurs sub port)
        /\ Discovery.log_exists net port = true).
  { intros known. unfold Discovery.is_new_log_port.
    rewrite !andb_true_iff, orb_true_iff, !bool_decide_eq_true, hasSubstring_occurs.
    unfold Discovery.textLoggingPortPrefix. tauto. }
  split.
  - intros Hin. destruct (Hsound port Hin) as (Hk & Hp & Hok).
    apply Hfilter in Hok. tauto.
  - intros (Hp & Hpre & Hk & Hsub & He). apply Hcomplete; [done|].
    apply Hfilter. tauto.
Qed.

Lemma lookForNewLogs_iterations_spec (subnames : list name) (nets : list Discovery.LogNetwork) :
  forall w : Discovery.LogWorker,
    let '(w', attempts) := Discovery.lookForNewLogs_iterations subnames nets w in
    Discovery.m_textLoggingPortNames w'
    = Discovery.m_textLoggingPortNames w ∪ list_to_set (concat attempts)
    /\ NoDup (concat attempts)
    /\ forall p, p ∈ concat attempts -> p ∉ Discovery.m_textLoggingPortNames w.
Proof.
  induction nets as [|net nets IH]; intros w; simpl.
  - split; [set_solver|]. split; [constructor|]. intros p Hp. by apply elem_of_nil in Hp.
  - unfold Discovery.lookForNewLogs_iteration.
    pose proof (connect_new_logs_spec subnames (Discovery.log_exists net)
                  (Discovery.getPortsList net) (Discovery.m_textLoggingPortNames w)) as Hspec.
    destruct (Discovery.connect_new_logs _ _ _ _) as [names connected].
    destruct Hspec as (Hnames & Hnodup & Hsound & _).
    match goal with |- context [Discovery.lookForNewLogs_iterations _ _ ?w1] =>
      specialize (IH w1); destruct (Discovery.lookForNewLogs_iterations _ _ w1)
        as [w'' later] end.
    simpl in IH. destruct IH as (Hnames' & Hnodup' & Hfresh). cbn [concat].
    split; [rewrite Hnames', Hnames, list_to_set_app_L; set_solver|]. split.
    + apply NoDup_app. split; [done|]. split; [|done].
      intros p Hp Hp'. apply Hfresh in Hp'. rewrite Hnames in Hp'. set_solver.
    + intros p [Hp|Hp]%elem_of_app.
      * by apply Hsound in Hp as [? _].
      * apply Hfresh in Hp. rewrite Hnames in Hp. set_solver.
Qed.

(** Over any number of iterations of [lookForNewLogs], whatever the network
    answers, no port is connected twice and no port already recorded is
    connected: the name is recorded before [connect] is called and the
    result of [connect] is not looked at, so a connection that failed is not
    tried again.  The recorded names are the initial ones and the ports on
    which [connect] was called. *)
Theorem lookForNewLogs_connects_once (subnames : list name)
    (nets : list Discovery.LogNetwork) (w : Discovery.LogWorker) :
  let '(w', attempts) := Discovery.lookForNewLogs_iterations subnames nets w in
  NoDup (concat attempts)
  /\ (forall p, p ∈ concat attempts -> p ∉ Discovery.m_textLoggingPortNames w)
  /\ Discovery.m_textLoggingPortNames w'
     = Discovery.m_textLoggingPortNames w ∪ list_to_set (concat attempts).
Proof.
  pose proof (lookForNewLogs_iterations_spec subnames nets w) as Hspec.
  destruct (Discovery.lookForNewLogs_iterations subnames nets w) as [w' attempts].
  tauto.
Qed.

(** *** Exogenous signals *)

Lemma connectToExogeneous_spec exists_ connect (signals : list (name * bool)) :
  let '(signals', attempts) := Discovery.connectToExogeneous exists_ connect signals in
  signals' = (fun s => (s.1, if negb s.2 && exists_ s.1 then connect s.1 else s.2)) <$> signals
  /\ attempts = fst <$> List.filter (fun s => negb s.2 && exists_ s.1) signals.
Proof.
  induction signals as [|[remote connected] rest IH]; simpl; [done|].
  destruct (Discovery.connectToExogeneous exists_ connect rest) as [rest' attempts].
  destruct IH as [-> ->].
  by destruct (negb connected && exists_ remote).
Qed.

Lemma connectToExogeneous_attempt exists_ connect (signals : list (name * bool)) remote :
  (remote, false) ∈ signals -> exists_ remote = true ->
  remote ∈ (Discovery.connectToExogeneous exists_ connect signals).2
  /\ (remote, connect remote) ∈ (Discovery.connectToExogeneous exists_ connect signals).1.
Proof.
  intros Hin Hex. pose proof (connectToExogeneous_spec exists_ connect signals) as Hspec.
  destruct (Discovery.connectToExogeneous exists_ connect signals) as [signals' attempts].
  destruct Hspec as [-> ->]. simpl. split.
  - apply list_elem_of_fmap. exists (remote, false). split; [done|].
    apply list_elem_of_In, filter_In. split; [by apply list_elem_of_In|]. simpl. by rewrite Hex.
  - apply list_elem_of_fmap. exists (remote, false). split; [|done]. simpl. by rewrite Hex.
Qed.

Lemma connectToExogeneous_connected exists_ connect (signals : list (name * bool)) remote :
  (forall c, (remote, c) ∈ signals -> c = true) ->
  remote ∉ (Discovery.connectToExogeneous exists_ connect signals).2
  /\ (forall c, (remote, c) ∈ (Discovery.connectToExogeneous exists_ connect signals).1 ->
        c = true).
Proof.
  intros Hall. pose proof (connectToExogeneous_spec exists_ connect signals) as Hspec.
  destruct (Discovery.connectToExogeneous exists_ connect signals) as [signals' attempts].
  destruct Hspec as [-> ->]. simpl. split.
  - intros ([r c] & Heq & Hin)%list_elem_of_fmap. simpl in Heq. subst r.
    apply list_elem_of_In, filter_In in Hin as [Hin Hc]. apply list_elem_of_In in Hin.
    rewrite (Hall c Hin) in Hc. done.
  - intros c ([r c0] & Heq & Hin)%list_elem_of_fmap. simpl in Heq.
    injection Heq as -> ->. by rewrite (Hall c0 Hin).
Qed.

(** A signal that is connected is left alone by [lookForExogenousSignals]:
    over any number of iterations, whatever the network answers, no
    connection to its port is attempted and it stays connected. *)
Theorem exogenous_connected_is_left_alone (nets : list Discovery.SignalNetwork)
    (w : Discovery.SignalWorker) (remote : name) :
  (forall c, (remote, c) ∈ Discovery.collections_connected w ++ Discovery.vectors_connected w ->
     c = true) ->
  let '(w', attempts) := Discovery.lookForExogenousSignals_iterations nets w in
  remote ∉ concat attempts
  /\ forall c, (remote, c) ∈ Discovery.collections_connected w'
                              ++ Discovery.vectors_connected w' -> c = true.
Proof.
  revert w. induction nets as [|net nets IH]; intros w Hall; simpl.
  - split; [|done]. intros Hin. by apply elem_of_nil in Hin.
  - unfold Discovery.lookForExogenousSignals_iteration.
    destruct (connectToExogeneous_connected (Discovery.signal_exists net)
                (Discovery.signal_connect net) (Discovery.collections_connected w) remote)
      as [Hno1 Hall1]; [intros c Hc; apply Hall, elem_of_app; by left|].
    destruct (connectToExogeneous_connected (Discovery.signal_exists net)
                (Discovery.signal_connect net) (Discovery.vectors_connected w) remote)
      as [Hno2 Hall2]; [intros c Hc; apply Hall, elem_of_app; by right|].
    destruct (Discovery.connectToExogeneous _ _ (Discovery.collections_connected w))
      as [collections attempts1].
    destruct (Discovery.connectToExogeneous _ _ (Discovery.vectors_connected w))
      as [vectors attempts2].
    simpl in *.
    match goal with |- context [Discovery.lookForExogenousSignals_iterations _ ?w1] =>
      specialize (IH w1); destruct (Discovery.lookForExogenousSignals_iterations _ w1)
        as [w'' later] end.
    simpl in IH. destruct IH as [Hlater Hall'].
    { intros c [Hc|Hc]%elem_of_app; eauto. }
    split; [|done]. cbn [concat]. rewrite !elem_of_app. tauto.
Qed.

Lemma exogenous_connected_is_left_alone_witness :
  let w := {| Discovery.signal_clocks := Schedule.start 0;
              Discovery.collections_connected := [(std_string "/walking/data:o", true)];
              Discovery.vectors_connected := [(std_string "/imu/vec:o", false)] |} in
  let nets := [ {| Discovery.signal_now := 1; Discovery.signal_exists := fun _ => true;
                   Discovery.signal_connect := fun _ => false |} ] in
  (forall c, (std_string "/walking/data:o", c)
               ∈ Discovery.collections_connected w ++ Discovery.vectors_connected w ->
     c = true)
  /\ let '(w', attempts) := Discovery.lookForExogenousSignals_iterations nets w in
     std_string "/walking/data:o" ∉ concat attempts
     /\ forall c, (std_string "/walking/data:o", c)
                    ∈ Discovery.collections_connected w' ++ Discovery.vectors_connected w' ->
                  c = true.
Proof.
  intros w nets.
  assert (Hall : forall c, (std_string "/walking/data:o", c)
                   ∈ Discovery.collections_connected w ++ Discovery.vectors_connected w ->
                 c = true).
  { intros c Hin. apply elem_of_cons in Hin as [Hin|Hin]; [congruence|].
    apply elem_of_cons in Hin as [Hin|Hin]; [discriminate Hin|]. by apply elem_of_nil in Hin. }
  split; [exact Hall|].
  exact (exogenous_connected_is_left_alone nets w (std_string "/walking/data:o") Hall).
Defined.

(** A connection to an exogenous signal that fails is tried again: the
    signal stays disconnected, and the next iteration in which its port
    exists calls [connect] once more and stores the new answer. *)
Theorem exogenous_failed_connection_is_retried (net1 net2 : Discovery.SignalNetwork)
    (w : Discovery.SignalWorker) (remote : name) :
  (remote, false) ∈ Discovery.vectors_connected w ->
  Discovery.signal_exists net1 remote = true ->
  Discovery.signal_connect net1 remote = false ->
  Discovery.signal_exists net2 remote = true ->
  let '(w1, attempts1) := Discovery.lookForExogenousSignals_iteration net1 w in
  let '(w2, attempts2) := Discovery.lookForExogenousSignals_iteration net2 w1 in
  remote ∈ attempts1 /\ remote ∈ attempts2
  /\ (remote, Discovery.signal_connect net2 remote) ∈ Discovery.vectors_connected w2.
Proof.
  intros Hin Hex1 Hfail Hex2. unfold Discovery.lookForExogenousSignals_iteration.
  destruct (connectToExogeneous_attempt (Discovery.signal_exists net1)
              (Discovery.signal_connect net1) (Discovery.vectors_connected w) remote Hin Hex1)
    as [Ha1 Hin1].
  rewrite Hfail in Hin1.
  destruct (Discovery.connectToExogeneous _ _ (Discovery.collections_connected w))
    as [collections1 attempts1].
  destruct (Discovery.connectToExogeneous _ _ (Discovery.vectors_connected w))
    as [vectors1 attempts1']. simpl in *.
  destruct (connectToExogeneous_attempt (Discovery.signal_exists net2)
              (Discovery.signal_connect net2) vectors1 remote Hin1 Hex2) as [Ha2 Hin2].
  destruct (Discovery.connectToExogeneous _ _ collections1) as [collections2 attempts2].
  destruct (Discovery.connectToExogeneous _ _ vectors1) as [vectors2 attempts2'].
  simpl in *. rewrite !elem_of_app. tauto.
Qed.

Lemma exogenous_failed_connection_is_retried_witness :
  let w := {| Discovery.signal_clocks := Schedule.start 0;
              Discovery.collections_connected := [];
              Discovery.vectors_connected := [(std_string "/imu/vec:o", false)] |} in
  let net1 := {| Discovery.signal_now := 1; Discovery.signal_exists := fun _ => true;
                 Discovery.signal_connect := fun _ => false |} in
  let net2 := {| Discovery.signal_now := 2; Discovery.signal_exists := fun _ => true;
                 Discovery.signal_connect := fun _ => true |} in
  (std_string "/imu/vec:o", false) ∈ Discovery.vectors_connected w
  /\ let '(w1, attempts1) := Discovery.lookForExogenousSignals_iteration net1 w in
     let '(w2, attempts2) := Discovery.lookForExogenousSignals_iteration net2 w1 in
     std_string "/imu/vec:o" ∈ attempts1 /\ std_string "/imu/vec:o" ∈ attempts2
     /\ (std_string "/imu/vec:o", Discovery.signal_connect net2 (std_string "/imu/vec:o"))
          ∈ Discovery.vectors_connected w2.
Proof.
  intros w net1 net2.
  assert (Hin : (std_string "/imu/vec:o", false) ∈ Discovery.vectors_connected w)
    by (apply elem_of_cons; by left).
  split; [exact Hin|].
  exact (exogenous_failed_connection_is_retried net1 net2 w (std_string "/imu/vec:o")
           Hin eq_refl eq_refl eq_refl).
Defined.

(** ** More on the periodic tick *)
Section TickFacts.

Context {scalar : Type}.
Implicit Types (evs : list (event scalar)) (e : event scalar).

Lemma added_channels_app evs evs' :
  added_channels (evs ++ evs') = added_channels evs ++ added_channels evs'.
Proof. apply omap_app. Qed.

Lemma pushed_channels_app evs evs' :
  pushed_channels (evs ++ evs') = pushed_channels evs ++ pushed_channels evs'.
Proof. apply omap_app. Qed.

(** What a message leaves in the trace and in the set of recorded keys. *)
Lemma store_text_channels stored time msg stored' evs :
  @store_text scalar stored time msg = Some (stored', evs) ->
  stored' = stored ∪ list_to_set (added_channels evs)
  /\ NoDup (added_channels evs)
  /\ (forall c, c ∈ added_channels evs -> c ∉ stored)
  /\ (forall c, c ∈ pushed_channels evs -> c ∈ stored').
Proof.
  destruct (isValid msg) eqn:Hv.
  - rewrite store_text_valid by done.
    destruct (decide (sanitized_key msg ∈ stored)) as [Hin|Hin]; intros [= <- <-]; simpl.
    + split; [set_solver|]. split; [constructor|]. split; [set_solver|]. set_solver.
    + split; [set_solver|]. split; [repeat constructor; set_solver|].
      split; [set_solver|]. set_solver.
  - rewrite store_text_invalid by done. intros [= <- <-]. simpl.
    split; [set_solver|]. split; [constructor|]. split; set_solver.
Qed.

(** In the text-log loop of a tick a channel is created only for a key that
    is not yet recorded, and no channel is created twice; the keys recorded
    after the loop are the keys recorded before it and the channels created;
    and samples are appended to recorded channels only.  This holds for the
    calls made so far also when the loop is still running. *)
Theorem text_log_channels_created_once_per_key fuel arrivals k time stored port n :
  let '(stored', _, evs, _) := @drain_text scalar fuel arrivals k time stored port n in
  stored' = stored ∪ list_to_set (added_channels evs)
  /\ NoDup (added_channels evs)
  /\ (forall c, c ∈ added_channels evs -> c ∉ stored)
  /\ (forall c, c ∈ pushed_channels evs -> c ∈ stored').
Proof.
  revert k stored port n. induction fuel as [|fuel IH]; intros k stored port n; simpl.
  - destruct (decide _); simpl; (split; [set_solver|]; split; [constructor|]; split; set_solver).
  - destruct (decide _); simpl;
      [|split; [set_solver|]; split; [constructor|]; split; set_solver].
    destruct port as [|msg port'];
      [simpl; split; [set_solver|]; split; [constructor|]; split; set_solver|].
    destruct (store_text stored time msg) as [[stored1 evs1]|] eqn:Hst;
      [|simpl; split; [set_solver|]; split; [constructor|]; split; set_solver].
    destruct (store_text_channels _ _ _ _ _ Hst) as (Hs1 & Hn1 & Hf1 & Hp1).
    specialize (IH (S k) stored1 (port' ++ arrivals k) (length (port' ++ arrivals k))).
    destruct (drain_text _ _ _ _ _ _ _) as [[[stored2 port2] evs2] fin].
    destruct IH as (Hs2 & Hn2 & Hf2 & Hp2).
    change (EvTextRead (Some msg) :: evs1 ++ evs2)
      with ([EvTextRead (Some msg)] ++ evs1 ++ evs2).
    rewrite !added_channels_app, !pushed_channels_app. simpl.
    split; [rewrite Hs2, Hs1, list_to_set_app_L; set_solver|]. split.
    + apply NoDup_app. split; [done|]. split; [|done].
      intros c Hc1 Hc2. apply Hf2 in Hc2. rewrite Hs1 in Hc2. set_solver.
    + split.
      * intros c [Hc|Hc]%elem_of_app; [by apply Hf1|].
        apply Hf2 in Hc. rewrite Hs1 in Hc. set_solver.
      * intros c [Hc|Hc]%elem_of_app; [|by apply Hp2].
        apply Hp1 in Hc. rewrite Hs2. set_solver.
Qed.

(** Messages that do not deserialise to a valid entry are taken from the
    port and dropped: a tick that finds only such messages, with none
    arriving, empties the port, appends nothing and records no key. *)
Theorem invalid_text_logs_are_dropped fuel arrivals k time stored port :
  (forall msg, msg ∈ port -> isValid msg = false) ->
  (forall j, arrivals j = []) ->
  length port < fuel ->
  @drain_text scalar fuel arrivals k time stored port (length port)
  = (stored, [], (fun msg => EvTextRead (Some msg)) <$> port, true).
Proof.
  intros Hinvalid Hquiet. revert k port Hinvalid.
  induction fuel as [|fuel IH]; intros k port Hinvalid Hfuel; [lia|].
  destruct port as [|msg port']; [done|].
  cbn [drain_text]. rewrite decide_True by (simpl; lia).
  rewrite store_text_invalid by (apply Hinvalid; by left).
  rewrite Hquiet, app_nil_r.
  rewrite IH; [done| |simpl in Hfuel; lia].
  intros m Hm. apply Hinvalid. by right.
Qed.

(** *** Exogenous signals over successive ticks *)

Lemma collect_vector_events (ports : ExogenousPorts scalar) time remote signal :
  let '(entry', evs) := collect_vector ports time (remote, signal) in
  entry'.1 = remote
  /\ signalName entry'.2 = signalName signal
  /\ match readVector ports remote with
     | None => entry'.2 = signal /\ added_channels evs = [] /\ pushed_channels evs = []
     | Some v =>
         dataArrived entry'.2 = true
         /\ ((dataArrived signal = true /\ added_channels evs = [])
             \/ (dataArrived signal = false
                 /\ evs = [EvLock (SignalMutex remote)]
                          ++ [EvAddChannel (signalName signal) (length v) 1]
                          ++ [EvPushBack (signalName signal) time (Vector v);
                              EvUnlock (SignalMutex remote)]))
     end.
Proof.
  unfold collect_vector. destruct (readVector ports remote) as [v|]; simpl; [|done].
  split; [done|]. split; [done|]. split; [done|].
  destruct (dataArrived signal); [by left|by right].
Qed.

Lemma collect_vector_ticks_spec (ticks : list (ExogenousPorts scalar * Z)) :
  forall remote signal,
    let '(entry', evs) := collect_vector_ticks ticks (remote, signal) in
    entry'.1 = remote
    /\ signalName entry'.2 = signalName signal
    /\ (dataArrived signal = true -> dataArrived entry'.2 = true /\ added_channels evs = [])
    /\ (dataArrived signal = false ->
        (pushed_channels evs = [] /\ added_channels evs = [] /\ dataArrived entry'.2 = false)
        \/ (exists quiet rest rows,
              evs = quiet ++ [EvAddChannel (signalName signal) rows 1] ++ rest
              /\ added_channels quiet = [] /\ pushed_channels quiet = []
              /\ added_channels rest = [] /\ dataArrived entry'.2 = true)).
Proof.
  induction ticks as [|[ports time] ticks IH]; intros remote signal;
    cbn [collect_vector_ticks].
  - split; [done|]. split; [done|]. split; [done|]. intros Hd. by left.
  - pose proof (collect_vector_events ports time remote signal) as Hcv.
    destruct (collect_vector ports time (remote, signal)) as [[remote' signal'] evs].
    cbn [fst snd] in Hcv. destruct Hcv as (-> & Hn & Hcase).
    specialize (IH remote signal').
    destruct (collect_vector_ticks ticks (remote, signal')) as [entry'' evs'].
    destruct IH as (Hr & Hn' & Hseen & Hfresh). rewrite Hn in *.
    split; [done|]. split; [done|].
    rewrite added_channels_app, pushed_channels_app.
    destruct (readVector ports remote) as [v|].
    + destruct Hcase as (Harr & Hcase). destruct (Hseen Harr) as [Harr' Ha'].
      destruct Hcase as [[Hd Ha]|[Hd Hevs]]; (split; [|intros Hd']); try congruence.
      * intros _. by rewrite Ha, Ha'.
      * right. exists [EvLock (SignalMutex remote)],
          ([EvPushBack (signalName signal) time (Vector v); EvUnlock (SignalMutex remote)]
             ++ evs'), (length v).
        rewrite added_channels_app, Ha', Hevs, <- !app_assoc. done.
    + destruct Hcase as (-> & Ha & Hp). rewrite Ha, Hp. cbn [app]. split; [done|].
      intros Hd. destruct (Hfresh Hd) as [Hnone|(quiet & rest & rows & He & Hq1 & Hq2 & Hq)];
        [by left|right].
      exists (evs ++ quiet), rest, rows.
      rewrite added_channels_app, pushed_channels_app, Ha, Hp, He, <- app_assoc. done.
Qed.

(** Over any number of ticks, the channel of an exogenous vector signal is
    created at most once, by the tick in which its first data arrive, and
    before any of its samples is appended; a signal whose data had already
    arrived gets no channel again. *)
Theorem exogenous_vector_channel_created_once (ticks : list (ExogenousPorts scalar * Z))
    (remote : name) (signal : ExogenousSignal) :
  let '(_, evs) := collect_vector_ticks ticks (remote, signal) in
  length (added_channels evs) <= 1
  /\ (dataArrived signal = true -> added_channels evs = [])
  /\ (dataArrived signal = false ->
      forall before after channel t value,
        evs = before ++ [EvPushBack channel t value] ++ after ->
        signalName signal ∈ added_channels before).
Proof.
  pose proof (collect_vector_ticks_spec ticks remote signal) as Hspec.
  destruct (collect_vector_ticks ticks (remote, signal)) as [entry' evs].
  destruct Hspec as (_ & _ & Hseen & Hfresh).
  destruct (dataArrived signal) eqn:Hd.
  - destruct (Hseen eq_refl) as [_ Ha]. rewrite Ha. split; [simpl; lia|]. done.
  - destruct (Hfresh eq_refl) as [(Hp & Ha & _)|(quiet & rest & rows & He & Hq1 & Hq2 & Hq3 & _)].
    + rewrite Ha. split; [simpl; lia|]. split; [done|].
      intros _ before after channel t value He. rewrite He in Hp.
      rewrite !pushed_channels_app in Hp. by destruct (pushed_channels before).
    + split.
      { rewrite He, !added_channels_app, Hq1, Hq3. simpl. lia. }
      split; [done|]. intros _ before after channel t value He'.
      rewrite He in He'.
      assert (Hat : (quiet ++ [EvAddChannel (signalName signal) rows 1] ++ rest)
                      !! length before = Some (EvPushBack channel t value)).
      { rewrite He'. by apply list_lookup_middle. }
      destruct (decide (length before < length quiet)) as [Hlt|Hge].
      { rewrite lookup_app_l in Hat by done. apply list_elem_of_lookup_2 in Hat.
        assert (Hin : channel ∈ pushed_channels quiet).
        { apply list_elem_of_omap. by exists (EvPushBack channel t value). }
        rewrite Hq2 in Hin. by apply elem_of_nil in Hin. }
      destruct (decide (length before = length quiet)) as [Heq|Hne].
      { rewrite Heq in Hat. cbn [app] in Hat.
        rewrite list_lookup_middle in Hat by done. discriminate Hat. }
      apply (f_equal (take (length before))) in He'.
      rewrite (take_app_length before) in He'. rewrite <- He'.
      rewrite take_app_ge by lia. rewrite added_channels_app.
      apply elem_of_app. right.
      destruct (length before - length quiet) as [|m] eqn:Hm; [lia|].
      simpl. by left.
Qed.

Lemma omap_fmap_app_Some {A B C} (h : B -> option C) (f : A -> B) (g : A -> C)
    (l : list A) (tail : list B) :
  (forall x, h (f x) = Some (g x)) ->
  omap h ((f <$> l) ++ tail) = (g <$> l) ++ omap h tail.
Proof.
  intros Hh. induction l as [|x l IH]; [done|].
  cbn [fmap list_fmap app omap list_omap]. rewrite Hh. f_equal. apply IH.
Qed.

Lemma omap_fmap_app_None {A B C} (h : B -> option C) (f : A -> B)
    (l : list A) (tail : list B) :
  (forall x, h (f x) = None) ->
  omap h ((f <$> l) ++ tail) = omap h tail.
Proof.
  intros Hh. induction l as [|x l IH]; [done|].
  cbn [fmap list_fmap app omap list_omap]. rewrite Hh. apply IH.
Qed.

(** What one tick leaves in the trace for a collection of vectors. *)
Lemma collect_collection_events (ports : ExogenousPorts scalar) time remote signal :
  let '(entry', evs) := collect_collection ports time (remote, signal) in
  let full key := signalName signal ++ std_string "::" ++ key in
  entry'.1 = remote
  /\ signalName entry'.2 = signalName signal
  /\ match readCollection ports remote with
     | None => entry'.2 = signal /\ added_channels evs = [] /\ pushed_channels evs = []
     | Some vectors =>
         dataArrived entry'.2 = true
         /\ pushed_channels evs = (fun kv => full kv.1) <$> vectors
         /\ added_channels evs
            = if dataArrived signal then [] else (fun kv => full kv.1) <$> vectors
     end.
Proof.
  unfold collect_collection. destruct (readCollection ports remote) as [vectors|];
    cbn [fst snd]; [|done].
  split; [done|]. split; [done|]. split; [done|].
  unfold pushed_channels, added_channels.
  destruct (dataArrived signal); cbn [app omap list_omap].
  - rewrite (omap_fmap_app_Some _ _
               (fun kv : name * vector => signalName signal ++ std_string "::" ++ kv.1))
      by done.
    rewrite omap_fmap_app_None by done. split; [apply app_nil_r|done].
  - rewrite omap_fmap_app_None by done.
    rewrite (omap_fmap_app_Some _ _
               (fun kv : name * vector => signalName signal ++ std_string "::" ++ kv.1))
      by done.
    rewrite (omap_fmap_app_Some _ _
               (fun kv : name * vector => signalName signal ++ std_string "::" ++ kv.1))
      by done.
    rewrite omap_fmap_app_None by done. split; apply app_nil_r.
Qed.

Lemma collect_collection_ticks_arrived (ticks : list (ExogenousPorts scalar * Z)) :
  forall remote signal,
    dataArrived signal = true ->
    let '(_, evs) := collect_collection_ticks ticks (remote, signal) in
    added_channels evs = []
    /\ forall ports time vectors key v,
         (ports, time) ∈ ticks -> readCollection ports remote = Some vectors ->
         (key, v) ∈ vectors ->
         signalName signal ++ std_string "::" ++ key ∈ pushed_channels evs.
Proof.
  induction ticks as [|[ports time] ticks IH]; intros remote signal Hd;
    cbn [collect_collection_ticks].
  - split; [done|]. intros ports time vectors key v Hin. by apply elem_of_nil in Hin.
  - pose proof (collect_collection_events ports time remote signal) as Hcc.
    destruct (collect_collection ports time (remote, signal)) as [[remote' signal'] evs].
    cbn [fst snd] in Hcc. destruct Hcc as (-> & Hn & Hcase).
    assert (Hd' : dataArrived signal' = true).
    { destruct (readCollection ports remote); [tauto|]. destruct Hcase as (-> & _). done. }
    specialize (IH remote signal' Hd').
    destruct (collect_collection_ticks ticks (remote, signal')) as [entry'' evs'].
    destruct IH as [Ha' Hp']. rewrite Hn in Hp'.
    rewrite added_channels_app, pushed_channels_app, Ha'.
    assert (Ha : added_channels evs = []).
    { destruct (readCollection ports remote); [|tauto].
      destruct Hcase as (_ & _ & ->). by rewrite Hd. }
    split; [by rewrite Ha|].
    intros ports0 time0 vectors key v [Heq|Hin]%elem_of_cons Hread Hkey.
    + injection Heq as -> ->. rewrite Hread in Hcase. destruct Hcase as (_ & -> & _).
      apply elem_of_app. left. apply list_elem_of_fmap. by exists (key, v).
    + apply elem_of_app. right. by eapply Hp'.
Qed.

(** The channels of a collection of vectors are created from the keys of its
    first message only.  Every later message is appended key by key all the
    same, so a key that the first message did not have is appended to a
    channel that was never created. *)
Theorem exogenous_collection_channels_from_first_message
    (first : ExogenousPorts scalar) (time : Z) (later : list (ExogenousPorts scalar * Z))
    (remote : name) (signal : ExogenousSignal) (vectors : list (name * vector)) :
  dataArrived signal = false ->
  readCollection first remote = Some vectors ->
  let '(_, evs) := collect_collection_ticks ((first, time) :: later) (remote, signal) in
  let full key := signalName signal ++ std_string "::" ++ key in
  added_channels evs = (fun kv => full kv.1) <$> vectors
  /\ forall ports time' vectors' key v,
       (ports, time') ∈ later -> readCollection ports remote = Some vectors' ->
       (key, v) ∈ vectors' ->
       full key ∈ pushed_channels evs
       /\ (key ∉ vectors.*1 -> full key ∉ added_channels evs).
Proof.
  intros Hd Hread. cbn [collect_collection_ticks].
  pose proof (collect_collection_events first time remote signal) as Hcc.
  destruct (collect_collection first time (remote, signal)) as [[remote' signal'] evs].
  cbn [fst snd] in Hcc. destruct Hcc as (-> & Hn & Hcase).
  rewrite Hread, Hd in Hcase. destruct Hcase as (Hd' & Hp & Ha).
  pose proof (collect_collection_ticks_arrived later remote signal' Hd') as Hlater.
  destruct (collect_collection_ticks later (remote, signal')) as [entry'' evs'].
  destruct Hlater as [Ha' Hp']. rewrite Hn in Hp'.
  rewrite added_channels_app, pushed_channels_app, Ha, Ha', app_nil_r.
  split; [done|].
  intros ports time' vectors' key v Hin Hread' Hkey. split.
  - apply elem_of_app. right. by eapply Hp'.
  - intros Hnew ([key0 v0] & Heq & Hin0)%list_elem_of_fmap. simpl in Heq.
    apply app_inv_head in Heq. injection Heq as Heq. subst key0.
    apply Hnew. apply list_elem_of_fmap. by exists (key, v0).
Qed.

(** [unpackIMU] cuts the first nine entries of the analog signal into the
    orientation, the accelerometer and the gyro readings, three entries
    each, in this order; what follows (the magnetic field) is left out. *)
Theorem unpackIMU_segments (signal : list scalar) :
  9 <= length signal ->
  let '(accelerometer, gyro, orientation) := unpackIMU signal in
  length orientation = 3 /\ length accelerometer = 3 /\ length gyro = 3
  /\ orientation ++ accelerometer ++ gyro = take 9 signal.
Proof.
  intros Hlen. unfold unpackIMU. rewrite !length_take, !length_drop.
  split; [lia|]. split; [lia|]. split; [lia|].
  rewrite app_assoc, (take_take_drop signal 3 3).
  apply (take_take_drop signal (3 + 3) 3).
Qed.

End TickFacts.

Lemma invalid_text_logs_are_dropped_witness :
  let noise := {| isValid := false; portSystem := []; portPrefix := []; processName := [];
                  processPID := []; text := std_string "garbage" |} in
  (forall msg, msg ∈ [noise; noise] -> isValid msg = false)
  /\ (forall j : nat, Samples.quiet j = [])
  /\ length [noise; noise] < 5
  /\ @drain_text Z 5 Samples.quiet 0 7 ∅ [noise; noise] (length [noise; noise])
     = (∅, [], (fun msg => EvTextRead (Some msg)) <$> [noise; noise], true).
Proof.
  intros noise.
  assert (Hinvalid : forall msg, msg ∈ [noise; noise] -> isValid msg = false).
  { intros msg Hin. apply elem_of_cons in Hin as [->|Hin]; [done|].
    apply elem_of_cons in Hin as [->|Hin]; [done|]. by apply elem_of_nil in Hin. }
  assert (Hquiet : forall j : nat, Samples.quiet j = []) by done.
  assert (Hfuel : length [noise; noise] < 5) by (simpl; lia).
  split; [exact Hinvalid|]. split; [exact Hquiet|]. split; [exact Hfuel|].
  exact (@invalid_text_logs_are_dropped Z 5 Samples.quiet 0 7 ∅ [noise; noise]
           Hinvalid Hquiet Hfuel).
Defined.

Lemma exogenous_collection_channels_from_first_message_witness :
  let first := {| readCollection := fun _ => Some [(std_string "com", [1; 2; 3]%Z)];
                  readVector := fun _ => None |} in
  let second := {| readCollection := fun _ => Some [(std_string "com", [1; 2; 3]%Z);
                                                   (std_string "zmp", [4; 5]%Z)];
                   readVector := fun _ => None |} in
  let signal := {| signalName := std_string "walking"; dataArrived := false |} in
  let remote := std_string "/walking/data:o" in
  let vectors := [(std_string "com", [1; 2; 3]%Z)] in
  dataArrived signal = false
  /\ readCollection first remote = Some vectors
  /\ let '(_, evs) := collect_collection_ticks [(first, 1%Z); (second, 2%Z)]
                        (remote, signal) in
     let full key := signalName signal ++ std_string "::" ++ key in
     added_channels evs = (fun kv => full kv.1) <$> vectors
     /\ forall ports time' vectors' key v,
          (ports, time') ∈ [(second, 2%Z)] -> readCollection ports remote = Some vectors' ->
          (key, v) ∈ vectors' ->
          full key ∈ pushed_channels evs
          /\ (key ∉ vectors.*1 -> full key ∉ added_channels evs).
Proof.
  intros first second signal remote vectors.
  split; [reflexivity|]. split; [reflexivity|].
  exact (@exogenous_collection_channels_from_first_message Z first 1
           [(second, 2%Z)] remote signal vectors eq_refl eq_refl).
Defined.

(** On these two messages: the channel "walking::com" is created, and the
    key "zmp" of the second message is appended without a channel. *)
Example collection_late_key :
  let first := {| readCollection := fun _ => Some [(std_string "com", [1; 2; 3]%Z)];
                  readVector := fun _ => None |} in
  let second := {| readCollection := fun _ => Some [(std_string "com", [1; 2; 3]%Z);
                                                   (std_string "zmp", [4; 5]%Z)];
                   readVector := fun _ => None |} in
  let signal := {| signalName := std_string "walking"; dataArrived := false |} in
  let evs := (collect_collection_ticks [(first, 1%Z); (second, 2%Z)]
                (std_string "/walking/data:o", signal)).2 in
  added_channels evs = [std_string "walking::com"]
  /\ pushed_channels evs
     = [std_string "walking::com"; std_string "walking::com"; std_string "walking::zmp"].
Proof. vm_compute. done. Qed.

Lemma unpackIMU_segments_witness :
  9 <= length [1; 2; 3; 4; 5; 6; 7; 8; 9; 10; 11; 12]%Z
  /\ let '(accelerometer, gyro, orientation) :=
       unpackIMU [1; 2; 3; 4; 5; 6; 7; 8; 9; 10; 11; 12]%Z in
     length orientation = 3 /\ length accelerometer = 3 /\ length gyro = 3
     /\ orientation ++ accelerometer ++ gyro
        = take 9 [1; 2; 3; 4; 5; 6; 7; 8; 9; 10; 11; 12]%Z.
Proof.
  assert (Hlen : 9 <= length [1; 2; 3; 4; 5; 6; 7; 8; 9; 10; 11; 12]%Z) by (simpl; lia).
  split; [exact Hlen|].
  exact (@unpackIMU_segments Z [1; 2; 3; 4; 5; 6; 7; 8; 9; 10; 11; 12]%Z Hlen).
Defined.

(** ** More on the video worker and the rotation *)

(** [std::to_string] gives different indices different texts. *)
Lemma to_string_inj (a b : Z) :
  (0 <= a)%Z -> (0 <= b)%Z -> to_string a = to_string b -> a = b.
Proof.
  intros Ha Hb Heq. unfold to_string, std_string in Heq.
  apply (f_equal string_of_list_ascii) in Heq.
  rewrite !string_of_list_ascii_of_string in Heq.
  apply (f_equal NilEmpty.uint_of_string) in Heq.
  rewrite !NilEmpty.usu in Heq. injection Heq as Heq.
  apply DecimalN.Unsigned.to_uint_inj in Heq. by apply Z2N.inj.
Qed.

Lemma image_file_inj (a b : Z) :
  (0 <= a)%Z -> (0 <= b)%Z -> image_file a = image_file b -> a = b.
Proof.
  intros Ha Hb Heq. unfold image_file in Heq.
  apply app_inv_head, app_inv_tail in Heq. by apply to_string_inj.
Qed.

Section VideoRunFacts.

Context {Mat : Type} `{MatOps Mat}.
Implicit Types (st : CameraState Mat).

Lemma markers_app (evs evs' : list video_event) :
  markers (evs ++ evs') = markers evs ++ markers evs'.
Proof. apply omap_app. Qed.

Lemma filter_keeps_others (file : name) (images : list (name * Mat)) :
  file ∉ images.*1 -> filter (fun kv : name * Mat => kv.1 <> file) images = images.
Proof.
  induction images as [|[nm image] images IH]; intros Hfresh; [done|].
  rewrite filter_cons. simpl in *. rewrite decide_True.
  - f_equal. apply IH. intros Hin. apply Hfresh. by right.
  - intros ->. apply Hfresh. by left.
Qed.

(** The colour stream of one iteration in [Frame] mode. *)
Lemma record_stream_rgb_frame cameraName imageIndex time (color : option Mat)
    st (w : VideoWriter Mat) (saver : ImageSaver Mat) :
  m_videoWriters st !! cameraName = Some w ->
  rgb w = Some saver ->
  saveMode saver = Frame ->
  let frame' := match color with Some image => image | None => frame saver end in
  let saver' := {| saveMode := saveMode saver; frame := frame';
                   writer := writer saver; framesPath := framesPath saver |} in
  exists info,
    record_stream RGB cameraName imageIndex time color st
    = Returned (with_files (cv_imwrite (framesPath saver) (image_file imageIndex) frame'
                              (files st))
                  (store_saver cameraName RGB saver' st),
                info ++ [VLock BufferManagerMutex;
                         VPushBack (std_string "camera::" ++ cameraName ++ std_string "::rgb")
                           time time;
                         VUnlock BufferManagerMutex])
    /\ markers info = [].
Proof.
  intros Hw Hrgb Hmode frame' saver'. unfold record_stream. rewrite Hw.
  cbn [saver_of]. rewrite Hrgb. unfold save_frame. subst saver' frame'.
  cbn [saveMode]. rewrite !Hmode.
  destruct color;
    [exists [] | exists [VLogInfo (std_string "recordVideo: unable to get the frame")]];
    (split; [reflexivity|done]).
Qed.

(** One iteration on a camera that has only a colour stream, saved frame by
    frame. *)
Lemma recordVideo_iteration_frame period cameraName now color depthImage
    (l : video_loop) st (w : VideoWriter Mat) (saver : ImageSaver Mat)
    (images : list (name * Mat)) :
  m_videoWriters st !! cameraName = Some w ->
  rgb w = Some saver -> depth w = None ->
  saveMode saver = Frame ->
  files st !! framesPath saver = Some (Folder images) ->
  image_file (imageIndex l) ∉ images.*1 ->
  exists st' evs image (saver' : ImageSaver Mat),
    recordVideo_iteration period cameraName now color depthImage l st
    = Returned ({| clocks := Schedule.recordVideo_tick period (clocks l) now;
                   imageIndex := (imageIndex l + 1) mod 2 ^ 32 |}, st', evs)
    /\ m_videoWriters st' !! cameraName
       = Some {| rgb := Some saver'; depth := None; fps := fps w; depthScale := depthScale w |}
    /\ saveMode saver' = Frame /\ framesPath saver' = framesPath saver
    /\ files st' !! framesPath saver
       = Some (Folder (images ++ [(image_file (imageIndex l), image)]))
    /\ markers evs = [(std_string "camera::" ++ cameraName ++ std_string "::rgb", now)]
    /\ image = match color with Some c => c | None => frame saver end
    /\ frame saver' = image
    /\ forall path, path <> framesPath saver -> files st' !! path = files st !! path.
Proof.
  intros Hw Hrgb Hdepth Hmode Hfolder Hfresh. unfold recordVideo_iteration.
  destruct (record_stream_rgb_frame cameraName (imageIndex l)
              (Schedule.time (Schedule.recordVideo_tick period (clocks l) now))
              color st w saver Hw Hrgb Hmode) as (info & -> & Hinfo).
  set (frame' := match color with Some image => image | None => frame saver end).
  set (saver' := {| saveMode := saveMode saver; frame := frame';
                    writer := writer saver; framesPath := framesPath saver |}).
  set (st1 := with_files _ (store_saver cameraName RGB saver' st)).
  assert (Hw1 : m_videoWriters st1 !! cameraName
                = Some {| rgb := Some saver'; depth := None; fps := fps w;
                          depthScale := depthScale w |}).
  { subst st1. cbn [m_videoWriters with_files store_saver with_writers].
    rewrite lookup_alter_eq, Hw. cbn [fmap option_fmap option_map set_saver].
    by rewrite Hdepth. }
  unfold record_stream. rewrite Hw1. cbn [saver_of depth].
  exists st1, (info ++ [VLock BufferManagerMutex;
                        VPushBack (std_string "camera::" ++ cameraName ++ std_string "::rgb")
                          (Schedule.time (Schedule.recordVideo_tick period (clocks l) now))
                          (Schedule.time (Schedule.recordVideo_tick period (clocks l) now));
                        VUnlock BufferManagerMutex] ++ []), frame', saver'.
  split; [by rewrite <- app_assoc|].
  split; [exact Hw1|]. split; [exact Hmode|]. split; [reflexivity|].
  split; [|split; [|split; [|split]]].
  - subst st1. cbn [files with_files]. unfold cv_imwrite.
    rewrite Hfolder, lookup_insert_eq. by rewrite filter_keeps_others.
  - rewrite markers_app, Hinfo. reflexivity.
  - reflexivity.
  - reflexivity.
  - intros path Hne. subst st1. cbn [files with_files store_saver with_writers].
    unfold cv_imwrite. rewrite Hfolder. by rewrite lookup_insert_ne.
Qed.

Lemma recordVideo_iterations_frame period cameraName (inputs : list (@video_input Mat)) :
  forall (l : video_loop) st (w : VideoWriter Mat) (saver : ImageSaver Mat)
         (images : list (name * Mat)),
    m_videoWriters st !! cameraName = Some w ->
    rgb w = Some saver -> depth w = None ->
    saveMode saver = Frame ->
    files st !! framesPath saver = Some (Folder images) ->
    (0 <= imageIndex l)%Z ->
    (imageIndex l + Z.of_nat (length inputs) <= 2 ^ 32)%Z ->
    (forall nm, nm ∈ images.*1 -> exists j, (0 <= j < imageIndex l)%Z /\ nm = image_file j) ->
    exists l' st' evs added,
      recordVideo_iterations period cameraName inputs l st = Returned (l', st', evs)
      /\ files st' !! framesPath saver = Some (Folder (images ++ added))
      /\ added.*1 = (fun j => image_file (imageIndex l + Z.of_nat j))
                      <$> seq 0 (length inputs)
      /\ added.*2 = kept_frames (frame saver)
                      ((fun input : @video_input Mat => input.1.2) <$> inputs)
      /\ markers evs
         = (fun input : @video_input Mat =>
              (std_string "camera::" ++ cameraName ++ std_string "::rgb", input.1.1))
             <$> inputs.
Proof.
  induction inputs as [|[[now color] depthImage] rest IH];
    intros l st w saver images Hw Hrgb Hdepth Hmode Hfolder Hidx Hbound Hnames.
  - exists l, st, [], []. cbn [recordVideo_iterations length]. split; [done|].
    split; [by rewrite app_nil_r|]. done.
  - cbn [length] in Hbound. cbn [recordVideo_iterations].
    assert (Hfresh : image_file (imageIndex l) ∉ images.*1).
    { intros Hin. destruct (Hnames _ Hin) as (j & Hj & Heq).
      apply image_file_inj in Heq; lia. }
    destruct (recordVideo_iteration_frame period cameraName now color depthImage l st w saver
                images Hw Hrgb Hdepth Hmode Hfolder Hfresh)
      as (st1 & evs1 & image & saver1 & -> & Hw1 & Hmode1 & Hpath1 & Hfolder1 & Hm1
          & Himage & Hframe1 & _).
    rewrite <- Hpath1 in Hfolder1.
    set (l1 := {| clocks := Schedule.recordVideo_tick period (clocks l) now;
                  imageIndex := ((imageIndex l + 1) mod 2 ^ 32)%Z |}).
    destruct (decide (imageIndex l + 1 < 2 ^ 32)%Z) as [Hsmall|Hwrap].
    + assert (Hidx1 : imageIndex l1 = (imageIndex l + 1)%Z)
        by (subst l1; cbn [imageIndex]; by rewrite Z.mod_small by lia).
      destruct (IH l1 st1 _ saver1 (images ++ [(image_file (imageIndex l), image)])
                  Hw1 eq_refl eq_refl Hmode1 Hfolder1) as (l' & st' & evs' & added & -> & Hf & Ha & Hk & Hm).
      * lia.
      * lia.
      * intros nm. rewrite fmap_app. intros [Hin|Hin]%elem_of_app.
        -- destruct (Hnames _ Hin) as (j & Hj & ->). exists j. split; [lia|done].
        -- apply list_elem_of_singleton in Hin as ->. exists (imageIndex l). split; [lia|done].
      * exists l', st', (evs1 ++ evs'), ((image_file (imageIndex l), image) :: added).
        split; [done|].
        rewrite Hpath1 in Hf. split; [by rewrite Hf, <- app_assoc|]. split.
        -- cbn [length seq]. rewrite fmap_cons, fmap_cons. cbn [fst].
           rewrite Z.add_0_r. f_equal. rewrite Ha.
           rewrite <- fmap_S_seq, <- list_fmap_compose. apply list_fmap_ext.
           intros i j _. unfold compose. rewrite Hidx1. f_equal. lia.
        -- split; [|rewrite markers_app, Hm1, Hm; done].
           rewrite fmap_cons, fmap_cons. cbn [snd kept_frames].
           rewrite Hk, Hframe1, Himage. done.
    + assert (rest = []) as -> by (destruct rest; [done|simpl in Hbound; lia]).
      cbn [recordVideo_iterations]. exists l1, st1, (evs1 ++ []), [(image_file (imageIndex l), image)].
      split; [done|]. rewrite Hpath1 in Hfolder1. split; [done|]. split; [|split].
      * cbn. by rewrite Z.add_0_r.
      * cbn. by rewrite Himage.
      * by rewrite app_nil_r, Hm1.
Qed.

(** A camera with only a colour stream saved frame by frame, started on an
    empty frames folder: [n] iterations of [recordVideo] leave exactly the
    [n] image files img_0.png ... img_(n-1).png in the folder and append
    exactly [n] markers to the channel of the camera, one per iteration and
    stamped with its reading of the clock.  An iteration in which the camera
    delivers no image counts like the others: it saves the image of the
    iteration before once more, under the next name. *)
Theorem frame_mode_one_image_per_iteration period cameraName
    (inputs : list (@video_input Mat)) (l : video_loop) st
    (w : VideoWriter Mat) (saver : ImageSaver Mat) :
  m_videoWriters st !! cameraName = Some w ->
  rgb w = Some saver -> depth w = None ->
  saveMode saver = Frame ->
  files st !! framesPath saver = Some (Folder []) ->
  imageIndex l = 0%Z ->
  (Z.of_nat (length inputs) <= 2 ^ 32)%Z ->
  exists l' st' evs images,
    recordVideo_iterations period cameraName inputs l st = Returned (l', st', evs)
    /\ files st' !! framesPath saver = Some (Folder images)
    /\ images.*1 = (fun j => image_file (Z.of_nat j)) <$> seq 0 (length inputs)
    /\ images.*2 = kept_frames (frame saver)
                     ((fun input : @video_input Mat => input.1.2) <$> inputs)
    /\ markers evs
       = (fun input : @video_input Mat =>
            (std_string "camera::" ++ cameraName ++ std_string "::rgb", input.1.1))
           <$> inputs.
Proof.
  intros Hw Hrgb Hdepth Hmode Hfolder Hidx Hbound.
  destruct (recordVideo_iterations_frame period cameraName inputs l st w saver []
              Hw Hrgb Hdepth Hmode Hfolder) as (l' & st' & evs & added & Hrun & Hf & Ha & Hk & Hm).
  - lia.
  - lia.
  - intros nm Hin. by apply elem_of_nil in Hin.
  - exists l', st', evs, added. split; [done|]. split; [done|]. split; [|done].
    rewrite Ha, Hidx. done.
Qed.

End VideoRunFacts.


Lemma frame_mode_one_image_per_iteration_witness :
  let st := VideoSamples.empty_folder in
  let saver := CameraSamples.frame_saver "output_cam_rgb" in
  let w := {| rgb := Some saver; depth := None; fps := 30%Z; depthScale := 1%Z |} in
  let l := {| clocks := Schedule.start 0; imageIndex := 0 |} in
  let inputs := VideoSamples.three_iterations in
  m_videoWriters st !! std_string "cam" = Some w
  /\ files st !! framesPath saver = Some (Folder [])
  /\ (Z.of_nat (length inputs) <= 2 ^ 32)%Z
  /\ exists l' st' evs images,
       recordVideo_iterations 33333333 (std_string "cam") inputs l st = Returned (l', st', evs)
       /\ files st' !! framesPath saver = Some (Folder images)
       /\ images.*1 = (fun j => image_file (Z.of_nat j)) <$> seq 0 (length inputs)
       /\ images.*2 = kept_frames (frame saver)
                        ((fun input : @video_input (list Z) => input.1.2) <$> inputs)
       /\ markers evs
          = (fun input : @video_input (list Z) =>
               (std_string "camera::" ++ std_string "cam" ++ std_string "::rgb", input.1.1))
              <$> inputs.
Proof.
  intros st saver w l inputs.
  assert (Hw : m_videoWriters st !! std_string "cam" = Some w) by (vm_compute; reflexivity).
  assert (Hf : files st !! framesPath saver = Some (Folder [])) by (vm_compute; reflexivity).
  assert (Hn : (Z.of_nat (length inputs) <= 2 ^ 32)%Z) by (vm_compute; discriminate).
  split; [exact Hw|]. split; [exact Hf|]. split; [exact Hn|].
  exact (frame_mode_one_image_per_iteration 33333333 (std_string "cam") inputs l st w saver
           Hw eq_refl eq_refl eq_refl Hf eq_refl Hn).
Defined.

(** On the sample: the second iteration, without a new image, saves the
    image of the first as img_1.png. *)
Example frame_mode_sample :
  match recordVideo_iterations 33333333 (std_string "cam") VideoSamples.three_iterations
          {| clocks := Schedule.start 0; imageIndex := 0 |} VideoSamples.empty_folder with
  | Returned (l, st, evs) =>
      files st !! std_string "output_cam_rgb"
      = Some (Folder [(std_string "img_0.png", [1%Z]); (std_string "img_1.png", [1%Z]);
                      (std_string "img_2.png", [3%Z])])
      /\ imageIndex l = 3%Z
      /\ markers evs = [(std_string "camera::cam::rgb", 10%Z);
                        (std_string "camera::cam::rgb", 20%Z);
                        (std_string "camera::cam::rgb", 30%Z)]
  | Thrown => False
  end.
Proof. vm_compute. done. Qed.

Section RotationRuns.

Context {Mat : Type} `{MatOps Mat}.
Implicit Types (st : CameraState Mat).

Lemma files_store_saver (camera : name) (s : stream) (saver : ImageSaver Mat) st :
  files (store_saver camera s saver st) = files st.
Proof. done. Qed.

Lemma saveVideo_frame (fileName : name) (s : stream) (camera : name) st
    (w : VideoWriter Mat) (saver : ImageSaver Mat) (images : list (name * Mat)) :
  m_videoWriters st !! camera = Some w ->
  saver_of s w = Some saver ->
  saveMode saver = Frame ->
  files st !! output_name camera s = Some (Folder images) ->
  rotated_folder fileName camera s <> output_name camera s ->
  files st !! rotated_folder fileName camera s = None
  \/ files st !! rotated_folder fileName camera s = Some (Folder []) ->
  saveVideo fileName s camera st
  = Returned (true,
      with_files (<[rotated_folder fileName camera s := Folder images]>
                    (delete (output_name camera s) (files st))) st).
Proof.
  intros Hw Hsaver Hmode Hfolder Hne Hfree. unfold saveVideo, writers_at.
  rewrite Hw, Hsaver, Hmode. unfold fs_rename.
  change (fileName ++ std_string "_" ++ camera ++ std_string "_" ++ stream_name s)
    with (rotated_folder fileName camera s).
  rewrite Hfolder, decide_False by done. by destruct Hfree as [-> | ->].
Qed.

(** Renaming a file to a name that no folder has. *)
Lemma fs_rename_file (from to : name) (f : gmap name (node Mat)) (frames : list Mat) :
  f !! from = Some (VideoFile frames) ->
  (forall entries, f !! to <> Some (Folder entries)) ->
  exists f',
    fs_rename from to f = Some f'
    /\ f' !! to = Some (VideoFile frames)
    /\ (from <> to -> f' = <[to := VideoFile frames]> (delete from f)).
Proof.
  intros Hfrom Hfree. unfold fs_rename. rewrite Hfrom.
  destruct (decide (from = to)) as [<-|Hne]; [by exists f|].
  destruct (f !! to) as [[frames'|entries|]|] eqn:Hto;
    [|by destruct (Hfree entries)|..];
    (eexists; split; [done|]); by rewrite lookup_insert_eq.
Qed.

Lemma saveVideo_video (fileName : name) (s : stream) (camera : name) st
    (w : VideoWriter Mat) (saver : ImageSaver Mat) (encoder : cvVideoWriter)
    (frames : list Mat) :
  m_videoWriters st !! camera = Some w ->
  saver_of s w = Some saver ->
  saveMode saver = Video ->
  writer saver = Some encoder ->
  files st !! video_file camera s = Some (VideoFile frames) ->
  (forall entries, files st !! rotated_video fileName camera s <> Some (Folder entries)) ->
  exists f,
    saveVideo fileName s camera st
    = Returned (true,
        with_files f
          (store_saver camera s
             {| saveMode := saveMode saver; frame := frame saver;
                writer := Some (release encoder); framesPath := framesPath saver |} st))
    /\ f !! rotated_video fileName camera s = Some (VideoFile frames)
    /\ (rotated_video fileName camera s <> video_file camera s ->
        f = <[rotated_video fileName camera s := VideoFile frames]>
              (delete (video_file camera s) (files st))).
Proof.
  intros Hw Hsaver Hmode Hwriter Hfile Hfree.
  destruct (fs_rename_file _ _ _ _ Hfile Hfree) as (f & Hrename & Hto & Hf).
  exists f. split; [|split; [done|by auto]].
  unfold saveVideo, writers_at. rewrite Hw, Hsaver, Hmode, Hwriter.
  rewrite !files_store_saver. unfold video_file, rotated_video, rotated_folder in Hrename.
  by rewrite Hrename.
Qed.

Lemma reopen_frame (s : stream) (camera : name) (dims : gmap name (nat * nat)) st
    (w : VideoWriter Mat) (saver : ImageSaver Mat) :
  m_videoWriters st !! camera = Some w ->
  saver_of s w = Some saver ->
  saveMode saver = Frame ->
  reopen s camera dims st
  = Returned (true,
      with_files (fs_create_directory (output_name camera s) (files st))
        (store_saver camera s
           {| saveMode := saveMode saver; frame := frame saver; writer := writer saver;
              framesPath := output_name camera s |} st)).
Proof.
  intros Hw Hsaver Hmode. unfold reopen, writers_at. rewrite Hw, Hsaver, Hmode.
  unfold createFramesFolder. by rewrite Hw, Hsaver, Hmode.
Qed.

Lemma reopen_video (s : stream) (camera : name) (dims : gmap name (nat * nat)) st
    (w : VideoWriter Mat) (saver : ImageSaver Mat) (size : nat * nat) :
  m_videoWriters st !! camera = Some w ->
  saver_of s w = Some saver ->
  saveMode saver = Video ->
  dims !! camera = Some size ->
  reopen s camera dims st
  = Returned (true,
      with_files (<[video_file camera s := VideoFile []]> (files st))
        (store_saver camera s
           {| saveMode := saveMode saver; frame := frame saver;
              writer := Some {| filename := video_file camera s; isOpened := true |};
              framesPath := framesPath saver |} st)).
Proof.
  intros Hw Hsaver Hmode Hdims. unfold reopen, writers_at. rewrite Hw, Hsaver, Hmode.
  unfold openVideoWriter. by rewrite Hw, Hsaver, Hdims, Hmode.
Qed.

Lemma store_saver_lookup (camera : name) (s : stream) (saver : ImageSaver Mat) st
    (w : VideoWriter Mat) :
  m_videoWriters st !! camera = Some w ->
  m_videoWriters (store_saver camera s saver st) !! camera = Some (set_saver s saver w).
Proof.
  intros Hw. unfold store_saver. cbn [m_videoWriters with_writers].
  by rewrite lookup_alter_eq, Hw.
Qed.

Lemma saver_of_set_saver (s : stream) (saver : ImageSaver Mat) (w : VideoWriter Mat) :
  saver_of s (set_saver s saver w) = Some saver.
Proof. by destruct s. Qed.

(** A camera with only a colour stream saved frame by frame is rotated by a
    periodic save, the name qualified by the rotation prefix being free or
    that of an empty folder, and the video worker then runs one more
    iteration.  The images saved before the rotation are in the folder named after the
    rotation, and the new folder under the provisional name holds exactly the
    image of this iteration, named by the running index of the worker: the
    numbering of the image files is not restarted by a rotation. *)
Theorem frame_numbering_continues_after_rotation (fileName cameraName : name) st
    (w : VideoWriter Mat) (saver : ImageSaver Mat) (images : list (name * Mat))
    (period now : Z) (color depthImage : option Mat) (l : video_loop) :
  m_videoWriters st !! cameraName = Some w ->
  rgb w = Some saver -> depth w = None ->
  saveMode saver = Frame ->
  files st !! output_name cameraName RGB = Some (Folder images) ->
  rotated_folder fileName cameraName RGB <> output_name cameraName RGB ->
  files st !! rotated_folder fileName cameraName RGB = None
  \/ files st !! rotated_folder fileName cameraName RGB = Some (Folder []) ->
  exists st1 l' st2 evs,
    rotate_rgb_camera fileName periodic cameraName st = Returned (true, st1)
    /\ recordVideo_iteration period cameraName now color depthImage l st1
       = Returned (l', st2, evs)
    /\ files st2 !! rotated_folder fileName cameraName RGB = Some (Folder images)
    /\ files st2 !! output_name cameraName RGB
       = Some (Folder [(image_file (imageIndex l),
                        match color with Some c => c | None => frame saver end)]).
Proof.
  intros Hw Hrgb Hdepth Hmode Hfolder Hne Hfree.
  set (st0 := with_files (<[rotated_folder fileName cameraName RGB := Folder images]>
                            (delete (output_name cameraName RGB) (files st))) st).
  assert (Hsave : saveVideo fileName RGB cameraName st = Returned (true, st0))
    by (by apply (saveVideo_frame fileName RGB cameraName st w saver images)).
  set (saver1 := {| saveMode := saveMode saver; frame := frame saver; writer := writer saver;
                    framesPath := output_name cameraName RGB |}).
  set (st1 := with_files (fs_create_directory (output_name cameraName RGB) (files st0))
                (store_saver cameraName RGB saver1 st0)).
  assert (Hre : reopen RGB cameraName (rgbImgDimensions st0) st0 = Returned (true, st1))
    by (by apply (reopen_frame RGB cameraName _ st0 w saver)).
  assert (Hrot : rotate_rgb_camera fileName periodic cameraName st = Returned (true, st1)).
  { unfold rotate_rgb_camera, saveVideo_or_log. rewrite Hsave. exact Hre. }
  assert (Hw1 : m_videoWriters st1 !! cameraName = Some (set_saver RGB saver1 w))
    by (by apply (store_saver_lookup cameraName RGB saver1 st0 w)).
  assert (Hnone : files st0 !! output_name cameraName RGB = None).
  { subst st0. cbn [files with_files]. by rewrite lookup_insert_ne, lookup_delete_eq. }
  assert (Hf1 : files st1 !! framesPath saver1 = Some (Folder [])).
  { subst st1. cbn [files with_files framesPath saver1]. rewrite ?files_store_saver.
    unfold fs_create_directory. rewrite Hnone. by rewrite lookup_insert_eq. }
  assert (Hr1 : files st1 !! rotated_folder fileName cameraName RGB = Some (Folder images)).
  { subst st1. cbn [files with_files]. rewrite ?files_store_saver.
    unfold fs_create_directory. rewrite Hnone. rewrite lookup_insert_ne by done.
    subst st0. cbn [files with_files]. by rewrite lookup_insert_eq. }
  destruct (recordVideo_iteration_frame period cameraName now color depthImage l st1
              (set_saver RGB saver1 w) saver1 [] Hw1 eq_refl Hdepth Hmode Hf1)
    as (st2 & evs & image & saver2 & Hit & _ & _ & _ & Hf2 & _ & Himage & _ & Hother).
  { apply not_elem_of_nil. }
  exists st1. eexists. exists st2, evs. split; [exact Hrot|]. split; [exact Hit|]. split.
  - rewrite Hother by done. exact Hr1.
  - cbn [framesPath saver1] in Hf2. rewrite Hf2, Himage. done.
Qed.

(** A stream recorded as a video is rotated by a periodic save, the name
    qualified by the rotation prefix not being that of a folder, and a new
    image is then recorded.  The file named after the rotation holds the
    frames written before it and does not receive the new one; the new file
    under the provisional name holds exactly the new frame. *)
Theorem video_recording_resumes_in_new_file (fileName cameraName : name) (s : stream) st
    (w : VideoWriter Mat) (saver : ImageSaver Mat) (encoder : cvVideoWriter)
    (frames : list Mat) (dims : gmap name (nat * nat)) (imageIndex time : Z) (image : Mat) :
  m_videoWriters st !! cameraName = Some w ->
  saver_of s w = Some saver ->
  saveMode saver = Video ->
  writer saver = Some encoder ->
  files st !! video_file cameraName s = Some (VideoFile frames) ->
  is_Some (dims !! cameraName) ->
  rotated_video fileName cameraName s <> video_file cameraName s ->
  (forall entries,
     files st !! rotated_video fileName cameraName s <> Some (Folder entries)) ->
  exists st1 st2 st3 evs,
    saveVideo fileName s cameraName st = Returned (true, st1)
    /\ reopen s cameraName dims st1 = Returned (true, st2)
    /\ record_stream s cameraName imageIndex time (Some image) st2 = Returned (st3, evs)
    /\ files st3 !! rotated_video fileName cameraName s = Some (VideoFile frames)
    /\ files st3 !! video_file cameraName s
       = Some (VideoFile [match s with
                          | RGB => image
                          | Depth => convertTo_8UC1 (mat_scale image (depthScale w))
                          end]).
Proof.
  intros Hw Hsaver Hmode Hwriter Hfile [size Hdims] Hne Hfree.
  set (saver0 := {| saveMode := saveMode saver; frame := frame saver;
                    writer := Some (release encoder); framesPath := framesPath saver |}).
  destruct (saveVideo_video fileName s cameraName st w saver encoder frames
              Hw Hsaver Hmode Hwriter Hfile Hfree) as (f & Hsave & Hrotated & _).
  fold saver0 in Hsave.
  set (st1 := with_files f (store_saver cameraName s saver0 st)) in *.
  assert (Hw1 : m_videoWriters st1 !! cameraName = Some (set_saver s saver0 w))
    by (by apply (store_saver_lookup cameraName s saver0 st w)).
  set (saver1 := {| saveMode := saveMode saver0; frame := frame saver0;
                    writer := Some {| filename := video_file cameraName s; isOpened := true |};
                    framesPath := framesPath saver0 |}).
  set (st2 := with_files (<[video_file cameraName s := VideoFile []]> (files st1))
                (store_saver cameraName s saver1 st1)).
  assert (Hre : reopen s cameraName dims st1 = Returned (true, st2)).
  { apply (reopen_video s cameraName dims st1 (set_saver s saver0 w) saver0 size Hw1);
      [apply saver_of_set_saver|exact Hmode|exact Hdims]. }
  assert (Hw2 : m_videoWriters st2 !! cameraName
                = Some (set_saver s saver1 (set_saver s saver0 w)))
    by (by apply (store_saver_lookup cameraName s saver1 st1)).
  exists st1, st2. do 2 eexists. split; [exact Hsave|]. split; [exact Hre|].
  unfold record_stream. rewrite Hw2, saver_of_set_saver. unfold save_frame.
  cbn [saveMode writer saver1 saver0]. rewrite Hmode.
  split; [reflexivity|]. cbn [files with_files]. rewrite ?files_store_saver.
  unfold cv_write. cbn [isOpened filename]. subst st2. cbn [files with_files].
  rewrite ?files_store_saver, lookup_insert_eq. split.
  - rewrite lookup_insert_ne by done. rewrite lookup_insert_ne by done.
    subst st1. cbn [files with_files]. exact Hrotated.
  - rewrite lookup_insert_eq. by destruct s.
Qed.

(** Once the final save has released the encoder of a stream recorded as a
    video and renamed its file, to a name that was not that of a folder, an
    image recorded on that stream is written nowhere: the files
    are left as the save left them, the saved video with the frames it had,
    and no failure is raised. *)
Theorem frames_after_final_save_are_dropped (fileName cameraName : name) (s : stream) st
    (w : VideoWriter Mat) (saver : ImageSaver Mat) (encoder : cvVideoWriter)
    (frames : list Mat) (imageIndex time : Z) (got : option Mat) :
  m_videoWriters st !! cameraName = Some w ->
  saver_of s w = Some saver ->
  saveMode saver = Video ->
  writer saver = Some encoder ->
  files st !! video_file cameraName s = Some (VideoFile frames) ->
  (forall entries,
     files st !! rotated_video fileName cameraName s <> Some (Folder entries)) ->
  exists st1 st2 evs,
    saveVideo fileName s cameraName st = Returned (true, st1)
    /\ record_stream s cameraName imageIndex time got st1 = Returned (st2, evs)
    /\ files st2 = files st1
    /\ files st1 !! rotated_video fileName cameraName s = Some (VideoFile frames).
Proof.
  intros Hw Hsaver Hmode Hwriter Hfile Hfree.
  set (saver0 := {| saveMode := saveMode saver; frame := frame saver;
                    writer := Some (release encoder); framesPath := framesPath saver |}).
  destruct (saveVideo_video fileName s cameraName st w saver encoder frames
              Hw Hsaver Hmode Hwriter Hfile Hfree) as (f & Hsave & Hrotated & _).
  fold saver0 in Hsave.
  set (st1 := with_files f (store_saver cameraName s saver0 st)) in *.
  assert (Hw1 : m_videoWriters st1 !! cameraName = Some (set_saver s saver0 w))
    by (by apply (store_saver_lookup cameraName s saver0 st w)).
  exists st1. do 2 eexists. split; [exact Hsave|].
  unfold record_stream. rewrite Hw1, saver_of_set_saver. unfold save_frame.
  cbn [saveMode writer saver0]. rewrite Hmode.
  split; [reflexivity|]. split.
  - cbn [files with_files]. by rewrite ?files_store_saver.
  - subst st1. cbn [files with_files]. exact Hrotated.
Qed.

Lemma for_cameras_reported
    (body : name -> CameraState Mat -> outcome (bool * CameraState Mat)) cameras :
  (forall camera st b st', body camera st = Returned (b, st') -> reported b st st') ->
  forall st b st', for_cameras body cameras st = Returned (b, st') -> reported b st st'.
Proof.
  intros Hbody. induction cameras as [|camera cameras IH]; intros st b st'.
  - intros [= <- <-]. reflexivity.
  - cbn [for_cameras]. apply and_then_reported; [apply Hbody|apply IH].
Qed.

(** Whenever [saveCallback] returns, its result tells what happened: with
    [true] no error has been logged and the status file
    [fileName + ".md"] has been written; with [false] at least one error
    message has been logged. *)
Theorem saveCallback_result_is_reported (fileName : name) (method : SaveCallbackSaveMethod)
    st (b : bool) st' :
  saveCallback fileName method st = Returned (b, st') ->
  if b then errors st' = errors st /\ files st' !! status_file fileName = Some StatusFile
  else exists msgs, msgs <> [] /\ errors st' = errors st ++ msgs.
Proof.
  intros Hcall.
  assert (Hrep : reported b st st').
  { revert Hcall. unfold saveCallback. apply and_then_reported.
    - intros b1 st1. apply for_cameras_reported. intros camera st2 b2 st3.
      apply rotate_rgb_camera_reported.
    - intros st1 b2 st2. apply and_then_reported.
      + intros b1 st3. apply for_cameras_reported. intros camera st4 b4 st5.
        apply rotate_rgbd_camera_reported.
      + by intros st3 b3 st4 [= <- <-]. }
  destruct b; [|exact Hrep]. split; [exact Hrep|].
  revert Hcall. unfold saveCallback, and_then.
  destruct (for_cameras _ (m_rgbCamerasList st) st) as [[[] st1]|]; [|done|done].
  destruct (for_cameras _ (m_rgbdCamerasList st1) st1) as [[[] st2]|]; [|done|done].
  intros [= <-]. unfold write_status, status_file. cbn [files with_files].
  by rewrite lookup_insert_eq.
Qed.

End RotationRuns.


Lemma frame_numbering_continues_after_rotation_witness :
  let st := CameraSamples.one_frame_camera in
  let saver := CameraSamples.frame_saver "output_cam_rgb" in
  let w := {| rgb := Some saver; depth := None; fps := 30%Z; depthScale := 1%Z |} in
  let images := [(std_string "img_0.png", [7%Z])] in
  let l := {| clocks := Schedule.start 0; imageIndex := 1 |} in
  m_videoWriters st !! std_string "cam" = Some w
  /\ files st !! output_name (std_string "cam") RGB = Some (Folder images)
  /\ rotated_folder (std_string "run1") (std_string "cam") RGB
     <> output_name (std_string "cam") RGB
  /\ (files st !! rotated_folder (std_string "run1") (std_string "cam") RGB = None
      \/ files st !! rotated_folder (std_string "run1") (std_string "cam") RGB
         = Some (Folder []))
  /\ exists st1 l' st2 evs,
       rotate_rgb_camera (std_string "run1") periodic (std_string "cam") st
       = Returned (true, st1)
       /\ recordVideo_iteration 33333333 (std_string "cam") 40 (Some [8%Z]) None l st1
          = Returned (l', st2, evs)
       /\ files st2 !! rotated_folder (std_string "run1") (std_string "cam") RGB
          = Some (Folder images)
       /\ files st2 !! output_name (std_string "cam") RGB
          = Some (Folder [(image_file (imageIndex l), [8%Z])]).
Proof.
  intros st saver w images l.
  assert (Hw : m_videoWriters st !! std_string "cam" = Some w) by (vm_compute; reflexivity).
  assert (Hf : files st !! output_name (std_string "cam") RGB = Some (Folder images))
    by (vm_compute; reflexivity).
  assert (Hne : rotated_folder (std_string "run1") (std_string "cam") RGB
                <> output_name (std_string "cam") RGB) by (vm_compute; discriminate).
  assert (Hfree : files st !! rotated_folder (std_string "run1") (std_string "cam") RGB = None
                  \/ files st !! rotated_folder (std_string "run1") (std_string "cam") RGB
                     = Some (Folder []))
    by (left; vm_compute; reflexivity).
  split; [exact Hw|]. split; [exact Hf|]. split; [exact Hne|]. split; [exact Hfree|].
  exact (frame_numbering_continues_after_rotation (std_string "run1") (std_string "cam") st
           w saver images 33333333 40 (Some [8%Z]) None l Hw eq_refl eq_refl eq_refl Hf Hne
           Hfree).
Defined.

Lemma video_recording_resumes_in_new_file_witness :
  let st := CameraSamples.two_videos in
  let saver := CameraSamples.video_saver "output_cam2_rgb.mp4" in
  let w := {| rgb := Some saver; depth := None; fps := 30%Z; depthScale := 1%Z |} in
  let encoder := {| filename := std_string "output_cam2_rgb.mp4"; isOpened := true |} in
  m_videoWriters st !! std_string "cam2" = Some w
  /\ files st !! video_file (std_string "cam2") RGB = Some (VideoFile [[2%Z]])
  /\ is_Some (rgbImgDimensions st !! std_string "cam2")
  /\ rotated_video (std_string "run1") (std_string "cam2") RGB
     <> video_file (std_string "cam2") RGB
  /\ (forall entries,
        files st !! rotated_video (std_string "run1") (std_string "cam2") RGB
        <> Some (Folder entries))
  /\ exists st1 st2 st3 evs,
       saveVideo (std_string "run1") RGB (std_string "cam2") st = Returned (true, st1)
       /\ reopen RGB (std_string "cam2") (rgbImgDimensions st) st1 = Returned (true, st2)
       /\ record_stream RGB (std_string "cam2") 5 40 (Some [8%Z]) st2 = Returned (st3, evs)
       /\ files st3 !! rotated_video (std_string "run1") (std_string "cam2") RGB
          = Some (VideoFile [[2%Z]])
       /\ files st3 !! video_file (std_string "cam2") RGB = Some (VideoFile [[8%Z]]).
Proof.
  intros st saver w encoder.
  assert (Hw : m_videoWriters st !! std_string "cam2" = Some w) by (vm_compute; reflexivity).
  assert (Hf : files st !! video_file (std_string "cam2") RGB = Some (VideoFile [[2%Z]]))
    by (vm_compute; reflexivity).
  assert (Hd : is_Some (rgbImgDimensions st !! std_string "cam2"))
    by (exists (640, 480); vm_compute; reflexivity).
  assert (Hne : rotated_video (std_string "run1") (std_string "cam2") RGB
                <> video_file (std_string "cam2") RGB) by (vm_compute; discriminate).
  assert (Hfree : forall entries,
            files st !! rotated_video (std_string "run1") (std_string "cam2") RGB
            <> Some (Folder entries))
    by (intros entries; vm_compute; discriminate).
  split; [exact Hw|]. split; [exact Hf|]. split; [exact Hd|]. split; [exact Hne|].
  split; [exact Hfree|].
  exact (video_recording_resumes_in_new_file (std_string "run1") (std_string "cam2") RGB st
           w saver encoder [[2%Z]] (rgbImgDimensions st) 5 40 [8%Z]
           Hw eq_refl eq_refl eq_refl Hf Hd Hne Hfree).
Defined.

Lemma frames_after_final_save_are_dropped_witness :
  let st := CameraSamples.two_videos in
  let saver := CameraSamples.video_saver "output_cam1_rgb.mp4" in
  let w := {| rgb := Some saver; depth := None; fps := 30%Z; depthScale := 1%Z |} in
  let encoder := {| filename := std_string "output_cam1_rgb.mp4"; isOpened := true |} in
  m_videoWriters st !! std_string "cam1" = Some w
  /\ files st !! video_file (std_string "cam1") RGB = Some (VideoFile [[1%Z]])
  /\ (forall entries,
        files st !! rotated_video (std_string "run1") (std_string "cam1") RGB
        <> Some (Folder entries))
  /\ exists st1 st2 evs,
       saveVideo (std_string "run1") RGB (std_string "cam1") st = Returned (true, st1)
       /\ record_stream RGB (std_string "cam1") 5 40 (Some [8%Z]) st1 = Returned (st2, evs)
       /\ files st2 = files st1
       /\ files st1 !! rotated_video (std_string "run1") (std_string "cam1") RGB
          = Some (VideoFile [[1%Z]]).
Proof.
  intros st saver w encoder.
  assert (Hw : m_videoWriters st !! std_string "cam1" = Some w) by (vm_compute; reflexivity).
  assert (Hf : files st !! video_file (std_string "cam1") RGB = Some (VideoFile [[1%Z]]))
    by (vm_compute; reflexivity).
  assert (Hfree : forall entries,
            files st !! rotated_video (std_string "run1") (std_string "cam1") RGB
            <> Some (Folder entries))
    by (intros entries; vm_compute; discriminate).
  split; [exact Hw|]. split; [exact Hf|]. split; [exact Hfree|].
  exact (frames_after_final_save_are_dropped (std_string "run1") (std_string "cam1") RGB st
           w saver encoder [[1%Z]] 5 40 (Some [8%Z]) Hw eq_refl eq_refl eq_refl Hf Hfree).
Defined.

Lemma saveCallback_result_is_reported_witness :
  let st := CameraSamples.one_frame_camera in
  let st' := match saveCallback (std_string "run1") periodic st with
             | Returned (_, st') => st'
             | Thrown => st
             end in
  saveCallback (std_string "run1") periodic st = Returned (true, st')
  /\ errors st' = errors st
  /\ files st' !! status_file (std_string "run1") = Some StatusFile.
Proof.
  intros st st'.
  assert (Hcall : saveCallback (std_string "run1") periodic st = Returned (true, st'))
    by (vm_compute; reflexivity).
  split; [exact Hcall|].
  exact (saveCallback_result_is_reported (std_string "run1") periodic st true st' Hcall).
Defined.

(** The callback on the two sample cameras, of which the first cannot be
    reopened: [false] comes with two messages in the log. *)
Example saveCallback_failure_sample :
  match saveCallback (std_string "run1") periodic CameraSamples.two_videos with
  | Returned (b, st') => b = false /\ length (errors st') = 2
  | Thrown => False
  end.
Proof. vm_compute. done. Qed.


(** ** More on the configuration: [open] *)
Section OpenRuns.

Context {Mat : Type} `{MatOps Mat}.
Implicit Types (st : CameraState Mat) (d : Device Mat) (w : VideoWriter Mat).

Lemma assign_lookup (camera : name) (f : VideoWriter Mat -> VideoWriter Mat) st :
  m_videoWriters (assign camera f st) !! camera
  = Some (f (default VideoWriter_default (m_videoWriters st !! camera))).
Proof.
  unfold assign, writers_at. destruct (m_videoWriters st !! camera) as [w|];
    cbn [m_videoWriters with_writers default]; by rewrite lookup_insert_eq.
Qed.

Lemma assign_lookup_ne (camera other : name) (f : VideoWriter Mat -> VideoWriter Mat) st :
  camera <> other ->
  m_videoWriters (assign camera f st) !! other = m_videoWriters st !! other.
Proof.
  intros Hne. unfold assign, writers_at. destruct (m_videoWriters st !! camera) as [w|];
    cbn [m_videoWriters with_writers]; by rewrite !lookup_insert_ne.
Qed.

Lemma assign_errors (camera : name) (f : VideoWriter Mat -> VideoWriter Mat) st :
  errors (assign camera f st) = errors st.
Proof. unfold assign, writers_at. by destruct (m_videoWriters st !! camera). Qed.

Lemma populate_loop_success kind n :
  forall i rates scales rgbSaveMode depthSaveMode cameraNames ok st st',
    NoDup cameraNames -> i + n <= length cameraNames ->
    populate_loop kind n i rates scales rgbSaveMode depthSaveMode cameraNames ok st
    = (true, st') ->
    ok = true /\ errors st' = errors st
    /\ (forall camera, (forall j, i <= j < i + n -> cameraNames !! j <> Some camera) ->
          m_videoWriters st' !! camera = m_videoWriters st !! camera)
    /\ (forall j camera, i <= j < i + n -> cameraNames !! j = Some camera ->
          exists w, m_videoWriters st' !! camera = Some w
                    /\ configured kind rates scales rgbSaveMode depthSaveMode j w).
Proof.
  induction n as [|n IH];
    intros i rates scales rgbSaveMode depthSaveMode cameraNames ok st st' Hnodup Hlen.
  - cbn [populate_loop]. intros [= -> ->]. split; [done|]. split; [done|]. split; [done|].
    intros j camera Hj. lia.
  - cbn [populate_loop]. destruct (decide (rates !!! i <= 0)%Z) as [|Hpos]; [done|].
    destruct (lookup_lt_is_Some_2 cameraNames i ltac:(lia)) as [c Hc].
    rewrite (list_lookup_total_correct _ _ _ Hc).
    assert (Hlater : forall j, S i <= j < S i + n -> cameraNames !! j <> Some c).
    { intros j Hj Hjc. pose proof (NoDup_lookup _ _ _ _ Hnodup Hc Hjc). lia. }
    destruct kind.
    + intros Hloop.
      apply IH in Hloop as (Hok & Herr & Hframe & Hdone); [|done|lia].
      apply andb_true_iff in Hok as [-> Hsaver]. apply bool_decide_eq_true in Hsaver.
      destruct (createImageSaver (rgbSaveMode !!! i)) as [saver|] eqn:Hmode;
        [|by destruct Hsaver].
      cbn [log_unless_saver] in *. split; [done|]. split.
      { by rewrite Herr, !assign_errors. }
      split.
      * intros camera Hother. rewrite Hframe by (intros j Hj; apply Hother; lia).
        assert (c <> camera) by (intros ->; by apply (Hother i); [lia|]).
        by rewrite !assign_lookup_ne.
      * intros j camera Hj Hjc. destruct (decide (j = i)) as [->|Hji].
        -- assert (camera = c) as -> by congruence.
           rewrite Hframe by exact Hlater. rewrite assign_lookup, assign_lookup.
           eexists. split; [reflexivity|]. unfold configured. cbn.
           rewrite Hmode. repeat split; try done; lia.
        -- apply Hdone; [lia|done].
    + intros Hloop.
      apply IH in Hloop as (Hok & Herr & Hframe & Hdone); [|done|lia].
      apply andb_true_iff in Hok as [Hok Hdepth]. apply andb_true_iff in Hok as [-> Hsaver].
      apply bool_decide_eq_true in Hsaver. apply bool_decide_eq_true in Hdepth.
      destruct (createImageSaver (rgbSaveMode !!! i)) as [saver|] eqn:Hmode;
        [|by destruct Hsaver].
      destruct (createImageSaver (depthSaveMode !!! i)) as [depthSaver|] eqn:Hdmode;
        [|by destruct Hdepth].
      cbn [log_unless_saver] in *. split; [done|]. split.
      { by rewrite Herr, !assign_errors. }
      split.
      * intros camera Hother. rewrite Hframe by (intros j Hj; apply Hother; lia).
        assert (c <> camera) by (intros ->; by apply (Hother i); [lia|]).
        by rewrite !assign_lookup_ne.
      * intros j camera Hj Hjc. destruct (decide (j = i)) as [->|Hji].
        -- assert (camera = c) as -> by congruence.
           rewrite Hframe by exact Hlater. rewrite !assign_lookup.
           eexists. split; [reflexivity|]. unfold configured. cbn.
           rewrite Hmode, Hdmode. repeat split; try done; lia.
        -- apply Hdone; [lia|done].
Qed.

(** When [populateCamerasData] succeeds on a list of distinct camera names,
    the vectors of the configuration are as long as the list, no error has
    been logged, and the camera of index [i] has an entry in the video
    writers with the [i]-th frame rate, which is positive, a colour saver of
    the [i]-th save mode and, for an RGBD camera, the [i]-th depth scale and
    a depth saver of the [i]-th depth save mode; no saver is null. *)
Theorem populateCamerasData_configures_cameras (p : Parameters) (kind : camera_kind)
    (cameraNames : list name) st st' :
  NoDup cameraNames ->
  populateCamerasData p kind cameraNames st = (true, st') ->
  exists rates rgbSaveMode scales depthSaveMode,
    match kind with
    | RGBCameras =>
        rgb_cameras_fps p = Some rates /\ rgb_cameras_rgb_save_mode p = Some rgbSaveMode
    | RGBDCameras =>
        rgbd_cameras_fps p = Some rates /\ rgbd_cameras_rgb_save_mode p = Some rgbSaveMode
        /\ rgbd_cameras_depth_scale p = Some scales
        /\ rgbd_cameras_depth_save_mode p = Some depthSaveMode
        /\ length scales = length cameraNames
        /\ length depthSaveMode = length cameraNames
    end
    /\ length rates = length cameraNames
    /\ length rgbSaveMode = length cameraNames
    /\ errors st' = errors st
    /\ forall i camera, cameraNames !! i = Some camera ->
         exists w, m_videoWriters st' !! camera = Some w
                   /\ fps w = rates !!! i /\ (0 < fps w)%Z
                   /\ rgb w = createImageSaver (rgbSaveMode !!! i) /\ is_Some (rgb w)
                   /\ match kind with
                      | RGBCameras => True
                      | RGBDCameras =>
                          depthScale w = scales !!! i
                          /\ depth w = createImageSaver (depthSaveMode !!! i)
                          /\ is_Some (depth w)
                      end.
Proof.
  intros Hnodup. unfold populateCamerasData. destruct kind.
  - destruct (rgb_cameras_fps p) as [rates|]; [|done].
    destruct (rgb_cameras_rgb_save_mode p) as [rgbSaveMode|]; [|done].
    destruct (bool_decide (length rates <> length rgbSaveMode)) eqn:H1; [done|].
    destruct (bool_decide (length rates <> length cameraNames)) eqn:H2; [done|].
    apply bool_decide_eq_false in H1, H2.
    assert (length rates = length rgbSaveMode) by lia.
    assert (length rates = length cameraNames) by lia.
    intros Hloop.
    apply populate_loop_success in Hloop as (_ & Herr & _ & Hdone); [|done|lia].
    exists rates, rgbSaveMode, [], []. split; [done|]. split; [done|]. split; [lia|].
    split; [done|]. intros i camera Hi.
    destruct (Hdone i camera) as (w & Hw & Hc); [|done|].
    { apply lookup_lt_Some in Hi. lia. }
    exists w. split; [done|]. exact Hc.
  - destruct (rgbd_cameras_fps p) as [rates|]; [|done].
    destruct (rgbd_cameras_depth_scale p) as [scales|]; [|done].
    destruct (rgbd_cameras_rgb_save_mode p) as [rgbSaveMode|]; [|done].
    destruct (rgbd_cameras_depth_save_mode p) as [depthSaveMode|]; [|done].
    destruct (bool_decide (length rates <> length scales)) eqn:H1; [done|].
    destruct (bool_decide (length rates <> length rgbSaveMode)) eqn:H2; [done|].
    destruct (bool_decide (length rates <> length depthSaveMode)) eqn:H3; [done|].
    destruct (bool_decide (length rates <> length cameraNames)) eqn:H4; [done|].
    cbn [orb]. apply bool_decide_eq_false in H1, H2, H3, H4.
    assert (length rates = length scales) by lia.
    assert (length rates = length rgbSaveMode) by lia.
    assert (length rates = length depthSaveMode) by lia.
    assert (length rates = length cameraNames) by lia.
    intros Hloop.
    apply populate_loop_success in Hloop as (_ & Herr & _ & Hdone); [|done|lia].
    exists rates, rgbSaveMode, scales, depthSaveMode.
    split; [repeat split; (done || lia)|]. split; [done|]. split; [lia|].
    split; [done|]. intros i camera Hi.
    destruct (Hdone i camera) as (w & Hw & Hc); [|done|].
    { apply lookup_lt_Some in Hi. lia. }
    exists w. split; [done|]. exact Hc.
Qed.

Lemma populate_loop_not_ok kind n :
  forall i rates scales rgbSaveMode depthSaveMode cameraNames st,
    (populate_loop kind n i rates scales rgbSaveMode depthSaveMode cameraNames false st).1
    = false.
Proof.
  induction n as [|n IH]; intros i rates scales rgbSaveMode depthSaveMode cameraNames st;
    [done|].
  cbn [populate_loop]. destruct (decide (rates !!! i <= 0)%Z); [done|].
  destruct kind; apply IH.
Qed.

(** The loop of [populateCamerasData] goes on after a save mode it does not
    know, but its result is [false] whatever comes after. *)
Lemma populate_loop_unknown_mode kind n :
  forall i rates scales rgbSaveMode depthSaveMode cameraNames ok st j,
    i <= j < i + n ->
    createImageSaver (Mat := Mat) (rgbSaveMode !!! j) = None
    \/ (kind = RGBDCameras /\ createImageSaver (Mat := Mat) (depthSaveMode !!! j) = None) ->
    (populate_loop kind n i rates scales rgbSaveMode depthSaveMode cameraNames ok st).1
    = false.
Proof.
  induction n as [|n IH];
    intros i rates scales rgbSaveMode depthSaveMode cameraNames ok st j Hj Hbad; [lia|].
  cbn [populate_loop]. destruct (decide (rates !!! i <= 0)%Z); [done|].
  destruct (decide (j = i)) as [->|Hne].
  - destruct kind.
    + destruct Hbad as [->|[? _]]; [|done]. rewrite andb_false_r.
      apply populate_loop_not_ok.
    + destruct Hbad as [->|[_ ->]].
      * rewrite andb_false_r. apply populate_loop_not_ok.
      * rewrite andb_false_r. apply populate_loop_not_ok.
  - destruct kind; apply (IH _ _ _ _ _ _ _ _ j); (lia || done).
Qed.

Lemma createImageSaver_unknown (mode : name) :
  mode <> std_string "frame" -> mode <> std_string "video" ->
  createImageSaver (Mat := Mat) mode = None.
Proof.
  intros Hframe Hvideo. unfold createImageSaver.
  by rewrite decide_False, decide_False.
Qed.

Lemma populate_enabled_false p kind cameraNames st :
  (populateCamerasData p kind cameraNames st).1 = false ->
  (populate_enabled p kind true cameraNames st).1 = false.
Proof.
  unfold populate_enabled. destruct (populateCamerasData p kind cameraNames st) as [ok st'].
  simpl. by intros ->.
Qed.

Lemma open_populate_false p d (md : CameraMetaData) :
  setupRobotCameraBridge p = Some md ->
  (isRGBCameraEnabled md = true
   /\ forall st, (populateCamerasData p RGBCameras (rgbCamerasList md) st).1 = false)
  \/ (isRGBDCameraEnabled md = true
      /\ forall st, (populateCamerasData p RGBDCameras (rgbdCamerasList md) st).1 = false) ->
  (open p d).1 = false.
Proof.
  intros Hbridge Hbad. unfold open. destruct (setupRobotSensorBridge p); [|done].
  rewrite Hbridge. destruct Hbad as [[Hrgb Hfalse]|[Hrgbd Hfalse]].
  - rewrite Hrgb.
    pose proof (populate_enabled_false p RGBCameras (rgbCamerasList md) (cameras d)
                  (Hfalse _)) as Hr.
    destruct (populate_enabled p RGBCameras true _ _) as [ok st]. simpl in Hr. by subst ok.
  - destruct (populate_enabled p RGBCameras _ _ _) as [[] st]; [|done].
    rewrite Hrgbd.
    pose proof (populate_enabled_false p RGBDCameras (rgbdCamerasList md) st
                  (Hfalse _)) as Hr.
    destruct (populate_enabled p RGBDCameras true _ _) as [ok st']. simpl in Hr. by subst ok.
Qed.

(** When the camera bridge has been set up, [open] returns [false] whenever
    a save mode configured for an enabled kind of camera, for the colour
    stream or for the depth stream, is neither "frame" nor "video", whatever
    the rest of the configuration is. *)
Theorem open_rejects_unknown_save_mode (p : Parameters) d (md : CameraMetaData)
    (modes : list name) (mode : name) :
  setupRobotCameraBridge p = Some md ->
  mode ∈ modes -> mode <> std_string "frame" -> mode <> std_string "video" ->
  (isRGBCameraEnabled md = true /\ rgb_cameras_rgb_save_mode p = Some modes)
  \/ (isRGBDCameraEnabled md = true
      /\ (rgbd_cameras_rgb_save_mode p = Some modes
          \/ rgbd_cameras_depth_save_mode p = Some modes)) ->
  (open p d).1 = false.
Proof.
  intros Hbridge (j & Hj)%list_elem_of_lookup Hframe Hvideo Hwhere.
  pose proof (createImageSaver_unknown mode Hframe Hvideo) as Hnone.
  pose proof (lookup_lt_Some _ _ _ Hj) as Hlt.
  rewrite <- (list_lookup_total_correct _ _ _ Hj) in Hnone.
  apply (open_populate_false p d md Hbridge).
  destruct Hwhere as [[Hrgb Hmodes]|[Hrgbd Hmodes]]; [left|right]; (split; [done|]);
    intros st; unfold populateCamerasData.
  - rewrite Hmodes. destruct (rgb_cameras_fps p) as [rates|]; [|done].
    destruct (bool_decide (length rates <> length modes)) eqn:H1; [done|].
    destruct (bool_decide (length rates <> length (rgbCamerasList md))); [done|].
    apply bool_decide_eq_false in H1.
    apply (populate_loop_unknown_mode _ _ _ _ _ _ _ _ _ _ j); [lia|by left].
  - destruct (rgbd_cameras_fps p) as [rates|]; [|done].
    destruct (rgbd_cameras_depth_scale p) as [scales|]; [|done].
    destruct (rgbd_cameras_rgb_save_mode p) as [rgbSaveMode|] eqn:Hrm;
      [|done].
    destruct (rgbd_cameras_depth_save_mode p) as [depthSaveMode|] eqn:Hdm; [|done].
    destruct (bool_decide (length rates <> length scales)); [done|].
    destruct (bool_decide (length rates <> length rgbSaveMode)) eqn:H2; [done|].
    destruct (bool_decide (length rates <> length depthSaveMode)) eqn:H3; [done|].
    destruct (bool_decide (length rates <> length (rgbdCamerasList md))); [done|].
    cbn [orb]. apply bool_decide_eq_false in H2, H3.
    destruct Hmodes as [[= ->]|[= ->]];
      apply (populate_loop_unknown_mode _ _ _ _ _ _ _ _ _ _ j); (lia || by auto).
Qed.

(** When the camera bridge has been set up, [open] returns [false] unless
    the frame rates of every enabled kind of camera are configured, one for
    each camera of that kind. *)
Theorem open_requires_one_frame_rate_per_camera (p : Parameters) d (md : CameraMetaData) :
  setupRobotCameraBridge p = Some md ->
  (isRGBCameraEnabled md = true
   /\ forall rates, rgb_cameras_fps p = Some rates ->
                    length rates <> length (rgbCamerasList md))
  \/ (isRGBDCameraEnabled md = true
      /\ forall rates, rgbd_cameras_fps p = Some rates ->
                       length rates <> length (rgbdCamerasList md)) ->
  (open p d).1 = false.
Proof.
  intros Hbridge Hbad. apply (open_populate_false p d md Hbridge).
  destruct Hbad as [[Hrgb Hlen]|[Hrgbd Hlen]]; [left|right]; (split; [done|]);
    intros st; unfold populateCamerasData.
  - destruct (rgb_cameras_fps p) as [rates|]; [|done]. specialize (Hlen rates eq_refl).
    destruct (rgb_cameras_rgb_save_mode p); [|done].
    destruct (bool_decide (length rates <> length _)); [done|].
    by rewrite bool_decide_eq_true_2.
  - destruct (rgbd_cameras_fps p) as [rates|]; [|done]. specialize (Hlen rates eq_refl).
    destruct (rgbd_cameras_depth_scale p); [|done].
    destruct (rgbd_cameras_rgb_save_mode p); [|done].
    destruct (rgbd_cameras_depth_save_mode p); [|done].
    destruct (_ || _); [done|]. destruct (bool_decide (length rates <> length _)); [done|].
    by rewrite bool_decide_eq_true_2.
Qed.

(** [open] keeps the codec usable: when it succeeds on a device whose codec
    code has 4 characters, the codec code it leaves, replaced by the
    configured one or not, has 4 characters, so that [openVideoWriter] can
    read its characters 0 to 3. *)
Theorem open_keeps_codec_of_four_characters (p : Parameters) d :
  length (m_videoCodecCode d) = 4 ->
  (open p d).1 = true ->
  length (m_videoCodecCode (open p d).2) = 4.
Proof.
  intros Hlen. unfold open, open_telemetry, with_cameras.
  repeat (case_match; simplify_eq /=); try done.
  all: intros _; lia.
Qed.

End OpenRuns.


Lemma populateCamerasData_configures_cameras_witness :
  let p := ConfigSamples.two_cameras in
  let cameraNames := [std_string "left"; std_string "right"] in
  let st := cameras OpenSamples.fresh in
  let st' := (populateCamerasData p RGBCameras cameraNames st).2 in
  NoDup cameraNames
  /\ populateCamerasData p RGBCameras cameraNames st = (true, st')
  /\ exists rates rgbSaveMode (scales : list Z) (depthSaveMode : list name),
       (rgb_cameras_fps p = Some rates /\ rgb_cameras_rgb_save_mode p = Some rgbSaveMode)
       /\ length rates = length cameraNames
       /\ length rgbSaveMode = length cameraNames
       /\ errors st' = errors st
       /\ forall i camera, cameraNames !! i = Some camera ->
            exists w, m_videoWriters st' !! camera = Some w
                      /\ fps w = rates !!! i /\ (0 < fps w)%Z
                      /\ rgb w = createImageSaver (rgbSaveMode !!! i) /\ is_Some (rgb w)
                      /\ match RGBCameras with
                         | RGBCameras => True
                         | RGBDCameras =>
                             depthScale w = scales !!! i
                             /\ depth w = createImageSaver (depthSaveMode !!! i)
                             /\ is_Some (depth w)
                         end.
Proof.
  intros p cameraNames st st'.
  assert (Hnodup : NoDup cameraNames) by (apply (bool_decide_unpack _); vm_compute; exact I).
  assert (Hcall : populateCamerasData p RGBCameras cameraNames st = (true, st'))
    by (vm_compute; reflexivity).
  split; [exact Hnodup|]. split; [exact Hcall|].
  exact (populateCamerasData_configures_cameras p RGBCameras cameraNames st st' Hnodup Hcall).
Defined.

Lemma open_rejects_unknown_save_mode_witness :
  let p := ConfigSamples.unknown_mode in
  let md := ConfigSamples.bridge in
  let modes := [std_string "video"; std_string "images"] in
  setupRobotCameraBridge p = Some md
  /\ std_string "images" ∈ modes
  /\ std_string "images" <> std_string "frame"
  /\ std_string "images" <> std_string "video"
  /\ (isRGBCameraEnabled md = true /\ rgb_cameras_rgb_save_mode p = Some modes)
  /\ (open p OpenSamples.fresh).1 = false.
Proof.
  intros p md modes.
  assert (Hin : std_string "images" ∈ modes)
    by (apply elem_of_cons; right; apply elem_of_cons; by left).
  assert (Hframe : std_string "images" <> std_string "frame") by (vm_compute; discriminate).
  assert (Hvideo : std_string "images" <> std_string "video") by (vm_compute; discriminate).
  assert (Hwhere : isRGBCameraEnabled md = true /\ rgb_cameras_rgb_save_mode p = Some modes)
    by (split; reflexivity).
  split; [reflexivity|]. split; [exact Hin|]. split; [exact Hframe|]. split; [exact Hvideo|].
  split; [exact Hwhere|].
  exact (open_rejects_unknown_save_mode p OpenSamples.fresh md modes (std_string "images")
           eq_refl Hin Hframe Hvideo (or_introl Hwhere)).
Defined.

Lemma open_requires_one_frame_rate_per_camera_witness :
  let p := ConfigSamples.one_rate in
  let md := ConfigSamples.bridge in
  setupRobotCameraBridge p = Some md
  /\ (isRGBCameraEnabled md = true
      /\ forall rates, rgb_cameras_fps p = Some rates ->
                       length rates <> length (rgbCamerasList md))
  /\ (open p OpenSamples.fresh).1 = false.
Proof.
  intros p md.
  assert (Hbad : isRGBCameraEnabled md = true
                 /\ forall rates, rgb_cameras_fps p = Some rates ->
                                  length rates <> length (rgbCamerasList md)).
  { split; [reflexivity|]. intros rates [= <-]. vm_compute. discriminate. }
  split; [reflexivity|]. split; [exact Hbad|].
  exact (open_requires_one_frame_rate_per_camera p OpenSamples.fresh md eq_refl
           (or_introl Hbad)).
Defined.

Lemma open_keeps_codec_of_four_characters_witness :
  let p := ConfigSamples.two_cameras in
  let d := OpenSamples.fresh in
  length (m_videoCodecCode d) = 4
  /\ (open p d).1 = true
  /\ length (m_videoCodecCode (open p d).2) = 4.
Proof.
  intros p d.
  assert (Hlen : length (m_videoCodecCode d) = 4) by (vm_compute; reflexivity).
  assert (Hopen : (open p d).1 = true) by (vm_compute; reflexivity).
  split; [exact Hlen|]. split; [exact Hopen|].
  exact (open_keeps_codec_of_four_characters p d Hlen Hopen).
Defined.

(** On the sample: the codec of the configuration replaces the default. *)
Example open_sets_codec :
  m_videoCodecCode (open ConfigSamples.two_cameras OpenSamples.fresh).2 = std_string "avc1".
Proof. vm_compute. reflexivity. Qed.


(** ** Attaching the drivers: [attachAll] *)
Section AttachFacts.

Context {scalar Mat : Type} `{MatOps Mat}.
Implicit Types (a : AttachAnswers) (acc : bool * attach_trace) (calls : attach_trace)
  (plan : list attach_call) (st : CameraState Mat) (d : Device Mat).

Lemma guarded_false a calls plan : guarded a (false, calls) plan = (false, calls).
Proof. induction plan as [|call plan IH]; [done|]. exact IH. Qed.

Lemma guarded_app a acc plan plan' :
  guarded a acc (plan ++ plan') = guarded a (guarded a acc plan) plan'.
Proof. apply fold_left_app. Qed.

Lemma guarded_cons a acc call plan :
  guarded a acc (call :: plan) = guarded a (and_also acc call (answer a acc.2 call)) plan.
Proof. done. Qed.

Lemma add_channels_guarded a acc (channels : list ChannelInfo) :
  add_channels a acc channels = guarded a acc (AddChannel <$> channels).
Proof.
  revert acc. induction channels as [|channel channels IH]; intros acc; [done|].
  cbn [add_channels fold_left]. rewrite fmap_cons, guarded_cons. apply IH.
Qed.

(** A sequence of guarded calls that ends with [ok] set has made all of them,
    and all have been answered [true]. *)
Lemma guarded_true a plan :
  forall acc, (guarded a acc plan).1 = true ->
    acc.1 = true /\ (guarded a acc plan).2 = acc.2 ++ ((fun call => (call, true)) <$> plan).
Proof.
  induction plan as [|call plan IH]; intros acc Hok.
  - simpl in *. by rewrite app_nil_r.
  - rewrite guarded_cons in *. destruct (IH _ Hok) as [Hok1 Hcalls].
    destruct acc as [[] calls]; [|done]. cbn [and_also fst snd] in *.
    split; [done|]. rewrite Hcalls, Hok1. by rewrite <- app_assoc.
Qed.

Lemma guarded_stops a plan :
  forall acc,
    stops_at_refusal acc.2 -> (acc.1 = true -> Forall (fun c => c.2 = true) acc.2) ->
    stops_at_refusal (guarded a acc plan).2
    /\ ((guarded a acc plan).1 = true -> Forall (fun c => c.2 = true) (guarded a acc plan).2).
Proof.
  induction plan as [|call plan IH]; intros acc Hstops Hall; [done|].
  rewrite guarded_cons. apply IH.
  - destruct acc as [[] calls]; [|done]. cbn [and_also fst snd] in *.
    intros k call' Hk. rewrite length_app. cbn [length].
    destruct (decide (k < length calls)) as [Hlt|Hge].
    + rewrite lookup_app_l in Hk by done.
      specialize (Hall eq_refl). rewrite Forall_lookup in Hall.
      by specialize (Hall _ _ Hk).
    + apply lookup_lt_Some in Hk as Hlt. rewrite length_app in Hlt. cbn [length] in Hlt. lia.
  - destruct acc as [[] calls]; [|done]. cbn [and_also fst snd] in *.
    intros Hanswer. apply Forall_app. split; [by apply Hall|].
    apply Forall_singleton. done.
Qed.

Lemma guarded_elem a plan :
  forall acc c, c ∈ (guarded a acc plan).2 -> c ∈ acc.2 \/ c.1 ∈ plan.
Proof.
  induction plan as [|call plan IH]; intros acc c Hin; [by left|].
  rewrite guarded_cons in Hin. destruct (IH _ _ Hin) as [Hacc|Hplan].
  - destruct acc as [[] calls]; cbn [and_also fst snd] in *; [|by left].
    apply elem_of_app in Hacc as [Hacc|Hacc]; [by left|].
    apply list_elem_of_singleton in Hacc as ->. right. by left.
  - right. by right.
Qed.

(** Once a call has been refused, the calls that would follow make no
    difference. *)
Lemma guarded_refused a acc plan rest :
  (guarded a acc plan).1 = false ->
  guarded a acc (plan ++ rest) = guarded a acc plan.
Proof.
  intros Hok. rewrite guarded_app. destruct (guarded a acc plan) as [ok calls].
  simpl in Hok. subst ok. apply guarded_false.
Qed.

Lemma attach_rgb_cameras_calls a cameras :
  forall acc st r calls st',
    attach_rgb_cameras a cameras acc st = Returned (r, calls, st') ->
    match r with
    | Some ok => (ok, calls) = guarded a acc (rgb_plan cameras)
    | None => exists pre post,
                cameras = pre ++ post /\ calls = (guarded a acc (rgb_plan pre)).2
    end.
Proof.
  induction cameras as [|camera cameras IH]; intros acc st r calls st'.
  - cbn. intros [= <- <- <-]. by destruct acc.
  - cbn [attach_rgb_cameras].
    destruct (attach_stream RGB camera (rgbImgDimensions st) st) as [[[] st1]|]; [| |done].
    + intros Hrest. apply IH in Hrest. destruct r as [ok|]; [exact Hrest|].
      destruct Hrest as (pre & post & -> & ->). by exists (camera :: pre), post.
    + intros [= <- <- <-]. by exists [], (camera :: cameras).
Qed.

Lemma attach_rgbd_cameras_calls a cameras :
  forall acc st r calls st',
    attach_rgbd_cameras a cameras acc st = Returned (r, calls, st') ->
    match r with
    | Some ok => (ok, calls) = guarded a acc (rgbd_plan cameras)
    | None => exists pre post,
                cameras = pre ++ post /\ calls = (guarded a acc (rgbd_plan pre)).2
    end.
Proof.
  induction cameras as [|camera cameras IH]; intros acc st r calls st'.
  - cbn. intros [= <- <- <-]. by destruct acc.
  - cbn [attach_rgbd_cameras].
    destruct (attach_stream RGB camera (rgbdImgDimensions st) st) as [[[] st1]|]; [| |done].
    + destruct (attach_stream Depth camera (rgbdImgDimensions st1) st1) as [[[] st2]|];
        [| |done].
      * intros Hrest. apply IH in Hrest. destruct r as [ok|]; [exact Hrest|].
        destruct Hrest as (pre & post & -> & ->). by exists (camera :: pre), post.
      * intros [= <- <- <-]. by exists [], (camera :: cameras).
    + intros [= <- <- <-]. by exists [], (camera :: cameras).
Qed.

Lemma rgbd_plan_app (pre post : list name) :
  rgbd_plan (pre ++ post) = rgbd_plan pre ++ rgbd_plan post.
Proof. unfold rgbd_plan. by rewrite flat_map_app. Qed.

Lemma rgb_phase_calls a acc st acc1 st1 r calls st' :
  get_rgb_cameras a acc st = (acc1, st1) ->
  attach_rgb_cameras a (m_rgbCamerasList st1) acc1 st1 = Returned (r, calls, st') ->
  match r with
  | Some ok =>
      (ok, calls) = guarded a acc ([GetRGBCamerasList] ++ rgb_plan (getRGBCamerasList a).2)
  | None =>
      exists plan' rest,
        [GetRGBCamerasList] ++ rgb_plan (getRGBCamerasList a).2 = plan' ++ rest
        /\ calls = (guarded a acc plan').2
  end.
Proof.
  unfold get_rgb_cameras. intros [= <- <-] Hloop. apply attach_rgb_cameras_calls in Hloop.
  destruct acc as [[] calls0]; cbn [fst snd and_also m_rgbCamerasList] in Hloop.
  - destruct r as [ok|]; [exact Hloop|].
    destruct Hloop as (pre & post & Hlist & ->).
    exists ([GetRGBCamerasList] ++ rgb_plan pre), (rgb_plan post). split; [|done].
    rewrite Hlist. unfold rgb_plan. by rewrite fmap_app, <- app_assoc.
  - destruct r as [ok|].
    + rewrite guarded_false in *. done.
    + destruct Hloop as (pre & post & _ & ->). rewrite guarded_false.
      by exists [], ([GetRGBCamerasList] ++ rgb_plan (getRGBCamerasList a).2).
Qed.

Lemma rgbd_phase_calls a acc st acc1 st1 r calls st' :
  get_rgbd_cameras a acc st = (acc1, st1) ->
  attach_rgbd_cameras a (m_rgbdCamerasList st1) acc1 st1 = Returned (r, calls, st') ->
  match r with
  | Some ok =>
      (ok, calls) = guarded a acc ([GetRGBDCamerasList] ++ rgbd_plan (getRGBDCamerasList a).2)
  | None =>
      exists plan' rest,
        [GetRGBDCamerasList] ++ rgbd_plan (getRGBDCamerasList a).2 = plan' ++ rest
        /\ calls = (guarded a acc plan').2
  end.
Proof.
  unfold get_rgbd_cameras. intros [= <- <-] Hloop. apply attach_rgbd_cameras_calls in Hloop.
  destruct acc as [[] calls0]; cbn [fst snd and_also m_rgbdCamerasList] in Hloop.
  - destruct r as [ok|]; [exact Hloop|].
    destruct Hloop as (pre & post & Hlist & ->).
    exists ([GetRGBDCamerasList] ++ rgbd_plan pre), (rgbd_plan post). split; [|done].
    rewrite Hlist. by rewrite rgbd_plan_app, <- app_assoc.
  - destruct r as [ok|].
    + rewrite guarded_false in *. done.
    + destruct Hloop as (pre & post & _ & ->). rewrite guarded_false.
      by exists [], ([GetRGBDCamerasList] ++ rgbd_plan (getRGBDCamerasList a).2).
Qed.

Lemma camera_plan_split a :
  camera_plan a
  = ([GetRGBCamerasList] ++ rgb_plan (getRGBCamerasList a).2)
    ++ ([GetRGBDCamerasList] ++ rgbd_plan (getRGBDCamerasList a).2).
Proof. unfold camera_plan. by rewrite <- app_assoc. Qed.

(** The calls of the camera part, and the video threads it starts. *)
Lemma attach_cameras_calls a acc d r calls d1 :
  attach_cameras a acc d = Returned (r, calls, d1) ->
  match r with
  | Some ok => (ok, calls) = guarded a acc (camera_plan a)
  | None => exists plan' rest, camera_plan a = plan' ++ rest /\ calls = (guarded a acc plan').2
  end
  /\ workers d1
     = workers d
       ++ match r with
          | Some true => recordVideo_worker <$> (map_to_list (m_videoWriters (cameras d1))).*1
          | _ => []
          end.
Proof.
  unfold attach_cameras.
  destruct (get_rgb_cameras a acc (cameras d)) as [acc1 st1] eqn:Hget1.
  destruct (attach_rgb_cameras a (m_rgbCamerasList st1) acc1 st1) as [[[r1 calls1] st2]|]
    eqn:Hrgb; [|done].
  pose proof (rgb_phase_calls _ _ _ _ _ _ _ _ Hget1 Hrgb) as H1. destruct r1 as [ok1|].
  - destruct (get_rgbd_cameras a (ok1, calls1) st2) as [acc2 st3] eqn:Hget2.
    destruct (attach_rgbd_cameras a (m_rgbdCamerasList st3) acc2 st3) as [[[r2 calls2] st4]|]
      eqn:Hrgbd; [|done].
    pose proof (rgbd_phase_calls _ _ _ _ _ _ _ _ Hget2 Hrgbd) as H2.
    destruct r2 as [ok2|]; intros [= <- <- <-].
    + split.
      * by rewrite camera_plan_split, guarded_app, <- H1.
      * destruct ok2; [cbn; reflexivity|cbn; symmetry; apply app_nil_r].
    + split; [|cbn; symmetry; apply app_nil_r].
      destruct H2 as (plan' & rest & Hplan & ->).
      exists (([GetRGBCamerasList] ++ rgb_plan (getRGBCamerasList a).2) ++ plan'), rest.
      split; [by rewrite camera_plan_split, Hplan, app_assoc|].
      by rewrite guarded_app, <- H1.
  - intros [= <- <- <-]. split; [|cbn; symmetry; apply app_nil_r].
    destruct H1 as (plan' & rest & Hplan & ->).
    exists plan', (rest ++ [GetRGBDCamerasList] ++ rgbd_plan (getRGBDCamerasList a).2).
    split; [|done]. by rewrite camera_plan_split, Hplan, <- app_assoc.
Qed.

Lemma attach_finish_guarded a acc d :
  attach_finish a acc d
  = ((guarded a acc [SetSaveCallback; Start]).1, d,
     (guarded a acc [SetSaveCallback; Start]).2).
Proof.
  unfold attach_finish. destruct acc as [[] calls]; cbn; [|done].
  by destruct (setSaveCallback a).
Qed.

Lemma attach_plan_split a fl sfl (sb : SensorBridge scalar) joints :
  attach_plan a fl sfl sb joints
  = ((AddChannel <$> telemetry_channels fl sfl sb joints) ++ [OpenTextLoggingPort])
    ++ match camera_setDriversList a with
       | None => []
       | Some _ => camera_plan a
       end
    ++ [SetSaveCallback; Start].
Proof. unfold attach_plan. by rewrite <- app_assoc. Qed.

(** What every run of [attachAll] that gets past the joints list has done:
    its calls are the guarded calls of a first part of the plan, the whole
    plan when it returns [true], and it has started the two discovery
    threads, followed by the video threads when no call before them has been
    refused. *)
Lemma attachAll_calls a fl sfl (sb : SensorBridge scalar) d b d' calls joints :
  sensor_setDriversList a = true ->
  camera_setDriversList a <> Some false ->
  getJointsList a = Some joints ->
  attachAll a fl sfl sb d = Returned (b, d', calls) ->
  exists plan' rest videos,
    attach_plan a fl sfl sb joints = plan' ++ rest
    /\ calls = (guarded a (true, []) plan').2
    /\ (b = true -> rest = [] /\ (guarded a (true, []) plan').1 = true)
    /\ workers d'
       = workers d ++ [lookForNewLogs_worker; lookForExogenousSignals_worker] ++ videos
    /\ (videos = []
        \/ (videos = recordVideo_worker <$> (map_to_list (m_videoWriters (cameras d'))).*1
            /\ forall k channel, calls !! k <> Some (AddChannel channel, false)))
    /\ (b = true -> is_Some (camera_setDriversList a) ->
        videos = recordVideo_worker <$> (map_to_list (m_videoWriters (cameras d'))).*1)
    /\ (camera_setDriversList a = None -> videos = []).
Proof.
  intros Hsensor Hcamera Hjoints. unfold attachAll. rewrite Hsensor, Hjoints. cbn [negb].
  set (P0 := (AddChannel <$> telemetry_channels fl sfl sb joints) ++ [OpenTextLoggingPort]).
  set (d0 := start_workers [lookForNewLogs_worker; lookForExogenousSignals_worker] d).
  assert (Hacc0 : and_also (add_channels a (true, []) (telemetry_channels fl sfl sb joints))
                    OpenTextLoggingPort (textLoggingPort_open a)
                  = guarded a (true, []) P0).
  { subst P0. by rewrite add_channels_guarded, guarded_app. }
  rewrite Hacc0, attach_plan_split. fold P0.
  destruct (camera_setDriversList a) as [[]|]; [|done|].
  - destruct (attach_cameras a (guarded a (true, []) P0) d0) as [[[r calls1] d1]|] eqn:Hcam;
      [|done].
    apply attach_cameras_calls in Hcam as [Hcalls Hworkers]. destruct r as [ok|].
    + rewrite attach_finish_guarded.
      assert (Hv : (ok, calls1) = guarded a (true, []) (P0 ++ camera_plan a))
        by (by rewrite guarded_app).
      assert (Hall : guarded a (ok, calls1) [SetSaveCallback; Start]
                     = guarded a (true, []) (P0 ++ camera_plan a ++ [SetSaveCallback; Start])).
      { by rewrite (app_assoc P0), (guarded_app _ _ (P0 ++ camera_plan a)), <- Hv. }
      remember (guarded a (ok, calls1) [SetSaveCallback; Start]) as fin eqn:Hfin.
      intros [= <- <- <-].
      exists (P0 ++ camera_plan a ++ [SetSaveCallback; Start]), [],
        (match ok with
         | true => recordVideo_worker <$> (map_to_list (m_videoWriters (cameras d1))).*1
         | false => []
         end).
      split; [by rewrite app_nil_r|]. rewrite <- Hall.
      split; [done|]. split; [done|]. split.
      { rewrite Hworkers. subst d0. cbn [workers start_workers]. by rewrite <- app_assoc. }
      split.
      * destruct ok; [right|by left]. split; [done|]. intros k channel Hk.
        rewrite Hfin in Hk.
        apply list_elem_of_lookup_2, guarded_elem in Hk as [Hin|Hin].
        -- symmetry in Hv. apply (f_equal fst) in Hv as Hok. cbn [fst] in Hok.
           apply guarded_true in Hok as [_ Hcalls1]. rewrite Hv in Hcalls1.
           cbn [fst snd] in Hin, Hcalls1. rewrite Hcalls1 in Hin.
           by apply list_elem_of_fmap in Hin as (call & [= _ ?] & _).
        -- cbn [fst] in Hin. apply elem_of_cons in Hin as [?|Hin]; [done|].
           apply elem_of_cons in Hin as [?|Hin]; [done|]. by apply elem_of_nil in Hin.
      * split; [|done]. intros Hb _. rewrite Hfin in Hb. apply guarded_true in Hb as [Hok _].
        cbn [fst] in Hok. by subst ok.
    + intros [= <- <- <-]. destruct Hcalls as (plan' & rest & Hplan & ->).
      exists (P0 ++ plan'), (rest ++ [SetSaveCallback; Start]), [].
      split; [by rewrite Hplan, <- !app_assoc|].
      split; [by rewrite guarded_app|]. split; [done|]. split.
      { rewrite Hworkers. subst d0. cbn [workers start_workers]. by rewrite app_nil_r. }
      split; [by left|]. split; done.
  - rewrite attach_finish_guarded.
    assert (Hall : guarded a (guarded a (true, []) P0) [SetSaveCallback; Start]
                   = guarded a (true, []) (P0 ++ [] ++ [SetSaveCallback; Start]))
      by (by rewrite guarded_app).
    remember (guarded a (guarded a (true, []) P0) [SetSaveCallback; Start]) as fin eqn:Hfin.
    intros [= <- <- <-].
    exists (P0 ++ [] ++ [SetSaveCallback; Start]), [], [].
    split; [by rewrite app_nil_r|]. rewrite <- Hall.
    split; [done|]. split; [done|]. split; [done|]. split; [by left|].
    split; [|done]. intros _ [x Hx]. done.
Qed.

(** The three ways [attachAll] gives up before any call is made. *)
Lemma attachAll_cases a fl sfl (sb : SensorBridge scalar) d b d' calls :
  attachAll a fl sfl sb d = Returned (b, d', calls) ->
  (b = false /\ calls = [] /\ workers d' = workers d)
  \/ (sensor_setDriversList a = true /\ camera_setDriversList a <> Some false
      /\ exists joints, getJointsList a = Some joints).
Proof.
  unfold attachAll. destruct (sensor_setDriversList a); cbn [negb];
    [|intros [= <- <- <-]; by left].
  destruct (camera_setDriversList a) as [[]|]; [|intros [= <- <- <-]; by left|];
    (destruct (getJointsList a) as [joints|]; [|intros [= <- <- <-]; by left]);
    intros _; right; (split; [done|]); (split; [done|]); by exists joints.
Qed.

Lemma channels_added_elem (calls : attach_trace) (channel : ChannelInfo) :
  channel ∈ channels_added calls <-> exists answered, (AddChannel channel, answered) ∈ calls.
Proof.
  unfold channels_added. rewrite list_elem_of_omap. split.
  - intros ([call answered] & Hin & Hcall). cbn [fst] in Hcall.
    destruct call; simplify_eq. by exists answered.
  - intros (answered & Hin). by exists (AddChannel channel, answered).
Qed.

(** [attachAll] makes no call after one that has been refused, and returns
    [true] only when every call it has made has been answered [true]. *)
Theorem attachAll_stops_at_refusal a fl sfl (sb : SensorBridge scalar) d b d' calls :
  attachAll a fl sfl sb d = Returned (b, d', calls) ->
  stops_at_refusal calls /\ (b = true -> Forall (fun c => c.2 = true) calls).
Proof.
  intros Hcall. destruct (attachAll_cases _ _ _ _ _ _ _ _ Hcall)
    as [(-> & -> & _)|(Hsensor & Hcamera & joints & Hjoints)].
  - split; [|done]. intros k call Hk. done.
  - destruct (attachAll_calls _ _ _ _ _ _ _ _ _ Hsensor Hcamera Hjoints Hcall)
      as (plan' & rest & videos & _ & -> & Hb & _).
    destruct (guarded_stops a plan' (true, [])) as [Hstops Hall].
    + intros k call Hk. done.
    + intros _. constructor.
    + split; [exact Hstops|]. intros ->. apply Hall. by apply Hb.
Qed.

(** When [attachAll] returns [true] it has made exactly the calls of its
    plan, in order, all answered [true]: the telemetry channels selected by
    the stream flags, the text-logging port, the camera lists and the
    channels of their cameras when there is a camera bridge, the save
    callback and the start of the periodic thread.  Besides the two
    discovery threads, a video thread runs for each entry of the video
    writers when there is a camera bridge, and none otherwise. *)
Theorem attachAll_success a fl sfl (sb : SensorBridge scalar) d d' calls :
  attachAll a fl sfl sb d = Returned (true, d', calls) ->
  exists joints,
    getJointsList a = Some joints
    /\ calls = (fun call => (call, true)) <$> attach_plan a fl sfl sb joints
    /\ workers d'
       = workers d ++ [lookForNewLogs_worker; lookForExogenousSignals_worker]
         ++ match camera_setDriversList a with
            | Some _ =>
                recordVideo_worker <$> (map_to_list (m_videoWriters (cameras d'))).*1
            | None => []
            end.
Proof.
  intros Hcall. destruct (attachAll_cases _ _ _ _ _ _ _ _ Hcall)
    as [(? & _)|(Hsensor & Hcamera & joints & Hjoints)]; [done|].
  destruct (attachAll_calls _ _ _ _ _ _ _ _ _ Hsensor Hcamera Hjoints Hcall)
    as (plan' & rest & videos & Hplan & -> & Hb & Hworkers & _ & Hvideos & Hnone).
  destruct (Hb eq_refl) as [-> Hok]. rewrite app_nil_r in Hplan. subst plan'.
  exists joints. split; [done|]. apply guarded_true in Hok as [_ ->]. split; [done|].
  rewrite Hworkers. destruct (camera_setDriversList a) as [bridge|].
  - by rewrite Hvideos.
  - by rewrite Hnone.
Qed.

(** Once the joints list has been obtained, [attachAll] starts the two
    discovery threads whatever its result, also when it returns [false].
    The video threads come after them, all or none, and none is started
    when a call of [addChannel] has been refused. *)
Theorem attachAll_threads a fl sfl (sb : SensorBridge scalar) d b d' calls joints :
  sensor_setDriversList a = true ->
  camera_setDriversList a <> Some false ->
  getJointsList a = Some joints ->
  attachAll a fl sfl sb d = Returned (b, d', calls) ->
  exists videos,
    workers d'
    = workers d ++ [lookForNewLogs_worker; lookForExogenousSignals_worker] ++ videos
    /\ (videos = []
        \/ videos = recordVideo_worker <$> (map_to_list (m_videoWriters (cameras d'))).*1)
    /\ ((exists channel, (AddChannel channel, false) ∈ calls) -> videos = []).
Proof.
  intros Hsensor Hcamera Hjoints Hcall.
  destruct (attachAll_calls _ _ _ _ _ _ _ _ _ Hsensor Hcamera Hjoints Hcall)
    as (plan' & rest & videos & _ & _ & _ & Hworkers & Hvideos & _).
  exists videos. split; [exact Hworkers|]. split.
  - destruct Hvideos as [->|[-> _]]; [by left|by right].
  - intros (channel & (k & Hk)%list_elem_of_lookup).
    destruct Hvideos as [->|[_ Hnone]]; [done|]. by destruct (Hnone k channel).
Qed.

Lemma pushed_push_if (got : option (@vector scalar)) (time : Z) (channel c : name) :
  c ∈ pushed_channels (push_if got time channel) -> c = channel.
Proof.
  destruct got as [v|]; cbn; [|by intros ?%elem_of_nil].
  by intros ->%list_elem_of_singleton.
Qed.

Lemma pushed_push_each (sensors : list name) (getter : name -> option (@vector scalar))
    (time : Z) (prefix c : name) :
  c ∈ pushed_channels (push_each sensors getter time prefix) ->
  exists sensorName, sensorName ∈ sensors /\ c = prefix ++ sensorName.
Proof.
  unfold push_each. induction sensors as [|sensorName sensors IH]; cbn [flat_map].
  - by intros ?%elem_of_nil.
  - rewrite pushed_channels_app, elem_of_app. intros [Hin|Hin].
    + apply pushed_push_if in Hin. exists sensorName. split; [by left|done].
    + destruct (IH Hin) as (other & Hother & ->). exists other. split; [by right|done].
Qed.

Lemma pushed_push_imu (sb : SensorBridge scalar) (time : Z) (sensors : list name) (c : name) :
  c ∈ pushed_channels (flat_map (push_imu sb time) sensors) ->
  exists sensorName,
    sensorName ∈ sensors
    /\ (c = std_string "accelerometers::" ++ sensorName
        \/ c = std_string "gyros::" ++ sensorName
        \/ c = std_string "orientations::" ++ sensorName).
Proof.
  induction sensors as [|sensorName sensors IH]; cbn [flat_map].
  - by intros ?%elem_of_nil.
  - rewrite pushed_channels_app, elem_of_app. intros [Hin|Hin].
    + exists sensorName. split; [by left|]. unfold push_imu in Hin.
      destruct (getIMUMeasurement sb sensorName) as [signal|]; [|by apply elem_of_nil in Hin].
      cbn in Hin. rewrite !elem_of_cons in Hin.
      destruct Hin as [-> | [-> | [-> | Hin]]]; [by left|by right; left|by right; right|].
      by apply elem_of_nil in Hin.
    + destruct (IH Hin) as (other & Hother & Hc). exists other. split; [by right|done].
Qed.

Lemma sensor_channel_names (prefix : string) (elements : list string) (sensors : list name)
    (sensorName : name) :
  sensorName ∈ sensors ->
  std_string prefix ++ sensorName ∈ channel_name <$> (sensor_channel prefix elements <$> sensors).
Proof.
  intros Hin. rewrite <- list_fmap_compose. apply list_elem_of_fmap. by exists sensorName.
Qed.

Lemma imu_channel_names (sensors : list name) (sensorName : name) (channel : ChannelInfo) :
  sensorName ∈ sensors -> channel ∈ imu_channels sensorName ->
  channel_name channel ∈ channel_name <$> flat_map imu_channels sensors.
Proof.
  intros Hin Hchannel. apply list_elem_of_fmap. exists channel. split; [done|].
  apply list_elem_of_In, in_flat_map. exists sensorName.
  split; by apply list_elem_of_In.
Qed.

(** Every channel [run] may append sensor data to is among the telemetry
    channels [attachAll] adds when the four sensor flags are set. *)
Lemma pushed_channels_in_telemetry (fl : StreamFlags) (sfl : SensorFlags)
    (sb : SensorBridge scalar) (joints : list name) (time : Z) (c : name) :
  m_streamFTSensors sfl = true -> m_streamInertials sfl = true ->
  m_streamCartesianWrenches sfl = true -> m_streamTemperatureSensors sfl = true ->
  c ∈ pushed_channels (collect_sensors fl sb time) ->
  c ∈ channel_name <$> telemetry_channels fl sfl sb joints.
Proof.
  intros Hft Hinertials Hwrenches Htemperatures.
  unfold collect_sensors, telemetry_channels.
  rewrite Hft, Hinertials, Hwrenches, Htemperatures.
  rewrite !pushed_channels_app, !fmap_app, !elem_of_app.
  intros [Hin|[Hin|[Hin|[Hin|[Hin|[Hin|[Hin|[Hin|[Hin|[Hin|[Hin|Hin]]]]]]]]]]].
  - left. destruct (m_streamJointStates fl); [|by apply elem_of_nil in Hin].
    rewrite !pushed_channels_app, !elem_of_app in Hin.
    destruct Hin as [Hin|[Hin|[Hin|Hin]]]; apply pushed_push_if in Hin as ->; cbn;
      rewrite !elem_of_cons; auto.
  - right; left. destruct (m_streamMotorStates fl); [|by apply elem_of_nil in Hin].
    rewrite !pushed_channels_app, !elem_of_app in Hin.
    destruct Hin as [Hin|[Hin|[Hin|Hin]]]; apply pushed_push_if in Hin as ->; cbn;
      rewrite !elem_of_cons; auto.
  - do 2 right; left. destruct (m_streamMotorPWM fl); [|by apply elem_of_nil in Hin].
    apply pushed_push_if in Hin as ->. cbn. rewrite !elem_of_cons. auto.
  - do 3 right; left. destruct (m_streamPIDs fl); [|by apply elem_of_nil in Hin].
    apply pushed_push_if in Hin as ->. cbn. rewrite !elem_of_cons. auto.
  - do 4 right; left. apply pushed_push_each in Hin as (sensorName & Hin & ->).
    by apply sensor_channel_names.
  - do 7 right. apply pushed_push_each in Hin as (sensorName & Hin & ->).
    by apply (sensor_channel_names "temperatures::").
  - do 5 right; left. left. apply pushed_push_each in Hin as (sensorName & Hin & ->).
    by apply sensor_channel_names.
  - do 5 right; left. right; left. apply pushed_push_each in Hin as (sensorName & Hin & ->).
    by apply sensor_channel_names.
  - do 5 right; left. do 2 right; left.
    apply pushed_push_each in Hin as (sensorName & Hin & ->).
    by apply sensor_channel_names.
  - do 5 right; left. do 3 right; left.
    apply pushed_push_each in Hin as (sensorName & Hin & ->).
    by apply sensor_channel_names.
  - do 5 right; left. do 4 right.
    apply pushed_push_imu in Hin as (sensorName & Hin & [-> | [-> | ->]]).
    + apply (imu_channel_names _ sensorName
               (sensor_channel "accelerometers::" accelerometer_elements sensorName) Hin).
      by left.
    + apply (imu_channel_names _ sensorName
               (sensor_channel "gyros::" gyro_elements sensorName) Hin).
      right. by left.
    + apply (imu_channel_names _ sensorName
               (sensor_channel "orientations::" orientation_elements sensorName) Hin).
      right. right. by left.
  - do 6 right; left. apply pushed_push_each in Hin as (sensorName & Hin & ->).
    by apply sensor_channel_names.
Qed.

(** When [attachAll] has returned [true] with the four sensor flags set,
    every channel to which a later tick of [run] appends a sensor
    measurement has been added to the buffer manager, whatever the sensor
    bridge delivers in that tick. *)
Theorem attachAll_adds_the_channels_run_uses a (fl : StreamFlags) (sfl : SensorFlags)
    (sb : SensorBridge scalar) d d' calls (time : Z) (c : name) :
  m_streamFTSensors sfl = true -> m_streamInertials sfl = true ->
  m_streamCartesianWrenches sfl = true -> m_streamTemperatureSensors sfl = true ->
  attachAll a fl sfl sb d = Returned (true, d', calls) ->
  c ∈ pushed_channels (collect_sensors fl sb time) ->
  c ∈ channel_name <$> channels_added calls.
Proof.
  intros Hft Hinertials Hwrenches Htemperatures Hcall Hin.
  destruct (attachAll_cases _ _ _ _ _ _ _ _ Hcall)
    as [(? & _)|(Hsensor & Hcamera & joints & Hjoints)]; [done|].
  destruct (attachAll_calls _ _ _ _ _ _ _ _ _ Hsensor Hcamera Hjoints Hcall)
    as (plan' & rest & videos & Hplan & -> & Hb & _).
  destruct (Hb eq_refl) as [-> Hok]. rewrite app_nil_r in Hplan. subst plan'.
  apply guarded_true in Hok as [_ ->]. cbn [snd app].
  apply (pushed_channels_in_telemetry fl sfl sb joints) in Hin; [|done..].
  apply list_elem_of_fmap in Hin as (channel & -> & Hin).
  apply list_elem_of_fmap. exists channel. split; [done|].
  apply channels_added_elem. exists true. apply list_elem_of_fmap.
  exists (AddChannel channel). split; [done|]. unfold attach_plan.
  apply elem_of_app. left. apply list_elem_of_fmap. by exists channel.
Qed.

(** The channels of the plan are telemetry channels or camera channels. *)
Lemma attach_plan_channels a fl sfl (sb : SensorBridge scalar) joints (channel : ChannelInfo) :
  AddChannel channel ∈ attach_plan a fl sfl sb joints ->
  channel ∈ telemetry_channels fl sfl sb joints
  \/ exists camera s, channel = camera_channel camera s.
Proof.
  unfold attach_plan. rewrite !elem_of_app. intros [Hin|[Hin|[Hin|Hin]]].
  - left. by apply list_elem_of_fmap in Hin as (other & [= ->] & Hin).
  - by apply list_elem_of_singleton in Hin.
  - right. destruct (camera_setDriversList a); [|by apply elem_of_nil in Hin].
    unfold camera_plan in Hin. rewrite !elem_of_app in Hin.
    destruct Hin as [Hin|[Hin|[Hin|Hin]]].
    + by apply list_elem_of_singleton in Hin.
    + apply list_elem_of_fmap in Hin as (camera & [= ->] & _). by exists camera, RGB.
    + by apply list_elem_of_singleton in Hin.
    + apply list_elem_of_In, in_flat_map in Hin as (camera & _ & Hin).
      apply list_elem_of_In in Hin. rewrite !elem_of_cons in Hin.
      destruct Hin as [[= ->]|[[= ->]|Hin]];
        [by exists camera, RGB|by exists camera, Depth|by apply elem_of_nil in Hin].
  - rewrite !elem_of_cons in Hin. destruct Hin as [?|[?|Hin]]; [done|done|].
    by apply elem_of_nil in Hin.
Qed.

Lemma telemetry_without_ft (fl : StreamFlags) (sfl : SensorFlags) (sb : SensorBridge scalar)
    (joints : list name) (channel : ChannelInfo) :
  m_streamFTSensors sfl = false ->
  channel ∈ telemetry_channels fl sfl sb joints ->
  StdString.starts_with (std_string "FTs::") (channel_name channel) = false.
Proof.
  intros Hft. unfold telemetry_channels. rewrite Hft. rewrite !elem_of_app.
  intros [Hin|[Hin|[Hin|[Hin|[Hin|[Hin|[Hin|Hin]]]]]]].
  - destruct (m_streamJointStates fl); [|by apply elem_of_nil in Hin].
    rewrite !elem_of_cons in Hin.
    destruct Hin as [->|[-> | [-> | [-> | Hin]]]]; [done..|by apply elem_of_nil in Hin].
  - destruct (m_streamMotorStates fl); [|by apply elem_of_nil in Hin].
    rewrite !elem_of_cons in Hin.
    destruct Hin as [->|[-> | [-> | [-> | Hin]]]]; [done..|by apply elem_of_nil in Hin].
  - destruct (m_streamMotorPWM fl); [|by apply elem_of_nil in Hin].
    rewrite !elem_of_cons in Hin. destruct Hin as [-> | Hin]; [done|by apply elem_of_nil in Hin].
  - destruct (m_streamPIDs fl); [|by apply elem_of_nil in Hin].
    rewrite !elem_of_cons in Hin. destruct Hin as [-> | Hin]; [done|by apply elem_of_nil in Hin].
  - by apply elem_of_nil in Hin.
  - destruct (m_streamInertials sfl); [|by apply elem_of_nil in Hin].
    rewrite !elem_of_app in Hin. destruct Hin as [Hin|[Hin|[Hin|[Hin|Hin]]]].
    1-4: by apply list_elem_of_fmap in Hin as (sensorName & -> & _).
    apply list_elem_of_In, in_flat_map in Hin as (sensorName & _ & Hin).
    apply list_elem_of_In in Hin. unfold imu_channels in Hin. rewrite !elem_of_cons in Hin.
    destruct Hin as [-> | [-> | [-> | Hin]]]; [done..|by apply elem_of_nil in Hin].
  - destruct (m_streamCartesianWrenches sfl); [|by apply elem_of_nil in Hin].
    by apply list_elem_of_fmap in Hin as (sensorName & -> & _).
  - destruct (m_streamTemperatureSensors sfl); [|by apply elem_of_nil in Hin].
    by apply list_elem_of_fmap in Hin as (sensorName & -> & _).
Qed.

(** [run] does not look at the flag of the force-torque sensors.  When the
    flag is not set, no channel [attachAll] adds has a name that starts with
    "FTs::", whatever its outcome, while a tick of [run] appends the
    measurement of every force-torque sensor that delivers one to the
    channel "FTs::" + sensorName, a channel that has not been added. *)
Theorem run_appends_to_channel_attachAll_skipped a (fl : StreamFlags) (sfl : SensorFlags)
    (sb : SensorBridge scalar) d b d' calls (time : Z) (sensorName : name)
    (v : @vector scalar) :
  m_streamFTSensors sfl = false ->
  sensorName ∈ getSixAxisForceTorqueSensorsList sb ->
  getSixAxisForceTorqueMeasurement sb sensorName = Some v ->
  attachAll a fl sfl sb d = Returned (b, d', calls) ->
  std_string "FTs::" ++ sensorName ∈ pushed_channels (collect_sensors fl sb time)
  /\ std_string "FTs::" ++ sensorName ∉ channel_name <$> channels_added calls.
Proof.
  intros Hft Hsensor Hmeasure Hcall. split.
  - unfold collect_sensors. rewrite !pushed_channels_app, !elem_of_app.
    do 4 right; left. unfold push_each.
    apply list_elem_of_omap.
    exists (EvPushBack (std_string "FTs::" ++ sensorName) time (Vector v)). split; [|done].
    apply list_elem_of_In, in_flat_map. exists sensorName.
    split; [by apply list_elem_of_In|]. rewrite Hmeasure. by left.
  - intros (channel & Hname & Hin)%list_elem_of_fmap.
    assert (Hstarts : StdString.starts_with (std_string "FTs::") (channel_name channel)
                      = false); [|by rewrite <- Hname, StdStringFacts.starts_with_app in Hstarts].
    apply channels_added_elem in Hin as [answered Hin].
    destruct (attachAll_cases _ _ _ _ _ _ _ _ Hcall)
      as [(_ & -> & _)|(Hsb & Hcamera & joints & Hjoints)]; [by apply elem_of_nil in Hin|].
    destruct (attachAll_calls _ _ _ _ _ _ _ _ _ Hsb Hcamera Hjoints Hcall)
      as (plan' & rest & videos & Hplan & -> & _).
    apply guarded_elem in Hin as [Hin|Hin]; [by apply elem_of_nil in Hin|].
    cbn [fst] in Hin.
    assert (Hplanned : AddChannel channel ∈ attach_plan a fl sfl sb joints)
      by (rewrite Hplan; apply elem_of_app; by left).
    apply attach_plan_channels in Hplanned as [Htelemetry|(camera & s & ->)].
    + by apply (telemetry_without_ft fl sfl sb joints).
    + done.
Qed.

End AttachFacts.


Lemma attachAll_stops_at_refusal_witness :
  let r := AttachSamples.result AttachSamples.refusing AttachSamples.joints_only
             Samples.bridge in
  attachAll AttachSamples.refusing Samples.flags AttachSamples.joints_only Samples.bridge
    AttachSamples.device = Returned (r.1.1, r.1.2, r.2)
  /\ stops_at_refusal r.2 /\ (r.1.1 = true -> Forall (fun c => c.2 = true) r.2).
Proof.
  intros r.
  assert (Hcall : attachAll AttachSamples.refusing Samples.flags AttachSamples.joints_only
                    Samples.bridge AttachSamples.device = Returned (r.1.1, r.1.2, r.2))
    by (vm_compute; reflexivity).
  split; [exact Hcall|].
  exact (attachAll_stops_at_refusal _ _ _ _ _ _ _ _ Hcall).
Defined.

(** On the sample: the buffer manager refuses the second channel; the
    remaining channels, the port, the cameras and the start of the periodic
    thread are not asked for, and the result is [false]. *)
Example attachAll_refusal_sample :
  let r := AttachSamples.result AttachSamples.refusing AttachSamples.joints_only
             Samples.bridge in
  r.1.1 = false
  /\ r.2.*1 = [AddChannel (joint_channel [std_string "hip"; std_string "knee"]
                             "joints_state::positions");
               AddChannel (joint_channel [std_string "hip"; std_string "knee"]
                             "joints_state::velocities")]
  /\ r.2.*2 = [true; false]
  /\ workers r.1.2 = [lookForNewLogs_worker; lookForExogenousSignals_worker].
Proof. vm_compute. done. Qed.

Lemma attachAll_success_witness :
  let r := AttachSamples.result AttachSamples.willing AttachSamples.joints_only
             Samples.bridge in
  attachAll AttachSamples.willing Samples.flags AttachSamples.joints_only Samples.bridge
    AttachSamples.device = Returned (true, r.1.2, r.2)
  /\ exists joints,
       getJointsList AttachSamples.willing = Some joints
       /\ r.2 = (fun call => (call, true))
                  <$> attach_plan AttachSamples.willing Samples.flags
                        AttachSamples.joints_only Samples.bridge joints
       /\ workers r.1.2
          = workers AttachSamples.device
            ++ [lookForNewLogs_worker; lookForExogenousSignals_worker]
            ++ match camera_setDriversList AttachSamples.willing with
               | Some _ =>
                   recordVideo_worker <$> (map_to_list (m_videoWriters (cameras r.1.2))).*1
               | None => []
               end.
Proof.
  intros r.
  assert (Hcall : attachAll AttachSamples.willing Samples.flags AttachSamples.joints_only
                    Samples.bridge AttachSamples.device = Returned (true, r.1.2, r.2))
    by (vm_compute; reflexivity).
  split; [exact Hcall|].
  exact (attachAll_success _ _ _ _ _ _ _ Hcall).
Defined.

(** On the sample: ten calls, and the video thread of the camera. *)
Example attachAll_success_sample :
  let r := AttachSamples.result AttachSamples.willing AttachSamples.joints_only
             Samples.bridge in
  length r.2 = 10
  /\ last r.2 = Some (Start, true)
  /\ workers r.1.2 = [lookForNewLogs_worker; lookForExogenousSignals_worker;
                      recordVideo_worker (std_string "cam")].
Proof. vm_compute. done. Qed.

Lemma attachAll_threads_witness :
  let a := AttachSamples.refusing in
  let r := AttachSamples.result a AttachSamples.joints_only Samples.bridge in
  sensor_setDriversList a = true
  /\ camera_setDriversList a <> Some false
  /\ getJointsList a = Some [std_string "hip"; std_string "knee"]
  /\ attachAll a Samples.flags AttachSamples.joints_only Samples.bridge AttachSamples.device
     = Returned (r.1.1, r.1.2, r.2)
  /\ exists videos,
       workers r.1.2
       = workers AttachSamples.device
         ++ [lookForNewLogs_worker; lookForExogenousSignals_worker] ++ videos
       /\ (videos = []
           \/ videos
              = recordVideo_worker <$> (map_to_list (m_videoWriters (cameras r.1.2))).*1)
       /\ ((exists channel, (AddChannel channel, false) ∈ r.2) -> videos = []).
Proof.
  intros a r.
  assert (Hcamera : camera_setDriversList a <> Some false) by (vm_compute; discriminate).
  assert (Hcall : attachAll a Samples.flags AttachSamples.joints_only Samples.bridge
                    AttachSamples.device = Returned (r.1.1, r.1.2, r.2))
    by (vm_compute; reflexivity).
  split; [reflexivity|]. split; [exact Hcamera|]. split; [reflexivity|]. split; [exact Hcall|].
  exact (attachAll_threads a _ _ _ _ _ _ _ _ eq_refl Hcamera eq_refl Hcall).
Defined.

Lemma attachAll_adds_the_channels_run_uses_witness :
  let a := AttachSamples.willing in
  let sfl := AttachSamples.everything in
  let r := AttachSamples.result a sfl AttachSamples.bridge_with_ft in
  let c := std_string "FTs::l_foot" in
  m_streamFTSensors sfl = true /\ m_streamInertials sfl = true
  /\ m_streamCartesianWrenches sfl = true /\ m_streamTemperatureSensors sfl = true
  /\ attachAll a Samples.flags sfl AttachSamples.bridge_with_ft AttachSamples.device
     = Returned (true, r.1.2, r.2)
  /\ c ∈ pushed_channels (collect_sensors Samples.flags AttachSamples.bridge_with_ft 5)
  /\ c ∈ channel_name <$> channels_added r.2.
Proof.
  intros a sfl r c.
  assert (Hcall : attachAll a Samples.flags sfl AttachSamples.bridge_with_ft
                    AttachSamples.device = Returned (true, r.1.2, r.2))
    by (vm_compute; reflexivity).
  assert (Hin : c ∈ pushed_channels
                      (collect_sensors Samples.flags AttachSamples.bridge_with_ft 5))
    by (apply (bool_decide_unpack _); vm_compute; exact I).
  split; [reflexivity|]. split; [reflexivity|]. split; [reflexivity|]. split; [reflexivity|].
  split; [exact Hcall|]. split; [exact Hin|].
  exact (attachAll_adds_the_channels_run_uses a Samples.flags sfl AttachSamples.bridge_with_ft
           _ _ _ 5 c eq_refl eq_refl eq_refl eq_refl Hcall Hin).
Defined.

Lemma run_appends_to_channel_attachAll_skipped_witness :
  let a := AttachSamples.willing in
  let sfl := AttachSamples.joints_only in
  let sb := AttachSamples.bridge_with_ft in
  let r := AttachSamples.result a sfl sb in
  m_streamFTSensors sfl = false
  /\ std_string "l_foot" ∈ getSixAxisForceTorqueSensorsList sb
  /\ getSixAxisForceTorqueMeasurement sb (std_string "l_foot") = Some [1; 2; 3; 4; 5; 6]%Z
  /\ attachAll a Samples.flags sfl sb AttachSamples.device = Returned (r.1.1, r.1.2, r.2)
  /\ std_string "FTs::" ++ std_string "l_foot"
     ∈ pushed_channels (collect_sensors Samples.flags sb 5)
  /\ std_string "FTs::" ++ std_string "l_foot" ∉ channel_name <$> channels_added r.2.
Proof.
  intros a sfl sb r.
  assert (Hsensor : std_string "l_foot" ∈ getSixAxisForceTorqueSensorsList sb)
    by (apply elem_of_cons; by left).
  assert (Hcall : attachAll a Samples.flags sfl sb AttachSamples.device
                  = Returned (r.1.1, r.1.2, r.2))
    by (vm_compute; reflexivity).
  split; [reflexivity|]. split; [exact Hsensor|]. split; [reflexivity|]. split; [exact Hcall|].
  exact (run_appends_to_channel_attachAll_skipped a Samples.flags sfl sb _ _ _ _ 5
           (std_string "l_foot") [1; 2; 3; 4; 5; 6]%Z eq_refl Hsensor eq_refl Hcall).
Defined.

(** On the sample: [attachAll] succeeds with the joint channels and the
    channel of the camera only, and the tick appends to "FTs::l_foot". *)
Example run_appends_sample :
  let r := AttachSamples.result AttachSamples.willing AttachSamples.joints_only
             AttachSamples.bridge_with_ft in
  r.1.1 = true
  /\ channel_name <$> channels_added r.2
     = [std_string "joints_state::positions"; std_string "joints_state::velocities";
        std_string "joints_state::accelerations"; std_string "joints_state::torques";
        std_string "camera::cam::rgb"]
  /\ pushed_channels (collect_sensors Samples.flags AttachSamples.bridge_with_ft 5)
     = [std_string "joints_state::positions"; std_string "joints_state::velocities";
        std_string "joints_state::accelerations"; std_string "joints_state::torques";
        std_string "FTs::l_foot"].
Proof. vm_compute. done. Qed.


(** On a device whose camera is recorded as a video while the camera bridge
    knows no image dimensions for it, [attachAll] leaves the function from
    inside the loop over the cameras: the result is [false] and the failure
    is logged, neither the save callback nor the periodic thread has been
    asked for, and the two discovery threads are running. *)
Example attachAll_unopened_stream_sample :
  match attachAll AttachSamples.willing Samples.flags AttachSamples.joints_only
          Samples.bridge AttachSamples.device_without_dimensions with
  | Returned (b, d', calls) =>
      b = false
      /\ last calls = Some (GetRGBCamerasList, true)
      /\ length (errors (cameras d')) = 2
      /\ workers d' = [lookForNewLogs_worker; lookForExogenousSignals_worker]
  | Thrown => False
  end.
Proof. vm_compute. done. Qed.
